(** * deploy-bun: the deployment server's process-lifecycle manager

    A shallow embedding of [src/server.ts] and of its client, [src/cli.ts].
    The server keeps two module-level variables
    ([currentAppServer], [currentDeploymentHash]), a directory of
    unpacked artifacts and a state file; it serves [POST /upload] and
    [GET /status] and tries to restore the last deployment at startup.

    Modelling conventions.
    - The mutable state of the process and of its host (file system, bound
      application servers) is one record, [World]; every function of the
      source becomes a computation over it.
    - An [async] function is a resumption: it runs until its next [await],
      hands the world back, and is resumed later.  [exec] runs a computation
      to completion without letting anything else in between (the sequential
      reading); [run_schedule] interleaves several of them at their await
      points (what the single-threaded event loop can do).
    - Everything the source obtains from the runtime and the host and that can
      fail for reasons outside the program (disk, shell commands, module
      loading, binding a port, the clock) is read from an [Env] record, one
      per invocation.  A failing operation is modelled as having no effect.
    - Paths are resolved lexically: no symbolic links.  An archive holds
      regular files and directories.
    - [process.cwd()], [JSON.stringify], [JSON.parse] and the archive decoder
      behind [tar -xzf] are parameters ([Runtime]).  Nothing checks what the
      state file holds: [JSON.parse] returns a [Parsed] value, which is any
      JSON value as far as the program looks at it.
    - [Bun.serve] takes any value as a port.  An integer from 1 to 65535 is
      the port bound; for any other value the runtime chooses the port, which
      is read from the [Env] ([bound_port]).
    - Console output is not modelled.  The creation of the deployments
      directory at load time and the signal handlers stand beside the
      handlers ([ensureDeploymentsDir], [on_signal]).  A rejection that
      nobody handles ends the process with exit code 1.
    - The client runs on its own file system and reaches the server through
      one request, which the server handles to completion ([Client]).  Its
      parser of [deploy.json], the digest, the archive encoder behind
      [tar -czf] and the path of a URL are parameters ([ClientRuntime]); how
      its commands end, the clock and the network are read from a [CliEnv]
      record.  A parsed [deploy.json] has the declared type [DeployConfig].
      The header values of the request are as [fetch] sends them
      ([header_value]).  The commands go through a shell, which receives
      their arguments unquoted ([tar_effect]). *)

From Stdlib Require Import ZArith Ascii String.
From stdpp Require Import gmap strings list fin_maps.

Local Open Scope string_scope.
Local Open Scope list_scope.
Local Open Scope Z_scope.

(** ** JavaScript values used by the server *)

(** [parseInt(string)] of ECMAScript, with no radix argument: leading white
    space is skipped, one sign is read, a [0x]/[0X] prefix selects radix 16,
    and the longest prefix of digits is converted; [NaN] when that prefix is
    empty.  Header values are strings of code units below 256.  The result is
    the mathematical value of the digits: the rounding to a double only
    concerns values far above any port number. *)
Inductive JSNumber : Type :=
| NaN
| Num (z : Z).

Definition code (c : ascii) : Z := Z.of_nat (nat_of_ascii c).

Definition is_white_space (c : ascii) : bool :=
  let n := code c in
  ((9 <=? n) && (n <=? 13)) || (n =? 32) || (n =? 160).

Fixpoint trim_start (s : string) : string :=
  match s with
  | String c s' => if is_white_space c then trim_start s' else s
  | EmptyString => s
  end.

Definition digit_value (c : ascii) : option Z :=
  let n := code c in
  if (48 <=? n) && (n <=? 57) then Some (n - 48)
  else if (97 <=? n) && (n <=? 122) then Some (n - 87)
  else if (65 <=? n) && (n <=? 90) then Some (n - 55)
  else None.

Definition radix_digit (R : Z) (c : ascii) : option Z :=
  match digit_value c with
  | Some d => if d <? R then Some d else None
  | None => None
  end.

Fixpoint parse_digits (R : Z) (s : string) (acc : option Z) : option Z :=
  match s with
  | String c s' =>
      match radix_digit R c with
      | Some d => parse_digits R s' (Some (R * default 0 acc + d))
      | None => acc
      end
  | EmptyString => acc
  end.

Definition strip_sign (s : string) : Z * string :=
  match s with
  | String "-" r => (-1, r)
  | String "+" r => (1, r)
  | _ => (1, s)
  end.

Definition strip_hex_prefix (s : string) : Z * string :=
  match s with
  | String "0" (String "x" r) => (16, r)
  | String "0" (String "X" r) => (16, r)
  | _ => (10, s)
  end.

Definition parseInt (s : string) : JSNumber :=
  let '(sign, s2) := strip_sign (trim_start s) in
  let '(R, s3) := strip_hex_prefix s2 in
  match parse_digits R s3 None with
  | None => NaN
  | Some n => Num (sign * n)
  end.

(** ** Paths

    A path is the list of its components below the root.  [join] is
    [path.join]: concatenate, then normalise lexically ([.] and empty
    components dropped, [..] removes the component before it). *)
Abbreviation Path := (list string).

Fixpoint split_on (sep : ascii) (s : string) : list string :=
  match s with
  | EmptyString => [EmptyString]
  | String c s' =>
      if decide (c = sep) then EmptyString :: split_on sep s'
      else match split_on sep s' with
           | seg :: rest => String c seg :: rest
           | [] => [String c EmptyString]
           end
  end.

Definition norm_step (stack : list string) (seg : string) : list string :=
  if decide (seg = "" \/ seg = ".") then stack
  else if decide (seg = "..") then tail stack
  else seg :: stack.

Definition normalize (segs : list string) : Path :=
  rev (foldl norm_step [] segs).

Definition join (base : Path) (rel : string) : Path :=
  normalize (base ++ split_on "/" rel).

(** A path given to the host as one string, such as the temporary archive. *)
Definition path_of_string (s : string) : Path :=
  normalize (split_on "/" s).

(** ** File system *)

Inductive Node : Type :=
| Dir
| File (content : string).

#[global] Instance Node_eq_dec : EqDecision Node.
Proof. solve_decision. Defined.

Abbreviation FS := (gmap Path Node).

(** The non-empty prefixes of a path, the path itself included. *)
Definition prefixes (p : Path) : list Path :=
  (fun n => take n p) <$> seq 1 (length p).

Definition parent (p : Path) : Path := take (length p - 1)%nat p.

Definition existsSync (fs : FS) (p : Path) : bool :=
  bool_decide (is_Some (fs !! p)).

Definition is_file (fs : FS) (p : Path) : bool :=
  match fs !! p with Some (File _) => true | _ => false end.

(** [mkdir -p]: fails when a component on the way is a regular file. *)
Definition mkdir_p (fs : FS) (p : Path) : option FS :=
  if forallb (fun q => negb (is_file fs q)) (prefixes p)
  then Some (foldr (fun q m => <[q := Dir]> m) fs (prefixes p))
  else None.

(** [rm -rf p]: the node at [p] and everything below it. *)
Definition rm_rf (fs : FS) (p : Path) : FS :=
  filter (fun kv => ~ p `prefix_of` kv.1) fs.

(** [rm p]: [p] must be a regular file. *)
Definition rm_file (fs : FS) (p : Path) : option FS :=
  if is_file fs p then Some (delete p fs) else None.

Definition read_file (fs : FS) (p : Path) : option string :=
  match fs !! p with Some (File c) => Some c | _ => None end.

(** [Bun.write(p, data)]: creates the missing directories above [p], then
    replaces the file; fails on a directory. *)
Definition write_file (fs : FS) (p : Path) (data : string) : option FS :=
  match mkdir_p fs (parent p) with
  | Some fs1 =>
      match fs1 !! p with
      | Some Dir => None
      | _ => Some (<[p := File data]> fs1)
      end
  | None => None
  end.

(** Unpacking one archive member below [dp]: its directories, then the
    member itself. *)
Definition put_under (dp rel : Path) (n : Node) (fs : FS) : FS :=
  <[dp ++ rel := n]>
    (foldr (fun q m => <[dp ++ q := Dir]> m) fs (prefixes (parent rel))).

Definition extract (dp : Path) (members : list (Path * Node)) (fs : FS) : FS :=
  foldl (fun acc m => put_under dp m.1 m.2 acc) fs members.

(** ** Errors and results *)

(** What a [throw] or a rejected promise carries.  [EntrypointNotFound] is
    the [Error] raised by [startApp] itself; the others come from the runtime
    and the host. *)
Inductive Error : Type :=
| BodyReadError
| FileWriteError (p : Path)
| FileReadError (p : Path)
| SyntaxError
| ShellError (cmd : string)
| MkdirError (p : Path)
| StopError
| EntrypointNotFound (p : Path)
| ImportError
| TypeError
| ServeError (port : Z).

Inductive Result (A : Type) : Type :=
| Ok (a : A)
| Err (e : Error).
Arguments Ok {A} a.
Arguments Err {A} e.

(** ** Process state *)

(** The value of a [port]: an integer, or any other value, given by its JSON
    text ([null], a string, a fraction: a state file can hold one).  An
    integer is read as a port value where one is expected. *)
Inductive PortValue : Type :=
| IntPort (n : Z)
| OtherPort (json : string).

Coercion IntPort : Z >-> PortValue.

(** [interface DeploymentState]: what the program reads of a value it takes
    for one.  [hash] and [entrypoint] are strings. *)
Record DeploymentState : Type := {
  hash : string;
  port : PortValue;
  entrypoint : string;
  timestamp : string;
}.

(** What [JSON.parse] returns, as far as the server looks at it.  Nothing
    checks that the content of the state file has the declared type. *)
Inductive Parsed : Type :=
| Null                           (* [null]: reading a property of it throws *)
| Falsy                          (* [false], [0] or the empty string *)
| Typed (state : DeploymentState)(* [hash] and [entrypoint] are strings *)
| NoEntrypoint (hash : string)   (* [hash] is a string, [entrypoint] is not *)
| NoHash.                        (* any other value: [hash] is not a string *)

(** A request handler exported by an application, as an opaque token. *)
Definition Handler := nat.

(** The object returned by [Bun.serve]: [srv_port] is the port it listens
    on. *)
Record Server : Type := {
  srv_id : nat;
  srv_port : Z;
  srv_fetch : Handler;
}.

(** The namespace object of an imported module: [mod_default] is [None] when
    there is no default export, [Some None] when the default export has no
    [fetch]. *)
Record Module : Type := {
  mod_default : option (option Handler);
  mod_fetch : option Handler;
}.

(** [files]: the host's file system; [listening]: the application servers
    created by this process that are bound to their port, newest first;
    [currentAppServer] and [currentDeploymentHash]: the two module-level
    variables. *)
Record World : Type := {
  files : FS;
  currentAppServer : option Server;
  currentDeploymentHash : option string;
  listening : list Server;
  next_id : nat;
}.

Definition set_files (f : FS) (w : World) : World :=
  {| files := f; currentAppServer := currentAppServer w;
     currentDeploymentHash := currentDeploymentHash w;
     listening := listening w; next_id := next_id w |}.

Definition set_currentAppServer (s : option Server) (w : World) : World :=
  {| files := files w; currentAppServer := s;
     currentDeploymentHash := currentDeploymentHash w;
     listening := listening w; next_id := next_id w |}.

Definition set_currentDeploymentHash (h : option string) (w : World) : World :=
  {| files := files w; currentAppServer := currentAppServer w;
     currentDeploymentHash := h;
     listening := listening w; next_id := next_id w |}.

Definition set_listening (l : list Server) (n : nat) (w : World) : World :=
  {| files := files w; currentAppServer := currentAppServer w;
     currentDeploymentHash := currentDeploymentHash w;
     listening := l; next_id := n |}.

(** Outcomes of the operations the program does not control, for one
    invocation of a handler or of the recovery routine. *)
Record Env : Type := {
  write_temp_ok : bool;
  rm_rf_ok : bool;
  mkdir_ok : bool;
  tar_ok : bool;
  rm_temp_ok : bool;
  stop_ok : bool;
  import_result : option Module;
  serve_ok : bool;
  assigned_port : Z;
  now : string;
  write_state_ok : bool;
  read_state_ok : bool;
  duration : string;
  uptime : string;
}.

(** ** Requests and responses *)

(** [req_headers] is keyed by header name; [req_body] is [None] when reading
    the body fails. *)
Record Request : Type := {
  req_method : string;
  req_pathname : string;
  req_headers : gmap string string;
  req_body : option string;
}.

Inductive Body : Type :=
| Text (s : string)
| DeployOk (hash : string) (port : Z) (message : string) (duration : string)
| DeployFail (error : Error)
| StatusInfo (currentDeployment : option string) (uploadPort : Z)
    (deploymentsDir : Path) (uptime : string).

Record Response : Type := {
  status : Z;
  body : Body;
}.

(** [request.headers.get(name)] followed by the truthiness test [!value]:
    an absent header and an empty one are both rejected. *)
Definition headers_get (request : Request) (name : string) : option string :=
  req_headers request !! name.

Definition truthy (v : option string) : bool :=
  match v with
  | Some s => negb (bool_decide (s = ""))
  | None => false
  end.

(** ** Synchronous code: state and exceptions *)

Definition Sync (A : Type) : Type := World -> World * Result A.

Definition sret {A} (a : A) : Sync A := fun w => (w, Ok a).
Definition sthrow {A} (e : Error) : Sync A := fun w => (w, Err e).
Definition sbind {A B} (m : Sync A) (f : A -> Sync B) : Sync B :=
  fun w => match m w with
           | (w', Ok a) => f a w'
           | (w', Err e) => (w', Err e)
           end.
Definition gets {A} (f : World -> A) : Sync A := fun w => (w, Ok (f w)).
Definition modify (f : World -> World) : Sync unit := fun w => (f w, Ok tt).

(** A file-system operation that either succeeds with its effect or fails
    with none. *)
Definition fs_op (ok : bool) (e : Error) (f : FS -> option FS) : Sync unit :=
  fun w => if ok
           then match f (files w) with
                | Some f' => (set_files f' w, Ok tt)
                | None => (w, Err e)
                end
           else (w, Err e).

(** ** Asynchronous code: resumptions

    [Pending eff next] is a computation suspended at an [await]: resumed in
    world [w] it leaves the world [eff w] and becomes [next w]. *)
Inductive Susp (A : Type) : Type :=
| Settled (r : Result A)
| Pending (eff : World -> World) (next : World -> Susp A).
Arguments Settled {A} r.
Arguments Pending {A} eff next.

(** Calling an async function runs it up to its first [await]. *)
Definition Async (A : Type) : Type := World -> World * Susp A.

Definition pending {A} (k : Async A) : Susp A :=
  Pending (fun w => (k w).1) (fun w => (k w).2).

Definition ret {A} (a : A) : Async A := fun w => (w, Settled (Ok a)).
Definition throw {A} (e : Error) : Async A := fun w => (w, Settled (Err e)).

(** Synchronous code inside an async function. *)
Definition sync {A} (m : Sync A) : Async A :=
  fun w => let (w', r) := m w in (w', Settled r).

(** An operation of the runtime that returns a promise: it takes effect, in
    one piece, some time after the call. *)
Definition io {A} (m : Sync A) : Async A :=
  fun w => (w, Pending (fun w0 => (m w0).1) (fun w0 => Settled ((m w0).2))).

Fixpoint bindK {A B} (s : Susp A) (f : A -> Async B) (w : World)
  : World * Susp B :=
  match s with
  | Settled (Ok a) => f a w
  | Settled (Err e) => (w, Settled (Err e))
  | Pending eff next => (w, pending (fun w0 => bindK (next w0) f (eff w0)))
  end.

Definition abind {A B} (m : Async A) (f : A -> Async B) : Async B :=
  fun w => let (w', s) := m w in bindK s f w'.

(** [await p]: the function is suspended, and resumed in a later turn of the
    event loop once [p] is settled. *)
Fixpoint hop {A} (s : Susp A) : Susp A :=
  match s with
  | Settled r => Pending (fun w => w) (fun _ => Settled r)
  | Pending eff next => Pending eff (fun w => hop (next w))
  end.

Definition await {A} (m : Async A) : Async A :=
  fun w => let (w', s) := m w in (w', hop s).

(** [try { m } catch (error) { h error }] *)
Fixpoint catchK {A} (s : Susp A) (h : Error -> Async A) (w : World)
  : World * Susp A :=
  match s with
  | Settled (Ok a) => (w, Settled (Ok a))
  | Settled (Err e) => h e w
  | Pending eff next => (w, pending (fun w0 => catchK (next w0) h (eff w0)))
  end.

Definition try_catch {A} (m : Async A) (h : Error -> Async A) : Async A :=
  fun w => let (w', s) := m w in catchK s h w'.

Declare Scope async_scope.
Delimit Scope async_scope with async.
Notation "'let*' x ':=' m 'in' k" := (abind m (fun x => k))
  (at level 10, x name, m at level 100, k at level 200) : async_scope.

(** Running to completion, nothing else scheduled in between. *)
Fixpoint drain {A} (s : Susp A) (w : World) : World * Result A :=
  match s with
  | Settled r => (w, r)
  | Pending eff next => drain (next w) (eff w)
  end.

Definition exec {A} (m : Async A) (w : World) : World * Result A :=
  let (w', s) := m w in drain s w'.

(** ** The server *)

(** What the program takes from the runtime as pure functions: the working
    directory, [JSON.stringify] on the records the program writes,
    [JSON.parse] ([None] when it throws), and the decoder of a
    gzip-compressed tar stream into its members (paths relative to the
    extraction directory). *)
Class Runtime : Type := {
  cwd : Path;
  JSON_stringify : DeploymentState -> string;
  JSON_parse : string -> option Parsed;
  untar : string -> option (list (Path * Node));
}.

Section Server.
Context `{!Runtime}.
Local Open Scope async_scope.

Definition UPLOAD_PORT : Z := 7899.
Definition DEPLOYMENTS_DIR : Path := normalize (cwd ++ ["deployments"]).
Definition STATE_FILE : Path := join DEPLOYMENTS_DIR ".state.json".

(** *** Primitives of the runtime *)

Definition Bun_write (ok : bool) (p : Path) (data : string) : Sync unit :=
  fs_op ok (FileWriteError p) (fun f => write_file f p data).

Definition Bun_file_text (ok : bool) (p : Path) : Sync string :=
  fun w => match (if ok then read_file (files w) p else None) with
           | Some c => (w, Ok c)
           | None => (w, Err (FileReadError p))
           end.

Definition request_arrayBuffer (request : Request) : Sync string :=
  match req_body request with
  | Some bytes => sret bytes
  | None => sthrow BodyReadError
  end.

Definition sh_rm_rf (env : Env) (p : Path) : Sync unit :=
  fs_op (rm_rf_ok env) (ShellError "rm -rf") (fun f => Some (rm_rf f p)).

Definition mkdirSync (env : Env) (p : Path) : Sync unit :=
  fs_op (mkdir_ok env) (MkdirError p) (fun f => mkdir_p f p).

Definition sh_tar_xzf (env : Env) (archive dir : Path) : Sync unit :=
  fs_op (tar_ok env) (ShellError "tar -xzf")
    (fun f => match f !! dir, read_file f archive with
              | Some Dir, Some bytes =>
                  match untar bytes with
                  | Some members => Some (extract dir members f)
                  | None => None
                  end
              | _, _ => None
              end).

Definition sh_rm (env : Env) (p : Path) : Sync unit :=
  fs_op (rm_temp_ok env) (ShellError "rm") (fun f => rm_file f p).

(** [import(p)]: the module, or a rejection. *)
Definition import (env : Env) (p : Path) : Sync Module :=
  fun w => match import_result env with
           | Some app => (w, Ok app)
           | None => (w, Err ImportError)
           end.

(** [app.default.fetch || app.fetch] *)
Definition select_fetch (app : Module) : Sync (option Handler) :=
  match mod_default app with
  | None => sthrow TypeError
  | Some (Some h) => sret (Some h)
  | Some None => sret (mod_fetch app)
  end.

(** A port is taken by the upload server or by a bound application
    server. *)
Definition port_in_use (w : World) (p : Z) : bool :=
  (p =? UPLOAD_PORT) || existsb (fun s => srv_port s =? p) (listening w).

(** The port a server created with the option [port] listens on.  Nothing
    checks the option: an integer from 1 to 65535 is taken as it is; for any
    other value (0, a negative or a larger number, a value that is no
    integer) the runtime and the host choose, [assigned_port]. *)
Definition bound_port (env : Env) (p : PortValue) : Z :=
  match p with
  | IntPort n =>
      if (1 <=? n) && (n <=? 65535) then n else assigned_port env
  | OtherPort _ => assigned_port env
  end.

(** [Bun.serve({ port, fetch })]: needs a handler and a free port. *)
Definition Bun_serve (env : Env) (p : PortValue) (fetch : option Handler)
  : Sync Server :=
  fun w =>
    match fetch with
    | Some h =>
        if serve_ok env && negb (port_in_use w (bound_port env p))
        then let srv := {| srv_id := next_id w;
                           srv_port := bound_port env p;
                           srv_fetch := h |} in
             (set_listening (srv :: listening w) (S (next_id w)) w, Ok srv)
        else (w, Err (ServeError (bound_port env p)))
    | None => (w, Err (ServeError (bound_port env p)))
    end.

(** [server.stop()] *)
Definition server_stop (env : Env) (srv : Server) : Sync unit :=
  fun w =>
    if stop_ok env
    then (set_listening
            (filter (fun s => srv_id s <> srv_id srv) (listening w))
            (next_id w) w, Ok tt)
    else (w, Err StopError).

(** *** [saveDeploymentState], lines 28-41 *)
Definition saveDeploymentState (env : Env) (hash : string)
    (port : PortValue) (entrypoint : string) : Async unit :=
  let state := {| hash := hash; port := port; entrypoint := entrypoint;
                  timestamp := now env |} in
  await (io (Bun_write (write_state_ok env) STATE_FILE (JSON_stringify state))).

(** *** [loadDeploymentState], lines 44-62

    The value is returned as parsed; the log of its fields, line 53, throws
    on [null]. *)
Definition loadDeploymentState (env : Env) : Async (option Parsed) :=
  let* found := sync (gets (fun w => existsSync (files w) STATE_FILE)) in
  if negb found then ret None
  else
    try_catch
      (let* content := await (io (Bun_file_text (read_state_ok env) STATE_FILE)) in
       match JSON_parse content with
       | Some Null => throw TypeError
       | Some state => ret (Some state)
       | None => throw SyntaxError
       end)
      (fun _ => ret None).

(** *** [stopCurrentApp], lines 64-74 *)
Definition stopCurrentApp (env : Env) : Async unit :=
  let* current := sync (gets currentAppServer) in
  match current with
  | Some srv =>
      let* _ := sync (server_stop env srv) in
      sync (modify (set_currentAppServer None))
  | None => ret tt
  end.

(** *** [startApp], lines 76-110 *)
Definition startApp (env : Env) (hash : string) (port : PortValue)
    (entrypoint : string) : Async unit :=
  let deploymentPath := join DEPLOYMENTS_DIR hash in
  let entrypointPath := join deploymentPath entrypoint in
  let* found := sync (gets (fun w => existsSync (files w) entrypointPath)) in
  if negb found then throw (EntrypointNotFound entrypointPath)
  else
    let* app := await (io (import env entrypointPath)) in
    let* fetch := sync (select_fetch app) in
    let* srv := sync (Bun_serve env port fetch) in
    let* _ := sync (modify (set_currentAppServer (Some srv))) in
    let* _ := sync (modify (set_currentDeploymentHash (Some hash))) in
    await (saveDeploymentState env hash port entrypoint).

(** *** [handleUpload], lines 112-210 *)

(** Lines 139-169: the archive is written to a temporary file and unpacked
    into a fresh directory named after the version. *)
Definition materialize (env : Env) (hash : string) (request : Request)
  : Async unit :=
  let tempFile := path_of_string ("/tmp/deploy-" +:+ hash +:+ ".tar.gz") in
  let* arrayBuffer := await (io (request_arrayBuffer request)) in
  let* _ := await (io (Bun_write (write_temp_ok env) tempFile arrayBuffer)) in
  let deploymentPath := join DEPLOYMENTS_DIR hash in
  let* found := sync (gets (fun w => existsSync (files w) deploymentPath)) in
  let* _ := (if found then await (io (sh_rm_rf env deploymentPath))
             else ret tt) in
  let* _ := sync (mkdirSync env deploymentPath) in
  let* _ := await (io (sh_tar_xzf env tempFile deploymentPath)) in
  await (io (sh_rm env tempFile)).

Definition handleUpload (env : Env) (request : Request) : Async Response :=
  try_catch
    (let hash := headers_get request "X-Deploy-Hash" in
     let port := headers_get request "X-Deploy-Port" in
     let entrypoint := headers_get request "X-Deploy-Entrypoint" in
     if negb (truthy hash) || negb (truthy port) || negb (truthy entrypoint)
     then ret {| status := 400; body := Text "缺少必要的部署信息" |}
     else
       let hash := default "" hash in
       let port := default "" port in
       let entrypoint := default "" entrypoint in
       match parseInt port with
       | NaN => ret {| status := 400; body := Text "无效的端口号" |}
       | Num appPort =>
           let* _ := materialize env hash request in
           let* _ := await (stopCurrentApp env) in
           let* _ := await (startApp env hash appPort entrypoint) in
           ret {| status := 200;
                  body := DeployOk hash appPort "部署成功" (duration env) |}
       end)
    (fun error => ret {| status := 500; body := DeployFail error |}).

(** *** [uploadServer.fetch], lines 220-244 *)
Definition fetch (env : Env) (request : Request) : Async Response :=
  if bool_decide (req_pathname request = "/upload")
     && bool_decide (req_method request = "POST")
  then handleUpload env request
  else if bool_decide (req_pathname request = "/status")
          && bool_decide (req_method request = "GET")
  then
    let* current := sync (gets currentDeploymentHash) in
    ret {| status := 200;
           body := StatusInfo current UPLOAD_PORT DEPLOYMENTS_DIR (uptime env) |}
  else ret {| status := 404; body := Text "Not Found" |}.

(** *** The recovery routine run at startup, lines 257-285

    [join] throws on an argument that is no string: at line 263, outside the
    [try], when the hash is none; at line 79, in [startApp] and inside the
    [try], when the entry file is none. *)
Definition recover (env : Env) : Async unit :=
  let* lastState := await (loadDeploymentState env) in
  match lastState with
  | Some (Typed lastState) =>
      let deploymentPath := join DEPLOYMENTS_DIR (hash lastState) in
      let* found := sync (gets (fun w => existsSync (files w) deploymentPath)) in
      if found
      then try_catch
             (await (startApp env (hash lastState) (port lastState)
                       (entrypoint lastState)))
             (fun _ => ret tt)
      else ret tt
  | Some (NoEntrypoint hash) =>
      let deploymentPath := join DEPLOYMENTS_DIR hash in
      let* found := sync (gets (fun w => existsSync (files w) deploymentPath)) in
      if found
      then try_catch (await (throw TypeError)) (fun _ => ret tt)
      else ret tt
  | Some NoHash => throw TypeError
  | Some Null | Some Falsy | None => ret tt
  end.

End Server.

(** ** Runs *)

Section Runs.
Context `{!Runtime}.

(** Requests handled one after the other, each to completion. *)
Definition serve_all (reqs : list (Env * Request)) (w : World) : World :=
  foldl (fun acc er => (exec (fetch er.1 er.2) acc).1) w reqs.

(** The event loop: a request arrives and its handler runs up to its first
    [await], or one suspended handler is resumed for one turn. *)
Record Pool : Type := {
  world : World;
  tasks : list (Susp Response);
}.

Inductive Event : Type :=
| Arrive (env : Env) (request : Request)
| Resume (i : nat).

Definition step (p : Pool) (ev : Event) : Pool :=
  match ev with
  | Arrive env request =>
      let (w', s) := fetch env request (world p) in
      {| world := w'; tasks := tasks p ++ [s] |}
  | Resume i =>
      match tasks p !! i with
      | Some (Pending eff next) =>
          {| world := eff (world p);
             tasks := <[i := next (world p)]> (tasks p) |}
      | _ => p
      end
  end.

Definition run_schedule (evs : list Event) (p : Pool) : Pool :=
  foldl step p evs.

End Runs.

(** ** Predicates used in the statements *)

(** The servers bound by the process are exactly the one the handle names. *)
Definition single_instance (w : World) : Prop :=
  listening w = option_list (currentAppServer w).

(** The failures of [startApp] before the new server is bound: the entry file
    is absent, the module does not load or exposes no handler, the port
    cannot be bound. *)
Definition start_failure (e : Error) : Prop :=
  match e with
  | EntrypointNotFound _ | ImportError | TypeError | ServeError _ => True
  | _ => False
  end.

(** Neither path is the other or above it. *)
Definition unrelated (p q : Path) : Prop :=
  ~ p `prefix_of` q /\ ~ q `prefix_of` p.

(** The temporary archive of a version, line 140. *)
Definition tempFile_of (hash : string) : Path :=
  path_of_string ("/tmp/deploy-" +:+ hash +:+ ".tar.gz").

(** ** Derived notions

    The sequential reading of the handlers and the vocabulary of the
    statements. *)

(** Only the file system differs. *)
Definition same_process (w w' : World) : Prop :=
  currentAppServer w' = currentAppServer w /\
  currentDeploymentHash w' = currentDeploymentHash w /\
  listening w' = listening w /\
  next_id w' = next_id w.

(** A step that leaves the process variables alone and changes the file
    system within [Q]. *)
Definition keeps (Q : FS -> FS -> Prop) {A} (m : Sync A) : Prop :=
  forall w w' r, m w = (w', r) -> same_process w w' /\ Q (files w) (files w').

(** The world once the new server is bound and both variables are set. *)
Definition started (srv : Server) (h : string) (w : World) : World :=
  set_currentDeploymentHash (Some h)
    (set_currentAppServer (Some srv)
       (set_listening (srv :: listening w) (S (next_id w)) w)).

(** A suspended computation that cannot end in a rejection, whatever the
    worlds it is resumed in. *)
Fixpoint never_rejects {A} (s : Susp A) : Prop :=
  match s with
  | Settled (Ok _) => True
  | Settled (Err _) => False
  | Pending _ next => forall w, never_rejects (next w)
  end.

Definition never_throws {A} (m : Async A) : Prop :=
  forall w, never_rejects (m w).2.

(** A version identifier that is one ordinary path component. *)
Fixpoint no_slash (s : string) : bool :=
  match s with
  | EmptyString => true
  | String c s' => negb (bool_decide (c = "/"%char)) && no_slash s'
  end.

Definition regular (seg : string) : Prop :=
  seg <> "" /\ seg <> "." /\ seg <> "..".

Definition plain_name (s : string) : Prop :=
  regular s /\ no_slash s = true.

(** The three headers are present and non-empty and the port parses. *)
Definition valid_headers (request : Request) (h p e : string) (n : Z) : Prop :=
  headers_get request "X-Deploy-Hash" = Some h /\ h <> "" /\
  headers_get request "X-Deploy-Port" = Some p /\ p <> "" /\
  headers_get request "X-Deploy-Entrypoint" = Some e /\ e <> "" /\
  parseInt p = Num n.

(** A header is absent or empty, or the port does not parse. *)
Definition rejected_headers (request : Request) : Prop :=
  truthy (headers_get request "X-Deploy-Hash") = false \/
  truthy (headers_get request "X-Deploy-Port") = false \/
  truthy (headers_get request "X-Deploy-Entrypoint") = false \/
  (exists p, headers_get request "X-Deploy-Port" = Some p /\ parseInt p = NaN).

Definition deployed (env : Env) (h : string) (n : Z) : Response :=
  {| status := 200; body := DeployOk h n "部署成功" (duration env) |}.

Definition failed (er : Error) : Response :=
  {| status := 500; body := DeployFail er |}.

Section Reading.
Context `{!Runtime}.

(** What [loadDeploymentState] returns. *)
Definition stored_record (env : Env) (w : World) : option Parsed :=
  if read_state_ok env
  then match read_file (files w) STATE_FILE with
       | Some content =>
           match JSON_parse content with
           | Some Null => None
           | parsed => parsed
           end
       | None => None
       end
  else None.

Definition descriptor (env : Env) (h : string) (p : PortValue) (e : string)
  : DeploymentState :=
  {| hash := h; port := p; entrypoint := e; timestamp := now env |}.

Definition persist (env : Env) (h : string) (p : PortValue) (e : string)
  : Sync unit :=
  Bun_write (write_state_ok env) STATE_FILE
    (JSON_stringify (descriptor env h p e)).

Definition startApp_sync (env : Env) (h : string) (p : PortValue) (e : string)
  : Sync unit :=
  let entrypointPath := join (join DEPLOYMENTS_DIR h) e in
  sbind (gets (fun w => existsSync (files w) entrypointPath)) (fun found =>
  if negb found then sthrow (EntrypointNotFound entrypointPath)
  else
    sbind (import env entrypointPath) (fun app =>
    sbind (select_fetch app) (fun fetch =>
    sbind (Bun_serve env p fetch) (fun srv =>
    sbind (modify (set_currentAppServer (Some srv))) (fun _ =>
    sbind (modify (set_currentDeploymentHash (Some h))) (fun _ =>
    persist env h p e)))))).

Definition materialize_sync (env : Env) (h : string) (request : Request)
  : Sync unit :=
  let tempFile := tempFile_of h in
  let deploymentPath := join DEPLOYMENTS_DIR h in
  sbind (request_arrayBuffer request) (fun arrayBuffer =>
  sbind (Bun_write (write_temp_ok env) tempFile arrayBuffer) (fun _ =>
  sbind (gets (fun w => existsSync (files w) deploymentPath)) (fun found =>
  sbind (if found then sh_rm_rf env deploymentPath else sret tt) (fun _ =>
  sbind (mkdirSync env deploymentPath) (fun _ =>
  sbind (sh_tar_xzf env tempFile deploymentPath) (fun _ =>
  sh_rm env tempFile)))))).

(** Lines 139-175 as one step. *)
Definition deploy (env : Env) (h : string) (n : Z) (e : string)
    (request : Request) : Sync unit :=
  sbind (exec (materialize env h request)) (fun _ =>
  sbind (exec (stopCurrentApp env)) (fun _ =>
  exec (startApp env h n e))).

End Reading.

(** ** The start and the end of the process *)

(** A new process over the disk another one left: both variables are unset
    and nothing is bound. *)
Definition restart (w : World) : World :=
  {| files := files w; currentAppServer := None;
     currentDeploymentHash := None; listening := []; next_id := 0 |}.

(** While a server is current its version is known. *)
Definition versioned (w : World) : Prop :=
  is_Some (currentAppServer w) -> is_Some (currentDeploymentHash w).

(** The process as the signal handlers see it: [upload_bound] tells whether
    [uploadServer] is listening, [exit_code] is set by [process.exit]. *)
Record Process : Type := {
  proc : World;
  upload_bound : bool;
  exit_code : option Z;
}.

Section Startup.
Context `{!Runtime}.

(** Lines 19-22, run when the module is loaded. *)
Definition ensureDeploymentsDir (env : Env) : Sync unit :=
  sbind (gets (fun w => existsSync (files w) DEPLOYMENTS_DIR)) (fun found =>
  if negb found then mkdirSync env DEPLOYMENTS_DIR else sret tt).

(** The handler of [SIGINT] and of [SIGTERM], lines 288-306, read
    sequentially.  The handler is an [async] function without a [try]: a
    rejection of [stopCurrentApp] is handled by nobody, and the runtime ends
    the process with exit code 1, the upload server still bound. *)
Definition on_signal (env : Env) (p : Process) : Process :=
  match exec (stopCurrentApp env) (proc p) with
  | (w', Ok _) => {| proc := w'; upload_bound := false; exit_code := Some 0 |}
  | (w', Err _) =>
      {| proc := w'; upload_bound := upload_bound p; exit_code := Some 1 |}
  end.

End Startup.

(** ** Numbers as text *)

(** [Number.prototype.toString] on a safe integer (of magnitude below
    [2^53], where every integer is a Number and is printed exactly): the
    decimal digits, after [-] for a negative number. *)
Definition digit_char (d : Z) : ascii := ascii_of_nat (Z.to_nat (48 + d)).

Fixpoint decimal_digits (fuel : nat) (n : Z) (acc : string) : string :=
  match fuel with
  | O => acc
  | S fuel' =>
      let acc' := String (digit_char (n mod 10)) acc in
      if n / 10 =? 0 then acc' else decimal_digits fuel' (n / 10) acc'
  end.

Definition Number_toString (n : Z) : string :=
  if n <? 0
  then String "-" (decimal_digits (S (Z.to_nat (Z.log2 (- n)))) (- n) "")
  else decimal_digits (S (Z.to_nat (Z.log2 n))) n "".

(** The value of the longest prefix of decimal digits of [s], read after the
    digits of [v]. *)
Fixpoint digits_value (s : string) (v : Z) : Z :=
  match s with
  | String c s' =>
      match radix_digit 10 c with
      | Some d => digits_value s' (10 * v + d)
      | None => v
      end
  | EmptyString => v
  end.

Definition is_decimal (c : ascii) : bool :=
  match radix_digit 10 c with Some _ => true | None => false end.

Fixpoint all_decimal (s : string) : bool :=
  match s with
  | String c s' => is_decimal c && all_decimal s'
  | EmptyString => true
  end.

(** ** The client, [src/cli.ts]

    The client runs on another host: it has its own file system, [local],
    and reaches the server, [remote], through one HTTP request, which the
    server handles to completion. *)

(** [interface DeployConfig]; a parsed [deploy.json] has this type, and
    [deploy_port] is an integer. *)
Record DeployConfig : Type := {
  config_name : string;
  config_build : string;
  deploy_dist : string;
  deploy_entrypoint : string;
  deploy_port : Z;
  deploy_server : option string;
}.

(** What the client takes from its runtime as pure functions: the parser of
    [deploy.json], the hexadecimal SHA-256 digest, the encoder behind
    [tar -czf] applied to the tree below the source directory, and the path
    component of a URL as the server reads it. *)
Class ClientRuntime : Type := {
  parse_config : string -> option DeployConfig;
  sha256_hex : string -> string;
  tar_czf : FS -> string;
  url_pathname : string -> string;
}.

(** How a spawned command ends: the [close] event with its exit code ([None]
    when a signal ended it), or the [error] event. *)
Inductive ProcOutcome : Type :=
| Closed (code : option Z)
| SpawnFailed.

(** Outcomes of what the client does not control, for one run.
    [shell_effect] is what the command line of [tar] does when the shell does
    not pass the paths on as they are. *)
Record CliEnv : Type := {
  cli_cwd : Path;
  read_config_ok : bool;
  build_outcome : ProcOutcome;
  build_effect : FS -> FS;
  tar_outcome : ProcOutcome;
  shell_effect : FS -> FS;
  stat_ok : bool;
  read_archive_ok : bool;
  date_now : Z;
  iso_now : string;
  DEPLOY_SERVER_URL : option string;
  reachable : bool;
  server_env : Env;
  unlink_ok : bool;
}.

Inductive CliError : Type :=
| ConfigNotFound
| ReadFailed (p : Path)
| ConfigSyntax
| CommandFailed (code : option Z)
| SpawnError
| DistNotFound (p : Path)
| StatFailed (p : Path)
| HeaderError
| NetworkError
| UploadFailed (status : Z) (errorText : Body)
| ResponseNotJson
| UnlinkFailed (p : Path).

Inductive CliResult (A : Type) : Type :=
| COk (a : A)
| CErr (e : CliError).
Arguments COk {A} a.
Arguments CErr {A} e.

Record Client : Type := {
  local : FS;
  remote : World;
}.

Definition Cli (A : Type) : Type := Client -> Client * CliResult A.

Definition cbind {A B} (m : Cli A) (f : A -> Cli B) : Cli B :=
  fun c => match m c with
           | (c', COk a) => f a c'
           | (c', CErr e) => (c', CErr e)
           end.

(** [path.resolve(base, s)] for an absolute [base]. *)
Definition resolve (base : Path) (s : string) : Path :=
  match s with
  | String "/" _ => path_of_string s
  | _ => join base s
  end.

(** The tree below [dp], with paths relative to it. *)
Fixpoint strip_prefix (dp p : Path) : option Path :=
  match dp, p with
  | [], _ => Some p
  | x :: dp', y :: p' => if decide (x = y) then strip_prefix dp' p' else None
  | _ :: _, [] => None
  end.

Definition subtree (dp : Path) (f : FS) : FS :=
  list_to_map
    (omap (fun kv => (fun rel => (rel, kv.2)) <$> strip_prefix dp kv.1)
       (map_to_list f)).

Fixpoint string_map (g : ascii -> ascii) (s : string) : string :=
  match s with
  | EmptyString => EmptyString
  | String c s' => String (g c) (string_map g s')
  end.

(** [value || fallback] on strings: an absent and an empty value are falsy. *)
Definition or_else (value : option string) (fallback : string) : string :=
  match value with
  | Some s => if bool_decide (s = "") then fallback else s
  | None => fallback
  end.

(** [response.ok] *)
Definition response_ok (r : Response) : bool :=
  (200 <=? status r) && (status r <=? 299).

(** [response.json()] succeeds on the JSON bodies of the server. *)
Definition is_json (b : Body) : bool :=
  match b with Text _ => false | _ => true end.

(** A word the shell passes on as it is: letters, digits, [_], [-] and
    [.]. *)
Definition shell_plain_char (c : ascii) : bool :=
  let n := nat_of_ascii c in
  ((48 <=? n) && (n <=? 57) || (65 <=? n) && (n <=? 90)
   || (97 <=? n) && (n <=? 122) || (n =? 95) || (n =? 45) || (n =? 46))%nat.

Fixpoint shell_plain (s : string) : bool :=
  match s with
  | EmptyString => true
  | String c s' => shell_plain_char c && shell_plain s'
  end.

Definition shell_plain_path (p : Path) : bool := forallb shell_plain p.

(** A header value as [fetch] sends it: leading and trailing HTTP white
    space (tab, line feed, carriage return, space) is removed, and a value
    with a NUL, a line feed or a carriage return left is refused.  (A
    character of a [string] is a byte, so the conversion to a byte string
    cannot fail.) *)
Definition http_whitespace (c : ascii) : bool :=
  let n := nat_of_ascii c in
  ((n =? 9) || (n =? 10) || (n =? 13) || (n =? 32))%nat.

Definition header_forbidden (c : ascii) : bool :=
  let n := nat_of_ascii c in ((n =? 0) || (n =? 10) || (n =? 13))%nat.

Fixpoint trim_left (s : string) : string :=
  match s with
  | EmptyString => EmptyString
  | String c s' => if http_whitespace c then trim_left s' else s
  end.

Fixpoint trim_right (s : string) : string :=
  match s with
  | EmptyString => EmptyString
  | String c s' =>
      match trim_right s' with
      | EmptyString =>
          if http_whitespace c then EmptyString else String c EmptyString
      | t => String c t
      end
  end.

Fixpoint has_forbidden (s : string) : bool :=
  match s with
  | EmptyString => false
  | String c s' => header_forbidden c || has_forbidden s'
  end.

Definition header_value (v : string) : option string :=
  let v' := trim_right (trim_left v) in
  if has_forbidden v' then None else Some v'.

(** [c] occurs in [s]. *)
Fixpoint occurs (c : ascii) (s : string) : bool :=
  match s with
  | EmptyString => false
  | String c' s' => bool_decide (c' = c) || occurs c s'
  end.

(** A file has nothing below it. *)
Definition tree_shaped (t : FS) : Prop :=
  map_Forall
    (fun p n => n = Dir \/ map_Forall (fun q _ => p `prefix_of` q -> q = p) t) t.

#[global] Instance tree_shaped_dec (t : FS) : Decision (tree_shaped t).
Proof. unfold tree_shaped. apply _. Defined.

Section Client.
Context `{!Runtime, !ClientRuntime}.

(** [execCommand], lines 8-27: resolves on exit code 0 only.  [effect] is
    what the command does to the file system when it succeeds. *)
Definition execCommand (outcome : ProcOutcome) (effect : FS -> FS) : Cli unit :=
  fun c =>
    match outcome with
    | Closed code =>
        if bool_decide (code = Some 0)
        then ({| local := effect (local c); remote := remote c |}, COk tt)
        else (c, CErr (CommandFailed code))
    | SpawnFailed => (c, CErr SpawnError)
    end.

(** [readDeployConfig], lines 40-53 *)
Definition readDeployConfig (cenv : CliEnv) : Cli DeployConfig :=
  fun c =>
    let configPath := join (cli_cwd cenv) "deploy.json" in
    if negb (existsSync (local c) configPath) then (c, CErr ConfigNotFound)
    else
      match (if read_config_ok cenv then read_file (local c) configPath
             else None) with
      | None => (c, CErr (ReadFailed configPath))
      | Some file =>
          match parse_config file with
          | Some config => (c, COk config)
          | None => (c, CErr ConfigSyntax)
          end
      end.

(** [executeBuild], lines 55-65 *)
Definition executeBuild (cenv : CliEnv) (buildCommand : string) : Cli unit :=
  execCommand (build_outcome cenv) (build_effect cenv).

(** What [tar -czf outputFile -C sourceDir .] does when it ends with code 0.
    [execCommand] spawns with [shell: true], lines 10-13: the shell receives
    the command and its arguments joined by spaces, unquoted.  When both
    paths are plain words [tar] is given them and writes the archive of the
    directory; otherwise the shell splits or expands them, and what the
    command line does is [shell_effect]. *)
Definition tar_effect (cenv : CliEnv) (sourceDir outputFile : Path) (f : FS)
  : FS :=
  if shell_plain_path sourceDir && shell_plain_path outputFile
  then <[outputFile := File (tar_czf (subtree sourceDir f))]> f
  else shell_effect cenv f.

(** [createTarGz], lines 67-84 *)
Definition createTarGz (cenv : CliEnv) (sourceDir outputFile : Path) : Cli unit :=
  cbind
    (execCommand (tar_outcome cenv) (tar_effect cenv sourceDir outputFile))
    (fun _ c =>
       if stat_ok cenv && existsSync (local c) outputFile then (c, COk tt)
       else (c, CErr (StatFailed outputFile))).

(** [generateHash], lines 86-96 *)
Definition generateHash (cenv : CliEnv) (content : string) : string :=
  let timestamp :=
    substring 0 19
      (string_map (fun c => if bool_decide (c = ":" \/ c = ".")%char
                            then "-"%char else c)
         (iso_now cenv)) in
  let hash := substring 0 12 (sha256_hex content) in
  timestamp +:+ "_" +:+ hash.

(** The request of lines 118-127 as the server receives it, with the header
    values as [fetch] sends them; [None] when [fetch] refuses one of them. *)
Definition upload_request (serverUrl hash : string) (config : DeployConfig)
    (fileBuffer : string) : option Request :=
  match header_value hash,
        header_value (Number_toString (deploy_port config)),
        header_value (deploy_entrypoint config) with
  | Some hash, Some port, Some entrypoint =>
      Some {| req_method := "POST";
              req_pathname := url_pathname (serverUrl +:+ "/upload");
              req_headers :=
                {[ "Content-Type" := "application/gzip";
                   "X-Deploy-Hash" := hash;
                   "X-Deploy-Port" := port;
                   "X-Deploy-Entrypoint" := entrypoint ]};
              req_body := Some fileBuffer |}
  | _, _, _ => None
  end.

(** The global [fetch]: the server handles the request, or the connection
    fails. *)
Definition http_fetch (cenv : CliEnv) (request : Request) : Cli Response :=
  fun c =>
    if reachable cenv
    then match exec (fetch (server_env cenv) request) (remote c) with
         | (w', Ok response) =>
             ({| local := local c; remote := w' |}, COk response)
         | (w', Err _) =>
             ({| local := local c; remote := w' |}, CErr NetworkError)
         end
    else (c, CErr NetworkError).

(** [uploadToServer], lines 98-138 *)
Definition uploadToServer (cenv : CliEnv) (filePath : Path) (serverUrl : string)
    (config : DeployConfig) : Cli unit :=
  fun c =>
    match (if read_archive_ok cenv then read_file (local c) filePath
           else None) with
    | None => (c, CErr (ReadFailed filePath))
    | Some fileBuffer =>
        let hash := generateHash cenv fileBuffer in
        match upload_request serverUrl hash config fileBuffer with
        | None => (c, CErr HeaderError)
        | Some request =>
            cbind (http_fetch cenv request)
              (fun response c' =>
                 if negb (response_ok response)
                 then (c', CErr (UploadFailed (status response)
                                   (body response)))
                 else if is_json (body response) then (c', COk tt)
                 else (c', CErr ResponseNotJson)) c
        end
    end.

(** [unlinkSync] *)
Definition unlinkSync (cenv : CliEnv) (p : Path) : Cli unit :=
  fun c =>
    match (if unlink_ok cenv then rm_file (local c) p else None) with
    | Some f => ({| local := f; remote := remote c |}, COk tt)
    | None => (c, CErr (UnlinkFailed p))
    end.

Definition tarFile_of (cenv : CliEnv) : Path :=
  path_of_string ("/tmp/deploy-" +:+ Number_toString (date_now cenv) +:+ ".tar.gz").

Definition serverUrl_of (cenv : CliEnv) (config : DeployConfig) : string :=
  or_else (deploy_server config)
    (or_else (DEPLOY_SERVER_URL cenv) "http://localhost:7899").

(** The body of the [try] block of [main], lines 147-173 *)
Definition deploy_steps (cenv : CliEnv) : Cli unit :=
  cbind (readDeployConfig cenv) (fun config =>
  cbind (executeBuild cenv (config_build config)) (fun _ =>
  let distPath := resolve (cli_cwd cenv) (deploy_dist config) in
  cbind (fun c => (c, COk (existsSync (local c) distPath))) (fun found =>
  if negb found then (fun c => (c, CErr (DistNotFound distPath)))
  else
    let tarFile := tarFile_of cenv in
    cbind (createTarGz cenv distPath tarFile) (fun _ =>
    let serverUrl := serverUrl_of cenv config in
    cbind (uploadToServer cenv tarFile serverUrl config) (fun _ =>
    unlinkSync cenv tarFile))))).

(** The client's files once [tar] has ended with code 0. *)
Definition after_tar (cenv : CliEnv) (config : DeployConfig) (c : Client)
  : FS :=
  tar_effect cenv (resolve (cli_cwd cenv) (deploy_dist config))
    (tarFile_of cenv) (build_effect cenv (local c)).

(** The archive of the build output and the version identifier generated for
    it. *)
Definition archive_of (cenv : CliEnv) (config : DeployConfig) (c : Client)
  : string :=
  tar_czf (subtree (resolve (cli_cwd cenv) (deploy_dist config))
             (build_effect cenv (local c))).

Definition dist_tree (cenv : CliEnv) (config : DeployConfig) (c : Client)
  : FS :=
  subtree (resolve (cli_cwd cenv) (deploy_dist config))
    (build_effect cenv (local c)).

Definition version_of (cenv : CliEnv) (config : DeployConfig) (c : Client)
  : string :=
  generateHash cenv (archive_of cenv config c).

(** [main], lines 140-183: the exit code of the process. *)
Definition main (cenv : CliEnv) (c : Client) : Client * Z :=
  match deploy_steps cenv c with
  | (c', COk _) => (c', 0)
  | (c', CErr _) => (c', 1)
  end.

End Client.

(** ** Sample data, to run the model *)

Module Sample.

(** A stand-in codec: the four fields separated by [|]. *)
Definition digit_string (d : Z) : string :=
  String (ascii_of_nat (Z.to_nat (48 + d))) EmptyString.

Fixpoint decimal_fuel (fuel : nat) (n : Z) (acc : string) : string :=
  match fuel with
  | O => acc
  | S fuel' =>
      let acc' := digit_string (n mod 10) +:+ acc in
      if n / 10 =? 0 then acc' else decimal_fuel fuel' (n / 10) acc'
  end.

Definition decimal (n : Z) : string :=
  if n <? 0 then "-" +:+ decimal_fuel 64 (- n) "" else decimal_fuel 64 n "".

Definition port_text (p : PortValue) : string :=
  match p with
  | IntPort n => decimal n
  | OtherPort json => json
  end.

Definition stringify (st : DeploymentState) : string :=
  hash st +:+ "|" +:+ port_text (port st) +:+ "|" +:+ entrypoint st
    +:+ "|" +:+ timestamp st.

(** [{}] stands for an object without fields and [null] for itself; a port
    that is no number is kept as its text. *)
Definition parse (s : string) : option Parsed :=
  match split_on "|" s with
  | [h; p; e; t] =>
      let p := match parseInt p with
               | Num n => IntPort n
               | NaN => OtherPort p
               end in
      Some (Typed {| hash := h; port := p; entrypoint := e; timestamp := t |})
  | ["{}"] => Some NoHash
  | ["null"] => Some Null
  | _ => None
  end.

(** A stand-in archive format: members [name=content] separated by [;]. *)
Definition member (s : string) : option (Path * Node) :=
  match split_on "=" s with
  | [name; content] => Some (path_of_string name, File content)
  | _ => None
  end.

Definition unpack (bytes : string) : option (list (Path * Node)) :=
  mapM member (split_on ";" bytes).

#[local] Instance runtime : Runtime := {|
  cwd := ["app"];
  JSON_stringify := stringify;
  JSON_parse := parse;
  untar := unpack;
|}.

(** Everything the host does works, except stopping a server when [stop] is
    [false] and writing the state file when [write_state] is [false]. *)
Definition env_with (stop write_state : bool) : Env := {|
  write_temp_ok := true; rm_rf_ok := true; mkdir_ok := true; tar_ok := true;
  rm_temp_ok := true; stop_ok := stop;
  import_result := Some {| mod_default := Some (Some 1%nat); mod_fetch := None |};
  serve_ok := true; assigned_port := 65535;
  now := "2025-01-01T00:00:00.000Z";
  write_state_ok := write_state; read_state_ok := true;
  duration := "0.10"; uptime := "1";
|}.

Definition all_ok : Env := env_with true true.

Definition upload (h p e : string) (archive : string) : Request := {|
  req_method := "POST"; req_pathname := "/upload";
  req_headers := {[ "X-Deploy-Hash" := h; "X-Deploy-Port" := p;
                    "X-Deploy-Entrypoint" := e ]};
  req_body := Some archive;
|}.


(** A freshly started process over a disk that holds the deployments
    directory and [/tmp]. *)
Definition fresh : World := {|
  files := {[ ["app"] := Dir; ["app"; "deployments"] := Dir; ["tmp"] := Dir ]};
  currentAppServer := None;
  currentDeploymentHash := None;
  listening := [];
  next_id := 0;
|}.

Definition after {A} (m : Async A) (w : World) : World := (exec m w).1.

Definition req_v1 : Request := upload "v1" "3000" "index.js" "index.js=code".
Definition req_v2 : Request := upload "v2" "3001" "index.js" "index.js=code".


(** An archive without the entry file it names. *)
Definition req_no_entry : Request := upload "v2" "3001" "index.js" "readme=hi".

(** A version identifier that is the name of the state file. *)
Definition req_state_name : Request :=
  upload ".state.json" "3000" "index.js" "readme=hi".



Definition req_no_port : Request := {|
  req_method := "POST"; req_pathname := "/upload";
  req_headers := {[ "X-Deploy-Hash" := "v1";
                    "X-Deploy-Entrypoint" := "index.js" ]};
  req_body := Some "index.js=code";
|}.

(** The process after a first successful deploy of [v1]. *)
Definition running_v1 : World := after (handleUpload all_ok req_v1) fresh.

(** A new process over the disk [running_v1] left behind. *)
Definition restarted : World := {|
  files := files running_v1;
  currentAppServer := None;
  currentDeploymentHash := None;
  listening := [];
  next_id := 0;
|}.


(** Two uploads whose handlers are both past [stopCurrentApp] and waiting
    for their [import] before either binds its server. *)
Definition race : list Event :=
  Arrive all_ok req_v1 :: repeat (Resume 0%nat) 9
  ++ Arrive all_ok req_v2 :: repeat (Resume 1%nat) 9
  ++ repeat (Resume 0%nat) 6 ++ repeat (Resume 1%nat) 6.

Definition response_status (s : Susp Response) : option Z :=
  match s with
  | Settled (Ok r) => Some (status r)
  | _ => None
  end.

End Sample.

(** ** Sample data for the client and for the start and the end of a process *)

Module Scenario.
Import Sample.

(** A stand-in archive format with directories, written as [tar] names its
    members: [./path=content] for a file, [./path/] for a directory,
    separated by [;]. *)
Definition path_string (p : Path) : string := "./" +:+ String.concat "/" p.

Definition pack_member (kv : Path * Node) : string :=
  match kv.2 with
  | File content => path_string kv.1 +:+ "=" +:+ content
  | Dir => path_string kv.1 +:+ "/"
  end.

Definition pack (t : FS) : string :=
  String.concat ";" (pack_member <$> map_to_list t).

Definition member (s : string) : option (Path * Node) :=
  match split_on "=" s with
  | [name; content] => Some (path_of_string name, File content)
  | [name] => Some (path_of_string name, Dir)
  | _ => None
  end.

Definition unpack (bytes : string) : option (list (Path * Node)) :=
  mapM member (split_on ";" bytes).

#[local] Instance server_runtime : Runtime := {|
  cwd := ["app"];
  JSON_stringify := stringify;
  JSON_parse := parse;
  untar := unpack;
|}.

(** A stand-in for [deploy.json]: the six fields separated by [|]. *)
Definition config_of (s : string) : option DeployConfig :=
  match split_on "|" s with
  | [n; b; d; e; p; srv] =>
      match parseInt p with
      | Num k =>
          Some {| config_name := n; config_build := b; deploy_dist := d;
                  deploy_entrypoint := e; deploy_port := k;
                  deploy_server := if bool_decide (srv = "") then None
                                   else Some srv |}
      | NaN => None
      end
  | _ => None
  end.

(** A stand-in digest: sixteen hexadecimal digits, then the length. *)
Definition digest (s : string) : string :=
  "2c26b46b68ffc68f" +:+ Number_toString (Z.of_nat (String.length s)).

(** The path of [scheme://host/path]. *)
Definition pathname_of (url : string) : string :=
  match split_on "/" url with
  | _ :: _ :: _ :: rest => "/" +:+ String.concat "/" rest
  | _ => "/"
  end.

#[local] Instance client_runtime : ClientRuntime := {|
  parse_config := config_of;
  sha256_hex := digest;
  tar_czf := pack;
  url_pathname := pathname_of;
|}.

(** The build writes [dist/index.js]. *)
Definition builds_dist (f : FS) : FS :=
  <[ ["proj"; "dist"; "index.js"] := File "code" ]>
    (<[ ["proj"; "dist"] := Dir ]> f).

Definition cenv_with (build : ProcOutcome) (effect : FS -> FS) (up : bool)
  : CliEnv := {|
  cli_cwd := ["proj"]; read_config_ok := true;
  build_outcome := build; build_effect := effect;
  tar_outcome := Closed (Some 0); shell_effect := id; stat_ok := true;
  read_archive_ok := true;
  date_now := 1735689600000; iso_now := "2025-01-01T00:00:00.000Z";
  DEPLOY_SERVER_URL := None; reachable := up; server_env := all_ok;
  unlink_ok := true;
|}.

Definition cenv_ok : CliEnv := cenv_with (Closed (Some 0)) builds_dist true.

(** A project with its [deploy.json], in front of a freshly started server. *)
Definition project (server : string) : Client := {|
  local := {[ ["proj"] := Dir; ["tmp"] := Dir;
              ["proj"; "deploy.json"] :=
                File ("demo|bun build|dist|index.js|3000|" +:+ server) ]};
  remote := fresh;
|}.

Definition laptop : Client := project "http://deploy.example".

Definition demo (server : option string) : DeployConfig := {|
  config_name := "demo"; config_build := "bun build"; deploy_dist := "dist";
  deploy_entrypoint := "index.js"; deploy_port := 3000;
  deploy_server := server;
|}.

(** On the server side: [tar -xzf] fails; a port that is no number; a route
    nobody serves; a disk without the deployments directory; the process
    while [v1] runs. *)
Definition tar_fails : Env := {|
  write_temp_ok := true; rm_rf_ok := true; mkdir_ok := true; tar_ok := false;
  rm_temp_ok := true; stop_ok := true;
  import_result := Some {| mod_default := Some (Some 1%nat); mod_fetch := None |};
  serve_ok := true; assigned_port := 65535;
  now := "2025-01-01T00:00:00.000Z";
  write_state_ok := true; read_state_ok := true;
  duration := "0.10"; uptime := "1";
|}.

Definition req_bad_port : Request :=
  upload "v1" "http" "index.js" "index.js=code".

Definition req_delete : Request := {|
  req_method := "DELETE"; req_pathname := "/upload";
  req_headers := ∅; req_body := None;
|}.

Definition bare : World := {|
  files := {[ ["app"] := Dir ]};
  currentAppServer := None;
  currentDeploymentHash := None;
  listening := [];
  next_id := 0;
|}.

(** A directory beside the deployments directory, and an upload whose
    version identifier names it. *)
Definition with_data : World := {|
  files := {[ ["app"] := Dir; ["app"; "deployments"] := Dir; ["tmp"] := Dir;
              ["app"; "data"] := Dir; ["app"; "data"; "db"] := File "rows" ]};
  currentAppServer := None;
  currentDeploymentHash := None;
  listening := [];
  next_id := 0;
|}.

Definition req_escape : Request :=
  upload "../data" "3000" "index.js" "index.js=code".

Definition serving_v1 : Process :=
  {| proc := running_v1; upload_bound := true; exit_code := None |}.

End Scenario.

(** * Proofs *)

(** ** Running resumptions to completion

    [exec] turns the async combinators into their synchronous counterparts:
    read through [exec], an async function is the same code with its
    [await]s erased. *)

Section ExecLaws.
Context {A B : Type}.

Lemma exec_ret (a : A) w : exec (ret a) w = (w, Ok a).
Proof. reflexivity. Qed.

Lemma exec_throw (e : Error) w : exec (@throw A e) w = (w, Err e).
Proof. reflexivity. Qed.

Lemma exec_sync (m : Sync A) w : exec (sync m) w = m w.
Proof. unfold exec, sync. destruct (m w); reflexivity. Qed.

Lemma exec_io (m : Sync A) w : exec (io m) w = m w.
Proof. unfold exec, io; simpl. destruct (m w); reflexivity. Qed.

Lemma drain_hop (s : Susp A) w : drain (hop s) w = drain s w.
Proof.
  revert w; induction s as [r | eff next IH]; intros w; simpl; [reflexivity|].
  apply IH.
Qed.

Lemma exec_await (m : Async A) w : exec (await m) w = exec m w.
Proof. unfold exec, await. destruct (m w) as [w' s]. apply drain_hop. Qed.

Lemma drain_bindK (s : Susp A) (f : A -> Async B) w :
  (let (w1, s1) := bindK s f w in drain s1 w1) =
  match drain s w with
  | (w', Ok a) => exec (f a) w'
  | (w', Err e) => (w', Err e)
  end.
Proof.
  revert w; induction s as [[a | e] | eff next IH]; intros w; simpl.
  - reflexivity.
  - reflexivity.
  - specialize (IH w (eff w)).
    destruct (bindK (next w) f (eff w)) as [w1 s1]; simpl. exact IH.
Qed.

Lemma exec_abind (m : Async A) (f : A -> Async B) w :
  exec (abind m f) w =
  match exec m w with
  | (w', Ok a) => exec (f a) w'
  | (w', Err e) => (w', Err e)
  end.
Proof.
  unfold exec at 1 2, abind. destruct (m w) as [w' s]. apply drain_bindK.
Qed.

Lemma drain_catchK (s : Susp A) (h : Error -> Async A) w :
  (let (w1, s1) := catchK s h w in drain s1 w1) =
  match drain s w with
  | (w', Ok a) => (w', Ok a)
  | (w', Err e) => exec (h e) w'
  end.
Proof.
  revert w; induction s as [[a | e] | eff next IH]; intros w; simpl.
  - reflexivity.
  - reflexivity.
  - specialize (IH w (eff w)).
    destruct (catchK (next w) h (eff w)) as [w1 s1]; simpl. exact IH.
Qed.

Lemma exec_try_catch (m : Async A) (h : Error -> Async A) w :
  exec (try_catch m h) w =
  match exec m w with
  | (w', Ok a) => (w', Ok a)
  | (w', Err e) => exec (h e) w'
  end.
Proof.
  unfold exec at 1 2, try_catch. destruct (m w) as [w' s]. apply drain_catchK.
Qed.

End ExecLaws.

(** ** Handlers that cannot reject

    These hold at every await point and in every world, hence under any
    interleaving with other handlers. *)

Section NeverThrows.
Context {A B : Type}.

Lemma never_throws_ret (a : A) : never_throws (ret a).
Proof. by intros w. Qed.

Lemma never_rejects_hop (s : Susp A) : never_rejects s -> never_rejects (hop s).
Proof.
  induction s as [[a|e] | eff next IH]; cbn; [done | done |].
  intros Hs w. apply IH, Hs.
Qed.

Lemma never_throws_await (m : Async A) : never_throws m -> never_throws (await m).
Proof.
  intros Hm w. specialize (Hm w). unfold await.
  destruct (m w) as [w' s]. by apply never_rejects_hop.
Qed.

Lemma never_rejects_bindK (s : Susp A) (f : A -> Async B) w :
  never_rejects s -> (forall a, never_throws (f a)) ->
  never_rejects (bindK s f w).2.
Proof.
  intros Hs Hf. revert w Hs.
  induction s as [[a|e] | eff next IH]; intros w Hs; cbn.
  - apply Hf.
  - done.
  - intros w0. apply IH, Hs.
Qed.

Lemma never_throws_abind (m : Async A) (f : A -> Async B) :
  never_throws m -> (forall a, never_throws (f a)) -> never_throws (abind m f).
Proof.
  intros Hm Hf w. specialize (Hm w). unfold abind.
  destruct (m w) as [w' s]. by apply never_rejects_bindK.
Qed.

Lemma never_rejects_catchK (s : Susp A) (h : Error -> Async A) w :
  (forall e, never_throws (h e)) -> never_rejects (catchK s h w).2.
Proof.
  intros Hh. revert w.
  induction s as [[a|e] | eff next IH]; intros w; cbn.
  - done.
  - apply Hh.
  - intros w0. apply IH.
Qed.

Lemma never_throws_try_catch (m : Async A) (h : Error -> Async A) :
  (forall e, never_throws (h e)) -> never_throws (try_catch m h).
Proof.
  intros Hh w. unfold try_catch.
  destruct (m w) as [w' s]. by apply never_rejects_catchK.
Qed.

Lemma never_throws_gets (g : World -> A) : never_throws (sync (gets g)).
Proof. by intros w. Qed.

End NeverThrows.

Lemma exec_abind_sbind {A B} (m : Async A) (f : A -> Async B)
    (m' : Sync A) (f' : A -> Sync B) w :
  (forall w0, exec m w0 = m' w0) ->
  (forall a w0, exec (f a) w0 = f' a w0) ->
  exec (abind m f) w = sbind m' f' w.
Proof.
  intros Hm Hf. rewrite exec_abind, Hm. unfold sbind.
  destruct (m' w) as [w' [a | e]]; [apply Hf | reflexivity].
Qed.

Lemma exec_await_eq {A} (m : Async A) (m' : Sync A) w :
  (forall w0, exec m w0 = m' w0) -> exec (await m) w = m' w.
Proof. intros Hm. rewrite exec_await. apply Hm. Qed.

(** Solves [exec m w = m' w] when [m'] is [m] with its awaits erased. *)
Ltac exec_eq :=
  repeat first
    [ progress intros
    | apply exec_abind_sbind
    | apply exec_await_eq
    | apply exec_io
    | apply exec_sync
    | apply exec_ret
    | apply exec_throw
    | reflexivity ].

Section BigStep.
Context `{!Runtime}.

Lemma exec_saveDeploymentState env h p e w :
  exec (saveDeploymentState env h p e) w = persist env h p e w.
Proof. unfold saveDeploymentState. exec_eq. Qed.

Lemma exec_loadDeploymentState env w :
  exec (loadDeploymentState env) w = (w, Ok (stored_record env w)).
Proof.
  unfold loadDeploymentState, stored_record.
  rewrite exec_abind, exec_sync. cbn [gets].
  unfold existsSync, read_file, Bun_file_text.
  destruct (files w !! STATE_FILE) as [nd|] eqn:Hf.
  - rewrite bool_decide_eq_true_2 by eauto. cbn [negb].
    rewrite exec_try_catch, exec_abind, exec_await, exec_io.
    unfold Bun_file_text, read_file. rewrite Hf.
    destruct (read_state_ok env); [|reflexivity].
    destruct nd as [|c]; [reflexivity|].
    destruct (JSON_parse c) as [[]|]; reflexivity.
  - rewrite bool_decide_eq_false_2 by (intros [? ?]; discriminate).
    cbn [negb]. rewrite exec_ret. destruct (read_state_ok env); reflexivity.
Qed.

Lemma exec_stopCurrentApp env w :
  exec (stopCurrentApp env) w =
  match currentAppServer w with
  | Some srv =>
      sbind (server_stop env srv)
        (fun _ => modify (set_currentAppServer None)) w
  | None => (w, Ok tt)
  end.
Proof.
  unfold stopCurrentApp. rewrite exec_abind, exec_sync. cbn [gets].
  destruct (currentAppServer w); exec_eq.
Qed.

Lemma exec_startApp env h p e w :
  exec (startApp env h p e) w = startApp_sync env h p e w.
Proof.
  unfold startApp, startApp_sync. apply exec_abind_sbind; [exec_eq|].
  intros found w0. destruct (negb found); [exec_eq|].
  apply exec_abind_sbind; [exec_eq|]. intros app w1.
  apply exec_abind_sbind; [exec_eq|]. intros f w2.
  apply exec_abind_sbind; [exec_eq|]. intros srv w3.
  apply exec_abind_sbind; [exec_eq|]. intros _ w4.
  apply exec_abind_sbind; [exec_eq|]. intros _ w5.
  apply exec_await_eq. intros w6. apply exec_saveDeploymentState.
Qed.

Lemma exec_materialize env h request w :
  exec (materialize env h request) w = materialize_sync env h request w.
Proof.
  unfold materialize, materialize_sync, tempFile_of.
  apply exec_abind_sbind; [exec_eq|]. intros bytes w0.
  apply exec_abind_sbind; [exec_eq|]. intros _ w1.
  apply exec_abind_sbind; [exec_eq|]. intros found w2.
  apply exec_abind_sbind; [destruct found; exec_eq|]. intros _ w3.
  exec_eq.
Qed.

End BigStep.

(** ** [parseInt] *)

(** A value whose first character after white space and sign is not a
    decimal digit does not parse. *)
Lemma parseInt_no_digit s :
  match (strip_sign (trim_start s)).2 with
  | EmptyString => True
  | String c _ => radix_digit 10 c = None
  end ->
  parseInt s = NaN.
Proof.
  unfold parseInt. destruct (strip_sign (trim_start s)) as [sign s2]. cbn [snd].
  destruct s2 as [|c r]; [done|]. intros Hc.
  assert (strip_hex_prefix (String c r) = (10, String c r)) as ->.
  { destruct c as [[] [] [] [] [] [] [] []]; try reflexivity.
    vm_compute in Hc. discriminate. }
  cbn [parse_digits]. by rewrite Hc.
Qed.

(** What is accepted is more than the decimal integers. *)
Lemma parseInt_lenient :
  parseInt "3000" = Num 3000 /\ parseInt " 80abc" = Num 80 /\
  parseInt "0x50" = Num 80 /\ parseInt "12.5" = Num 12 /\
  parseInt "-1" = Num (-1) /\ parseInt "port" = NaN.
Proof. repeat split. Qed.

(** ** Paths *)

Lemma split_on_no_slash s : no_slash s = true -> split_on "/" s = [s].
Proof.
  induction s as [|c s IH]; [done|]. cbn [no_slash split_on].
  intros [Hc Hs]%andb_true_iff. apply negb_true_iff, bool_decide_eq_false in Hc.
  rewrite decide_False by done. by rewrite IH.
Qed.

Lemma split_on_slash a b :
  no_slash a = true ->
  split_on "/" (a +:+ String "/" b) = a :: split_on "/" b.
Proof.
  induction a as [|c a IH]; [done|]. cbn [no_slash].
  intros [Hc Ha]%andb_true_iff. apply negb_true_iff, bool_decide_eq_false in Hc.
  change (String c a +:+ String "/" b) with (String c (a +:+ String "/" b)).
  cbn [split_on]. rewrite decide_False by done. by rewrite IH.
Qed.

Lemma no_slash_app a b :
  no_slash a = true -> no_slash b = true -> no_slash (a +:+ b) = true.
Proof.
  induction a as [|c a IH]; [done|]. cbn [no_slash].
  intros [Hc Ha]%andb_true_iff Hb.
  change (String c a +:+ b) with (String c (a +:+ b)). cbn [no_slash].
  by rewrite Hc, IH.
Qed.

Lemma norm_step_regular stack seg :
  regular seg -> norm_step stack seg = seg :: stack.
Proof.
  intros (H1 & H2 & H3). unfold norm_step.
  rewrite decide_False by (by intros [?|?]). by rewrite decide_False.
Qed.

Lemma foldl_norm_step_keeps_regular l acc :
  Forall regular acc -> Forall regular (foldl norm_step acc l).
Proof.
  revert acc. induction l as [|seg l IH]; intros acc Hacc; [done|].
  cbn [foldl]. apply IH. unfold norm_step.
  destruct (decide (seg = "" \/ seg = ".")) as [|Hn]; [done|].
  destruct (decide (seg = "..")) as [|Hdd].
  - destruct acc; [done|]. by inversion Hacc.
  - constructor; [|done]. unfold regular. tauto.
Qed.

Lemma normalize_is_regular l : Forall regular (normalize l).
Proof.
  unfold normalize. apply Forall_rev.
  by apply foldl_norm_step_keeps_regular.
Qed.

Lemma normalize_snoc l seg :
  regular seg -> normalize (l ++ [seg]) = normalize l ++ [seg].
Proof.
  intros Hseg. unfold normalize. rewrite foldl_app. cbn [foldl].
  by rewrite norm_step_regular.
Qed.

Lemma normalize_regular l : Forall regular l -> normalize l = l.
Proof.
  induction l as [|seg l IH] using rev_ind; [done|].
  intros [Hl Hseg]%Forall_app. rewrite normalize_snoc; [|by inversion Hseg].
  by rewrite IH.
Qed.

Lemma join_plain base name :
  Forall regular base -> plain_name name -> join base name = base ++ [name].
Proof.
  intros Hbase [Hreg Hns]. unfold join. rewrite split_on_no_slash by done.
  rewrite normalize_snoc by done. by rewrite normalize_regular.
Qed.

Section PlainVersion.
Context `{!Runtime}.

Lemma DEPLOYMENTS_DIR_regular : Forall regular DEPLOYMENTS_DIR.
Proof. apply normalize_is_regular. Qed.

Lemma STATE_FILE_eq : STATE_FILE = DEPLOYMENTS_DIR ++ [".state.json"].
Proof.
  apply join_plain; [apply DEPLOYMENTS_DIR_regular|].
  by repeat split.
Qed.

Lemma tempFile_of_plain h :
  no_slash h = true ->
  tempFile_of h = ["tmp"; "deploy-" +:+ h +:+ ".tar.gz"].
Proof.
  intros Hh. unfold tempFile_of, path_of_string.
  change ("/tmp/deploy-" +:+ h +:+ ".tar.gz")
    with ("" +:+ String "/" ("tmp" +:+ String "/" ("deploy-" +:+ h +:+ ".tar.gz"))).
  rewrite !split_on_slash by done.
  rewrite split_on_no_slash by (by repeat apply no_slash_app).
  change [""; "tmp"; "deploy-" +:+ h +:+ ".tar.gz"]
    with ([""; "tmp"] ++ ["deploy-" +:+ h +:+ ".tar.gz"]).
  by rewrite normalize_snoc by (by repeat split).
Qed.

(** For a plain version identifier other than the name of the state file,
    neither the artifact directory nor the temporary archive overlaps with
    the state file. *)
Lemma plain_version_apart h :
  plain_name h -> h <> ".state.json" ->
  unrelated (join DEPLOYMENTS_DIR h) STATE_FILE /\
  ~ STATE_FILE `prefix_of` tempFile_of h.
Proof.
  intros Hplain Hne.
  rewrite (join_plain _ _ DEPLOYMENTS_DIR_regular Hplain), STATE_FILE_eq.
  rewrite tempFile_of_plain by apply Hplain.
  split; [split|].
  - intros Hpre%prefix_app_inv. by apply prefix_cons_inv_1 in Hpre.
  - intros Hpre%prefix_app_inv. by apply prefix_cons_inv_1 in Hpre.
  - unfold DEPLOYMENTS_DIR. rewrite normalize_snoc by (by repeat split).
    rewrite <- (assoc app). cbn [app].
    destruct (normalize cwd) as [|a l]; cbn [app].
    + by intros Hpre%prefix_cons_inv_1.
    + intros Hpre%prefix_length. rewrite !length_cons, length_app in Hpre.
      cbn in Hpre. lia.
Qed.

End PlainVersion.

(** ** File-system operations: what they touch *)

Section FileSystem.
Implicit Types (f : FS) (p q dp : Path).

Lemma prefixes_prefix p q : q ∈ prefixes p -> q `prefix_of` p.
Proof.
  unfold prefixes. intros Hq. apply list_elem_of_fmap in Hq as (n & -> & _).
  apply prefix_take.
Qed.

Lemma prefixes_self p : p <> [] -> p ∈ prefixes p.
Proof.
  intros Hp. unfold prefixes. apply list_elem_of_fmap.
  exists (length p). split; [by rewrite firstn_all|].
  apply elem_of_seq. destruct p; [done|]. simpl. lia.
Qed.

Lemma parent_prefix p : parent p `prefix_of` p.
Proof. apply prefix_take. Qed.

Lemma lookup_mkdirs (g : Path -> Path) (l : list Path) f q :
  foldr (fun x m => <[g x := Dir]> m) f l !! q =
  if decide (q ∈ g <$> l) then Some Dir else f !! q.
Proof.
  induction l as [|x l IH].
  - rewrite fmap_nil. cbn [foldr]. case_decide as Hin; [|done].
    by apply not_elem_of_nil in Hin.
  - rewrite fmap_cons. cbn [foldr].
    destruct (decide (g x = q)) as [->|Hne].
    + rewrite lookup_insert_eq. rewrite decide_True; [done | left].
    + rewrite lookup_insert_ne by done. rewrite IH.
      destruct (decide (q ∈ g <$> l)) as [Hin|Hnin].
      * rewrite decide_True; [done | by right].
      * rewrite decide_False; [done|].
        intros Hin. apply elem_of_cons in Hin as [->|?]; done.
Qed.

Lemma lookup_mkdir_p f p f' q :
  mkdir_p f p = Some f' ->
  f' !! q = if decide (q ∈ prefixes p) then Some Dir else f !! q.
Proof.
  unfold mkdir_p. destruct (forallb _ _); [|done]. intros [= <-].
  rewrite (lookup_mkdirs id). by rewrite list_fmap_id.
Qed.

Lemma mkdir_p_no_file f p f' q :
  mkdir_p f p = Some f' -> q ∈ prefixes p -> is_file f q = false.
Proof.
  unfold mkdir_p. destruct (forallb _ _) eqn:Hall; [|done]. intros _ Hq.
  rewrite forallb_forall in Hall. apply negb_true_iff, Hall.
  by apply list_elem_of_In.
Qed.

Lemma mkdir_p_frame f p f' q :
  mkdir_p f p = Some f' -> ~ q `prefix_of` p -> f' !! q = f !! q.
Proof.
  intros Hmk Hq. rewrite (lookup_mkdir_p _ _ _ _ Hmk).
  rewrite decide_False; [done|]. intros Hin. by apply Hq, prefixes_prefix.
Qed.

(** A regular file survives [mkdir -p]. *)
Lemma mkdir_p_keeps_file f p f' q c :
  mkdir_p f p = Some f' -> f !! q = Some (File c) -> f' !! q = Some (File c).
Proof.
  intros Hmk Hq. rewrite (lookup_mkdir_p _ _ _ _ Hmk).
  destruct (decide (q ∈ prefixes p)) as [Hin|]; [|done].
  apply (mkdir_p_no_file _ _ _ _ Hmk) in Hin. unfold is_file in Hin.
  by rewrite Hq in Hin.
Qed.

Lemma write_file_self f p data f' :
  write_file f p data = Some f' -> f' !! p = Some (File data).
Proof.
  unfold write_file. destruct (mkdir_p f (parent p)) as [f1|]; [|done].
  destruct (f1 !! p) as [[|c]|]; intros [= <-]; apply lookup_insert_eq.
Qed.

Lemma write_file_frame f p data f' q :
  write_file f p data = Some f' -> ~ q `prefix_of` p -> f' !! q = f !! q.
Proof.
  unfold write_file. destruct (mkdir_p f (parent p)) as [f1|] eqn:Hmk; [|done].
  intros Hw Hq.
  assert (f1 !! q = f !! q) as <-.
  { apply (mkdir_p_frame _ _ _ _ Hmk). intros Hpre. apply Hq.
    etrans; [exact Hpre | apply parent_prefix]. }
  assert (p <> q) by (intros ->; by apply Hq).
  destruct (f1 !! p) as [[|c]|]; simplify_eq; by rewrite lookup_insert_ne.
Qed.

Lemma rm_rf_frame f p q : ~ p `prefix_of` q -> rm_rf f p !! q = f !! q.
Proof.
  intros Hq. unfold rm_rf. rewrite map_lookup_filter.
  destruct (f !! q) as [n|]; [|done]. simpl.
  rewrite option_guard_True; done.
Qed.

Lemma rm_rf_under f p q : p `prefix_of` q -> rm_rf f p !! q = None.
Proof.
  intros Hq. unfold rm_rf. apply map_lookup_filter_None. right.
  intros n _ Hn. by apply Hn.
Qed.

Lemma rm_file_frame f p f' q :
  rm_file f p = Some f' -> q <> p -> f' !! q = f !! q.
Proof.
  unfold rm_file. destruct (is_file f p); [|done]. intros [= <-] Hq.
  by rewrite lookup_delete_ne.
Qed.

Lemma rm_file_was_file f p f' :
  rm_file f p = Some f' -> exists c, f !! p = Some (File c).
Proof.
  unfold rm_file, is_file. destruct (f !! p) as [[|c]|]; [done | eauto | done].
Qed.

Lemma put_under_frame dp rel n f q :
  ~ dp `prefix_of` q -> put_under dp rel n f !! q = f !! q.
Proof.
  intros Hq. unfold put_under.
  rewrite lookup_insert_ne by (intros <-; apply Hq; by apply prefix_app_r).
  rewrite (lookup_mkdirs (fun x => dp ++ x)).
  rewrite decide_False; [done|]. intros Hin.
  apply list_elem_of_fmap in Hin as (x & -> & _). apply Hq. by apply prefix_app_r.
Qed.

Lemma extract_frame dp members f q :
  ~ dp `prefix_of` q -> extract dp members f !! q = f !! q.
Proof.
  intros Hq. unfold extract. revert f.
  induction members as [|[rel n] ms IH]; intros f; simpl; [done|].
  rewrite IH. by apply put_under_frame.
Qed.

(** Unpacking below [dp] is unpacking at the root, shifted by [dp]. *)
Lemma put_under_shift dp rel n f g :
  (forall r, f !! (dp ++ r) = g !! r) ->
  forall r, put_under dp rel n f !! (dp ++ r) = put_under [] rel n g !! r.
Proof.
  intros Hfg r. unfold put_under. simpl.
  destruct (decide (rel = r)) as [->|Hne].
  - by rewrite !lookup_insert_eq.
  - rewrite !lookup_insert_ne by (try done; intros ?%(inj (app dp)); done).
    rewrite (lookup_mkdirs (fun x => dp ++ x)), (lookup_mkdirs (fun x => x)).
    rewrite Hfg.
    destruct (decide (r ∈ (fun x => x) <$> prefixes (parent rel))) as [Hin|Hnin].
    + rewrite decide_True; [done|]. apply list_elem_of_fmap.
      apply list_elem_of_fmap in Hin as (x & -> & Hx). eauto.
    + rewrite decide_False; [done|]. intros Hin. apply Hnin.
      apply list_elem_of_fmap in Hin as (x & Heq & Hx).
      apply (inj (app dp)) in Heq as ->. apply list_elem_of_fmap. eauto.
Qed.

Lemma extract_shift dp members f g :
  (forall r, f !! (dp ++ r) = g !! r) ->
  forall r, extract dp members f !! (dp ++ r) = extract [] members g !! r.
Proof.
  unfold extract. revert f g.
  induction members as [|[rel n] ms IH]; intros f g Hfg r; simpl; [apply Hfg|].
  apply IH. by apply put_under_shift.
Qed.

End FileSystem.

(** ** Synchronous steps: inversion and invariants *)

Lemma sbind_inv {A B} (m : Sync A) (f : A -> Sync B) w w' r :
  sbind m f w = (w', r) ->
  (exists w1 a, m w = (w1, Ok a) /\ f a w1 = (w', r)) \/
  (exists e, m w = (w', Err e) /\ r = Err e).
Proof.
  unfold sbind. destruct (m w) as [w1 [a | e]]; intros Heq.
  - left; eauto.
  - right; exists e. by simplify_eq.
Qed.

Lemma fs_op_inv ok e g w w' r :
  fs_op ok e g w = (w', r) ->
  (exists f', g (files w) = Some f' /\ w' = set_files f' w /\ r = Ok tt) \/
  (w' = w /\ r = Err e).
Proof.
  unfold fs_op. destruct ok; [destruct (g (files w)) as [f'|] eqn:Hg|];
    intros [= <- <-]; eauto.
Qed.

Section Keeps.
Context (Q : FS -> FS -> Prop) `{!PreOrder Q}.

Lemma keeps_sbind {A B} (m : Sync A) (f : A -> Sync B) :
  keeps Q m -> (forall a, keeps Q (f a)) -> keeps Q (sbind m f).
Proof.
  intros Hm Hf w w' r Hrun.
  apply sbind_inv in Hrun as [(w1 & a & H1 & H2) | (e & H1 & _)].
  - apply Hm in H1 as [(? & ? & ? & ?) ?].
    apply Hf in H2 as [(? & ? & ? & ?) ?].
    split; [unfold same_process; repeat split; congruence | by etrans].
  - by apply Hm in H1.
Qed.

Lemma keeps_pure {A} (r0 : World -> Result A) : keeps Q (fun w => (w, r0 w)).
Proof. intros w w' r [= <- _]. split; [by unfold same_process | reflexivity]. Qed.

Lemma keeps_fs_op ok e g :
  (forall f f', g f = Some f' -> Q f f') -> keeps Q (fs_op ok e g).
Proof.
  intros Hg w w' r Hrun.
  apply fs_op_inv in Hrun as [(f' & Hf & -> & _) | [-> _]].
  - split; [by unfold same_process | by apply Hg].
  - split; [by unfold same_process | reflexivity].
Qed.

End Keeps.

#[local] Instance same_lookup_preorder (q : Path) :
  PreOrder (fun f f' : FS => f' !! q = f !! q).
Proof. split; [by intros f | intros f g k H1 H2; by rewrite H2]. Qed.

#[local] Instance no_constraint_preorder : PreOrder (fun _ _ : FS => True).
Proof. by split. Qed.

Section Materialize.
Context `{!Runtime}.

Lemma keeps_materialize (Q : FS -> FS -> Prop) `{!PreOrder Q} env h request :
  (forall f f' data, write_file f (tempFile_of h) data = Some f' -> Q f f') ->
  (forall f, Q f (rm_rf f (join DEPLOYMENTS_DIR h))) ->
  (forall f f', mkdir_p f (join DEPLOYMENTS_DIR h) = Some f' -> Q f f') ->
  (forall f ms, Q f (extract (join DEPLOYMENTS_DIR h) ms f)) ->
  (forall f f', rm_file f (tempFile_of h) = Some f' -> Q f f') ->
  keeps Q (materialize_sync env h request).
Proof.
  intros Hwrite Hrmrf Hmkdir Hextract Hrm. unfold materialize_sync.
  apply keeps_sbind; [done | |].
  { unfold request_arrayBuffer.
    destruct (req_body request); apply (keeps_pure Q). }
  intros bytes. apply keeps_sbind; [done | |].
  { apply keeps_fs_op; [done|]. intros f f'. apply Hwrite. }
  intros _. apply keeps_sbind; [done | apply (keeps_pure Q) |].
  intros found. apply keeps_sbind; [done | |].
  { destruct found; [|apply (keeps_pure Q)].
    apply keeps_fs_op; [done|]. intros f f' [= <-]. apply Hrmrf. }
  intros _. apply keeps_sbind; [done | |].
  { apply keeps_fs_op; [done|]. apply Hmkdir. }
  intros _. apply keeps_sbind; [done | |].
  { apply keeps_fs_op; [done|]. intros f f' Hx.
    destruct (f !! _) as [[|?]|]; try done.
    destruct (read_file f _); [|done].
    destruct (untar _) as [ms|]; [|done]. injection Hx as <-. apply Hextract. }
  intros _. apply keeps_fs_op; [done|]. apply Hrm.
Qed.

(** Materialising never touches the process variables. *)
Lemma materialize_same_process env h request w w' r :
  exec (materialize env h request) w = (w', r) -> same_process w w'.
Proof.
  rewrite exec_materialize. intros Hrun.
  by apply (keeps_materialize (fun _ _ => True)) in Hrun as [? _].
Qed.

(** Nor a path that is unrelated to the artifact directory and not above the
    temporary archive. *)
Lemma materialize_frame env h request w w' r q :
  unrelated (join DEPLOYMENTS_DIR h) q ->
  ~ q `prefix_of` tempFile_of h ->
  exec (materialize env h request) w = (w', r) ->
  files w' !! q = files w !! q.
Proof.
  rewrite exec_materialize. intros [Hdq Hqd] Hqt Hrun.
  apply (keeps_materialize (fun f f' => f' !! q = f !! q)) in Hrun as [_ ?];
    [done | | | | | ].
  - intros f f' data Hw. by apply (write_file_frame _ _ _ _ _ Hw).
  - intros f. by apply rm_rf_frame.
  - intros f f' Hmk. by apply (mkdir_p_frame _ _ _ _ Hmk).
  - intros f ms. by apply extract_frame.
  - intros f f' Hrm. apply (rm_file_frame _ _ _ _ Hrm). by intros ->.
Qed.

End Materialize.

(** ** Stopping and starting *)

Section StopStart.
Context `{!Runtime}.

Lemma stopCurrentApp_ok env w w' :
  exec (stopCurrentApp env) w = (w', Ok tt) ->
  currentAppServer w' = None /\
  currentDeploymentHash w' = currentDeploymentHash w /\
  files w' = files w /\
  next_id w' = next_id w /\
  (forall s, s ∈ listening w' -> s ∈ listening w) /\
  (single_instance w -> listening w' = []).
Proof.
  rewrite exec_stopCurrentApp. unfold single_instance.
  destruct (currentAppServer w) as [srv|] eqn:Hcur.
  - unfold sbind, server_stop, modify. destruct (stop_ok env); [|done].
    intros [= <-]. cbn. repeat split; try done.
    + intros s Hs. by apply list_elem_of_filter in Hs as [_ ?].
    + intros ->. cbn. by rewrite decide_False by (intros Hne; by apply Hne).
  - intros [= <-]. by rewrite Hcur.
Qed.

Lemma stopCurrentApp_err env w w' e :
  exec (stopCurrentApp env) w = (w', Err e) ->
  w' = w /\ e = StopError /\ stop_ok env = false /\
  is_Some (currentAppServer w).
Proof.
  rewrite exec_stopCurrentApp.
  destruct (currentAppServer w) as [srv|] eqn:Hcur; [|done].
  unfold sbind, server_stop, modify. destruct (stop_ok env); [done|].
  intros [= <- <-]. eauto.
Qed.


Lemma persist_inv env h p e w w' r :
  persist env h p e w = (w', r) ->
  (r = Ok tt /\ same_process w w' /\
   files w' !! STATE_FILE = Some (File (JSON_stringify (descriptor env h p e))))
  \/ (r = Err (FileWriteError STATE_FILE) /\ w' = w).
Proof.
  unfold persist, Bun_write. intros Hrun.
  apply fs_op_inv in Hrun as [(f' & Hw & -> & ->) | [-> ->]]; [left | by right].
  split; [done|]. split; [by unfold same_process|].
  cbn. by apply write_file_self in Hw.
Qed.

Lemma startApp_inv env h p e w w' r :
  exec (startApp env h p e) w = (w', r) ->
  (exists er, r = Err er /\ start_failure er /\ w' = w) \/
  (exists srv,
     srv_port srv = bound_port env p /\ srv_id srv = next_id w /\
     existsSync (files w) (join (join DEPLOYMENTS_DIR h) e) = true /\
     port_in_use w (bound_port env p) = false /\
     persist env h p e (started srv h w) = (w', r)).
Proof.
  rewrite exec_startApp. unfold startApp_sync, sbind at 1, gets.
  destruct (existsSync (files w) _) eqn:Hfound; cbn [negb].
  2:{ intros [= <- <-]. left. eexists. by repeat split. }
  unfold sbind at 1, import. destruct (import_result env) as [app|].
  2:{ intros [= <- <-]. left. eexists. by repeat split. }
  unfold sbind at 1, select_fetch.
  destruct (mod_default app) as [d|]; cbn [sthrow].
  2:{ intros [= <- <-]. left. eexists. by repeat split. }
  assert (forall fn : option Handler,
    sbind (Bun_serve env p fn)
      (fun srv => sbind (modify (set_currentAppServer (Some srv)))
         (fun _ => sbind (modify (set_currentDeploymentHash (Some h)))
            (fun _ => persist env h p e))) w = (w', r) ->
    (exists er, r = Err er /\ start_failure er /\ w' = w) \/
    (exists srv,
       srv_port srv = bound_port env p /\ srv_id srv = next_id w /\
       port_in_use w (bound_port env p) = false /\
       persist env h p e (started srv h w) = (w', r))) as Hserve.
  { intros fn. unfold sbind at 1, Bun_serve.
    destruct fn as [hd|].
    2:{ intros [= <- <-]. left. eexists. by repeat split. }
    destruct (serve_ok env && negb (port_in_use w (bound_port env p)))
      eqn:Hok.
    2:{ intros [= <- <-]. left. eexists. by repeat split. }
    unfold sbind, modify. intros Hrun. right. eexists.
    repeat split; [..|exact Hrun]; try reflexivity.
    apply andb_true_iff in Hok as [_ Hfree]. by apply negb_true_iff in Hfree. }
  intros Hrun.
  assert (sbind (Bun_serve env p (match d with Some hd => Some hd
                                  | None => mod_fetch app end))
      (fun srv => sbind (modify (set_currentAppServer (Some srv)))
         (fun _ => sbind (modify (set_currentDeploymentHash (Some h)))
            (fun _ => persist env h p e))) w = (w', r)) as Hrun'.
  { by destruct d. }
  apply Hserve in Hrun' as [Hfail | (srv & ? & ? & ? & ?)]; [by left|].
  right. exists srv. by repeat split.
Qed.

End StopStart.

(** ** The upload handler, read sequentially *)

Section Upload.
Context `{!Runtime}.

Lemma truthy_Some s : s <> "" -> truthy (Some s) = true.
Proof. intros Hs. unfold truthy. by rewrite bool_decide_eq_false_2. Qed.

Lemma exec_handleUpload env request w h p e n :
  valid_headers request h p e n ->
  exec (handleUpload env request) w =
  match deploy env h n e request w with
  | (w', Ok _) => (w', Ok (deployed env h n))
  | (w', Err er) => (w', Ok (failed er))
  end.
Proof.
  intros (Hh & Hh' & Hp & Hp' & He & He' & Hn).
  unfold handleUpload. rewrite exec_try_catch, Hh, Hp, He.
  rewrite !truthy_Some by done. cbn [negb orb default from_option id]. rewrite Hn.
  assert (forall r0 : Response,
    exec (abind (materialize env h request) (fun _ =>
          abind (await (stopCurrentApp env)) (fun _ =>
          abind (await (startApp env h n e)) (fun _ => ret r0)))) w =
    sbind (deploy env h n e request) (fun _ => sret r0) w) as ->.
  { intros r0. unfold deploy, sbind, sret. rewrite exec_abind.
    destruct (exec (materialize env h request) w) as [w1 [[]|er]]; [|done].
    rewrite exec_abind, exec_await.
    destruct (exec (stopCurrentApp env) w1) as [w2 [[]|er]]; [|done].
    rewrite exec_abind, exec_await.
    by destruct (exec (startApp env h n e) w2) as [w3 [[]|er]]. }
  unfold sbind, sret.
  by destruct (deploy env h n e request w) as [w' [[]|er]].
Qed.

Lemma handleUpload_rejected env request w :
  rejected_headers request ->
  exists reason,
    handleUpload env request w =
      (w, Settled (Ok {| status := 400; body := Text reason |})).
Proof.
  intros Hbad. unfold handleUpload, try_catch.
  destruct (negb (truthy (headers_get request "X-Deploy-Hash"))
            || negb (truthy (headers_get request "X-Deploy-Port"))
            || negb (truthy (headers_get request "X-Deploy-Entrypoint")))
    eqn:Hmissing.
  { eexists. reflexivity. }
  apply orb_false_iff in Hmissing as [Hmissing He].
  apply orb_false_iff in Hmissing as [Hh Hp].
  apply negb_false_iff in Hh, Hp, He.
  destruct Hbad as [Hbad | [Hbad | [Hbad | (p & Hget & Hnan)]]]; try congruence.
  rewrite Hget. cbn [default from_option id]. rewrite Hnan. eexists. reflexivity.
Qed.

Lemma headers_cases request :
  (exists h p e n, valid_headers request h p e n) \/ rejected_headers request.
Proof.
  unfold valid_headers, rejected_headers, truthy.
  destruct (headers_get request "X-Deploy-Hash") as [h|]; [|by right; left].
  destruct (headers_get request "X-Deploy-Port") as [p|]; [|by right; right; left].
  destruct (headers_get request "X-Deploy-Entrypoint") as [e|];
    [|by right; right; right; left].
  destruct (decide (h = "")) as [->|Hh]; [by right; left|].
  destruct (decide (p = "")) as [->|Hp]; [by right; right; left|].
  destruct (decide (e = "")) as [->|He]; [by right; right; right; left|].
  destruct (parseInt p) as [|n] eqn:Hn.
  - right. do 3 right. eauto.
  - left. exists h, p, e, n. by repeat split.
Qed.

End Upload.

Section Deploy.
Context `{!Runtime}.

Lemma deploy_inv env h n e request w w' r :
  deploy env h n e request w = (w', r) ->
  (exists er, exec (materialize env h request) w = (w', Err er) /\ r = Err er) \/
  (exists w1, exec (materialize env h request) w = (w1, Ok tt) /\
     ((exec (stopCurrentApp env) w1 = (w', Err StopError) /\ w' = w1 /\
       r = Err StopError) \/
      (exists w2, exec (stopCurrentApp env) w1 = (w2, Ok tt) /\
         exec (startApp env h n e) w2 = (w', r)))).
Proof.
  unfold deploy. intros Hrun.
  apply sbind_inv in Hrun as [(w1 & [] & Hmat & Hrun) | (er & Hmat & ->)];
    [right; exists w1; split; [done|] | left; eauto].
  apply sbind_inv in Hrun as [(w2 & [] & Hstop & Hrun) | (er & Hstop & ->)].
  - right; eauto.
  - left. destruct (stopCurrentApp_err _ _ _ _ Hstop) as (-> & -> & _). eauto.
Qed.

Lemma bound_port_in_range env (n : Z) :
  1 <= n <= 65535 -> bound_port env n = n.
Proof.
  intros [H1 H2]. unfold bound_port.
  by rewrite (proj2 (Z.leb_le _ _) H1), (proj2 (Z.leb_le _ _) H2).
Qed.

Lemma same_process_single_instance w w' :
  same_process w w' -> single_instance w -> single_instance w'.
Proof. unfold single_instance. intros (-> & _ & -> & _). done. Qed.

(** A successful [startApp] from a world without a bound server. *)
Lemma startApp_ok env h p e w w' :
  exec (startApp env h p e) w = (w', Ok tt) ->
  exists srv,
    srv_port srv = bound_port env p /\ srv_id srv = next_id w /\
    currentAppServer w' = Some srv /\
    currentDeploymentHash w' = Some h /\
    listening w' = srv :: listening w /\
    files w' !! STATE_FILE = Some (File (JSON_stringify (descriptor env h p e))).
Proof.
  intros Hrun.
  apply startApp_inv in Hrun as [(er & ? & _) | (srv & Hp & Hid & _ & _ & Hrun)];
    [done|].
  apply persist_inv in Hrun as [(_ & (Hc & Hh & Hl & _) & Hf) | [? _]]; [|done].
  exists srv. by repeat split.
Qed.

(** A failed [startApp]: nothing happened, or only the state file is
    missing. *)
Lemma startApp_err env h p e w w' er :
  exec (startApp env h p e) w = (w', Err er) ->
  (start_failure er /\ w' = w) \/
  (er = FileWriteError STATE_FILE /\
   exists srv, srv_port srv = bound_port env p /\ srv_id srv = next_id w /\
               w' = started srv h w).
Proof.
  intros Hrun.
  apply startApp_inv in Hrun as [(er' & [= <-] & ? & ?) | (srv & Hp & Hid & _ & _ & Hrun)];
    [by left|].
  apply persist_inv in Hrun as [(? & _) | [[= ->] ->]]; [done|].
  right. split; [done|]. eauto.
Qed.

End Deploy.

(** ** Materialising, step by step *)

Section MaterializeSteps.
Context `{!Runtime}.

Lemma materialize_ok env h request w w' :
  exec (materialize env h request) w = (w', Ok tt) ->
  exists bytes f1 f3 bytes' members,
    req_body request = Some bytes /\
    write_file (files w) (tempFile_of h) bytes = Some f1 /\
    mkdir_p (if existsSync f1 (join DEPLOYMENTS_DIR h)
             then rm_rf f1 (join DEPLOYMENTS_DIR h) else f1)
      (join DEPLOYMENTS_DIR h) = Some f3 /\
    f3 !! join DEPLOYMENTS_DIR h = Some Dir /\
    read_file f3 (tempFile_of h) = Some bytes' /\
    untar bytes' = Some members /\
    rm_file (extract (join DEPLOYMENTS_DIR h) members f3) (tempFile_of h)
      = Some (files w').
Proof.
  rewrite exec_materialize. unfold materialize_sync. intros Hrun.
  set (tmp := tempFile_of h) in *. set (dp := join DEPLOYMENTS_DIR h) in *.
  apply sbind_inv in Hrun as [(w0 & bytes & Hbody & Hrun) | (? & _ & ?)]; [|done].
  unfold request_arrayBuffer in Hbody.
  destruct (req_body request) as [b|] eqn:Hb; [|done].
  injection Hbody as <- <-.
  apply sbind_inv in Hrun as [(w1 & [] & Hwrite & Hrun) | (? & _ & ?)]; [|done].
  apply fs_op_inv in Hwrite as [(f1 & Hwrite & -> & _) | [_ ?]]; [|done].
  apply sbind_inv in Hrun as [(w2 & found & Hfound & Hrun) | (? & _ & ?)]; [|done].
  injection Hfound as <- <-. cbn [files set_files] in Hrun.
  apply sbind_inv in Hrun as [(w3 & [] & Hrm & Hrun) | (? & _ & ?)]; [|done].
  apply sbind_inv in Hrun as [(w4 & [] & Hmk & Hrun) | (? & _ & ?)]; [|done].
  apply fs_op_inv in Hmk as [(f3 & Hmk & -> & _) | [_ ?]]; [|done].
  apply sbind_inv in Hrun as [(w5 & [] & Htar & Hrun) | (? & _ & ?)]; [|done].
  apply fs_op_inv in Htar as [(f4 & Htar & -> & _) | [_ ?]]; [|done].
  apply fs_op_inv in Hrun as [(f5 & Hrmt & -> & _) | [_ ?]]; [|done].
  cbn [files set_files] in *.
  destruct (f3 !! dp) as [[|?]|] eqn:Hdir; try done.
  destruct (read_file f3 tmp) as [bytes'|] eqn:Hread; [|done].
  destruct (untar bytes') as [members|] eqn:Huntar; [|done].
  injection Htar as <-.
  exists b, f1, f3, bytes', members. repeat split; try done.
  destruct (existsSync f1 dp).
  - apply fs_op_inv in Hrm as [(f2 & [= <-] & -> & _) | [_ ?]]; [done|done].
  - by injection Hrm as <-.
Qed.

Lemma write_file_keeps_nodes (f : FS) p data f' q :
  write_file f p data = Some f' -> is_Some (f !! q) -> is_Some (f' !! q).
Proof.
  unfold write_file. destruct (mkdir_p f (parent p)) as [f1|] eqn:Hmk; [|done].
  intros Hw Hq.
  assert (is_Some (f1 !! q)) as Hq1.
  { rewrite (lookup_mkdir_p _ _ _ _ Hmk). by case_decide. }
  destruct (f1 !! p) as [[|c]|]; simplify_eq;
    (destruct (decide (p = q)) as [->|];
       [rewrite lookup_insert_eq; eauto | by rewrite lookup_insert_ne]).
Qed.

End MaterializeSteps.

(** ** Recovery and routing, read sequentially *)

Section Routes.
Context `{!Runtime}.

(** [startApp] when the entry file exists, the module loads and exposes a
    handler, and the port is free: the server is bound and both variables are
    set; what is left is the write of the state file. *)
Lemma exec_startApp_bound env h p e w app handler :
  existsSync (files w) (join (join DEPLOYMENTS_DIR h) e) = true ->
  import_result env = Some app ->
  (match mod_default app with
   | Some (Some hd) => Some hd
   | Some None => mod_fetch app
   | None => None
   end) = Some handler ->
  serve_ok env = true ->
  port_in_use w (bound_port env p) = false ->
  exec (startApp env h p e) w =
  persist env h p e
    (started {| srv_id := next_id w; srv_port := bound_port env p;
                srv_fetch := handler |} h w).
Proof.
  intros Hentry Happ Hsel Hserve Hport.
  rewrite exec_startApp. unfold startApp_sync, sbind at 1, gets.
  rewrite Hentry. cbn [negb]. unfold sbind at 1, import. rewrite Happ.
  unfold sbind at 1, select_fetch.
  destruct (mod_default app) as [[hd|]|]; [| |done].
  - injection Hsel as ->. unfold sbind at 1, sret, Bun_serve.
    rewrite Hserve, Hport. reflexivity.
  - unfold sbind at 1, sret, Bun_serve. rewrite Hsel, Hserve, Hport.
    reflexivity.
Qed.

(** At startup only the upload server holds a port. *)
Lemma port_free_at_startup (w : World) (q : Z) :
  listening w = [] -> q <> UPLOAD_PORT -> port_in_use w q = false.
Proof.
  intros Hl Hq. unfold port_in_use. rewrite Hl. cbn [existsb].
  by rewrite orb_false_r, (proj2 (Z.eqb_neq _ _) Hq).
Qed.

Lemma exec_recover env w :
  exec (recover env) w =
  match stored_record env w with
  | Some (Typed st) =>
      if existsSync (files w) (join DEPLOYMENTS_DIR (hash st))
      then ((exec (startApp env (hash st) (port st) (entrypoint st)) w).1, Ok tt)
      else (w, Ok tt)
  | Some NoHash => (w, Err TypeError)
  | _ => (w, Ok tt)
  end.
Proof.
  unfold recover. rewrite exec_abind, exec_await, exec_loadDeploymentState.
  destruct (stored_record env w) as [[| |st|h|]|]; try done.
  - rewrite exec_abind, exec_sync. cbn [gets].
    destruct (existsSync (files w) _); [|done].
    rewrite exec_try_catch, exec_await.
    by destruct (exec (startApp env (hash st) (port st) (entrypoint st)) w)
      as [w' [[]|er]].
  - rewrite exec_abind, exec_sync. cbn [gets].
    by destruct (existsSync (files w) _).
Qed.

(** The recovery routine changes the world through [startApp] only. *)
Lemma recover_cases env w :
  (exec (recover env) w).1 = w \/
  exists st r,
    stored_record env w = Some (Typed st) /\
    existsSync (files w) (join DEPLOYMENTS_DIR (hash st)) = true /\
    exec (startApp env (hash st) (port st) (entrypoint st)) w
      = ((exec (recover env) w).1, r).
Proof.
  rewrite exec_recover.
  destruct (stored_record env w) as [[| |st|h|]|]; try by left.
  destruct (existsSync (files w) _) eqn:Hdir; [|by left].
  right. exists st, (exec (startApp env (hash st) (port st) (entrypoint st)) w).2.
  split; [done|]. split; [done|]. cbn [fst].
  by destruct (exec (startApp env (hash st) (port st) (entrypoint st)) w).
Qed.

(** The recovery of a stored value of the declared type, when [startApp]
    gets as far as binding the server. *)
Lemma recover_typed env w st app handler :
  currentAppServer w = None ->
  listening w = [] ->
  stored_record env w = Some (Typed st) ->
  existsSync (files w) (join DEPLOYMENTS_DIR (hash st)) = true ->
  existsSync (files w)
    (join (join DEPLOYMENTS_DIR (hash st)) (entrypoint st)) = true ->
  import_result env = Some app ->
  (match mod_default app with
   | Some (Some hd) => Some hd
   | Some None => mod_fetch app
   | None => None
   end) = Some handler ->
  serve_ok env = true ->
  bound_port env (port st) <> UPLOAD_PORT ->
  exists w' srv,
    exec (recover env) w = (w', Ok tt) /\
    currentAppServer w' = Some srv /\ listening w' = [srv] /\
    srv_port srv = bound_port env (port st) /\
    srv_fetch srv = handler /\
    currentDeploymentHash w' = Some (hash st).
Proof.
  intros Hcur Hl Hrec Hdir Hentry Happ Hsel Hserve Hfree.
  rewrite exec_recover, Hrec, Hdir.
  rewrite (exec_startApp_bound _ _ _ _ _ app handler) by
    (try done; by apply port_free_at_startup).
  destruct (persist _ _ _ _ _) as [w' r] eqn:Hpersist.
  apply persist_inv in Hpersist
    as [(_ & (Hc & Hh & Hls & _) & _) | [_ ->]].
  - eexists w', _. cbn [fst]. split; [done|].
    rewrite Hc, Hh, Hls. cbn. by rewrite Hl.
  - eexists _, _. cbn [fst]. split; [done|]. cbn. by rewrite Hl.
Qed.


(** What every run of the upload handler preserves. *)
Lemma handleUpload_invariants env request w w' r :
  exec (handleUpload env request) w = (w', r) ->
  (single_instance w -> single_instance w') /\
  (is_Some (currentDeploymentHash w) -> is_Some (currentDeploymentHash w')).
Proof.
  destruct (headers_cases request) as [(h & p & e & n & Hvalid) | Hbad].
  2:{ destruct (handleUpload_rejected env request w Hbad) as [reason Heq].
      unfold exec. rewrite Heq. cbn. by intros [= <- _]. }
  rewrite (exec_handleUpload _ _ _ _ _ _ _ Hvalid).
  destruct (deploy env h n e request w) as [w0 r0] eqn:Hrun.
  intros Hw'. assert (w0 = w') as -> by (by destruct r0; simplify_eq).
  clear Hw'.
  apply deploy_inv in Hrun
    as [(er & Hmat & _) | (w1 & Hmat & [(_ & -> & _) | (w2 & Hstop & Hstart)])].
  - apply materialize_same_process in Hmat as Hsame.
    split; [by apply same_process_single_instance|].
    destruct Hsame as (_ & -> & _). done.
  - apply materialize_same_process in Hmat as Hsame.
    split; [by apply same_process_single_instance|].
    destruct Hsame as (_ & -> & _). done.
  - apply materialize_same_process in Hmat as Hsame.
    apply stopCurrentApp_ok in Hstop as (Hcur & Hhash & _ & _ & _ & Hnone).
    assert (single_instance w -> single_instance w2 /\ listening w2 = []) as H2.
    { intros Hone. apply (same_process_single_instance _ _ Hsame) in Hone.
      specialize (Hnone Hone). unfold single_instance. by rewrite Hcur, Hnone. }
    destruct Hsame as (_ & Hhash1 & _).
    apply startApp_inv in Hstart
      as [(er & _ & _ & ->) | (srv & _ & _ & _ & _ & Hpersist)].
    + split; [intros Hone; by destruct (H2 Hone) | congruence].
    + assert (single_instance (started srv h w2) -> single_instance w' )
        as Hkeep.
      { apply persist_inv in Hpersist as [(_ & Hs & _) | [_ ->]]; [|done].
        by apply same_process_single_instance. }
      assert (is_Some (currentDeploymentHash w')) as Hset.
      { apply persist_inv in Hpersist as [(_ & (_ & -> & _) & _) | [_ ->]];
          cbn; eauto. }
      split; [|done]. intros Hone. destruct (H2 Hone) as [_ Hnil]. apply Hkeep.
      unfold single_instance. cbn. by rewrite Hnil.
Qed.

Lemma fetch_invariants env request w w' r :
  exec (fetch env request) w = (w', r) ->
  (single_instance w -> single_instance w') /\
  (is_Some (currentDeploymentHash w) -> is_Some (currentDeploymentHash w')).
Proof.
  unfold fetch. destruct (_ && _).
  - apply handleUpload_invariants.
  - destruct (_ && _).
    + rewrite exec_abind, exec_sync. cbn. by intros [= <- _].
    + by intros [= <- _].
Qed.

Lemma serve_all_single_instance reqs w :
  single_instance w -> single_instance (serve_all reqs w).
Proof.
  unfold serve_all. revert w.
  induction reqs as [|[env request] reqs IH]; intros w Hone; [done|].
  cbn [foldl]. apply IH. cbn.
  destruct (exec (fetch env request) w) as [w' r] eqn:Hrun.
  by apply fetch_invariants in Hrun as [? _]; auto.
Qed.

Lemma recover_single_instance env w :
  currentAppServer w = None -> listening w = [] ->
  single_instance (exec (recover env) w).1.
Proof.
  intros Hcur Hl.
  assert (single_instance w) as Hone by (unfold single_instance; by rewrite Hcur, Hl).
  destruct (recover_cases env w) as [-> | (st & r & _ & _ & Hstart)]; [done|].
  apply startApp_inv in Hstart
    as [(er & _ & _ & ->) | (srv & _ & _ & _ & _ & Hpersist)]; [done|].
  apply persist_inv in Hpersist as [(_ & Hs & _) | [_ ->]].
  - apply (same_process_single_instance _ _ Hs).
    unfold single_instance. cbn. by rewrite Hl.
  - unfold single_instance. cbn. by rewrite Hl.
Qed.

End Routes.

(** ** The handlers cannot reject *)

Section Handlers.
Context `{!Runtime}.

Lemma handleUpload_never_throws env request :
  never_throws (handleUpload env request).
Proof.
  apply never_throws_try_catch. intros e. apply never_throws_ret.
Qed.

Lemma loadDeploymentState_never_throws env :
  never_throws (loadDeploymentState env).
Proof.
  apply never_throws_abind; [apply never_throws_gets|].
  intros found. destruct (negb found); [apply never_throws_ret|].
  apply never_throws_try_catch. intros e. apply never_throws_ret.
Qed.

End Handlers.

(** ** The two readings agree

    Resuming one handler until it settles, with nothing else scheduled,
    gives what [exec] gives. *)
Section Scheduler.
Context `{!Runtime}.

Lemma resume_to_completion (s : Susp Response) w (ts : list (Susp Response)) i :
  ts !! i = Some s ->
  exists n,
    run_schedule (repeat (Resume i) n) {| world := w; tasks := ts |} =
    {| world := (drain s w).1; tasks := <[i := Settled (drain s w).2]> ts |}.
Proof.
  revert w ts. induction s as [r | eff next IH]; intros w ts Hi.
  - exists 0%nat. cbn. by rewrite list_insert_id.
  - assert (i < length ts)%nat as Hlt by (by eapply lookup_lt_Some).
    destruct (IH w (eff w) (<[i := next w]> ts)) as [n Hn].
    { by apply list_lookup_insert_eq. }
    exists (S n). cbn [repeat run_schedule foldl step world tasks]. rewrite Hi.
    unfold run_schedule in Hn. rewrite Hn. cbn [drain].
    by rewrite list_insert_insert_eq.
Qed.

Lemma arrive_then_resume env request w :
  exists n,
    run_schedule (Arrive env request :: repeat (Resume 0%nat) n)
      {| world := w; tasks := [] |} =
    {| world := (exec (fetch env request) w).1;
       tasks := [Settled (exec (fetch env request) w).2] |}.
Proof.
  unfold exec. cbn [run_schedule foldl step world tasks app].
  destruct (fetch env request w) as [w' s].
  destruct (resume_to_completion s w' [s] 0%nat eq_refl) as [n Hn].
  exists n. exact Hn.
Qed.

End Scheduler.

(** * The claims *)

Section Claims.
Context `{!Runtime}.


(** C2 (amended).  When the start step fails before the new server is bound
    (entry file absent, module not loaded or without handler, port not bound)
    the handler answers 500, no server is bound and the handle is empty; the
    state file is as before the deploy provided the artifact directory and
    the temporary archive do not overlap with it, which
    [plain_version_apart] shows for every version identifier that is one
    ordinary path component other than [.state.json]. *)
Theorem failed_start_leaves_slot_empty env request w h p e n w1 w2 w3 er :
  valid_headers request h p e n ->
  unrelated (join DEPLOYMENTS_DIR h) STATE_FILE ->
  ~ STATE_FILE `prefix_of` tempFile_of h ->
  exec (materialize env h request) w = (w1, Ok tt) ->
  exec (stopCurrentApp env) w1 = (w2, Ok tt) ->
  exec (startApp env h n e) w2 = (w3, Err er) ->
  start_failure er ->
  exec (handleUpload env request) w =
    (w3, Ok {| status := 500; body := DeployFail er |}) /\
  currentAppServer w3 = None /\
  (forall s, s ∈ listening w3 -> s ∈ listening w) /\
  (single_instance w -> listening w3 = []) /\
  files w3 !! STATE_FILE = files w !! STATE_FILE.
Proof.
  intros Hvalid Hdir Htmp Hmat Hstop Hstart Her. split.
  { rewrite (exec_handleUpload _ _ _ _ _ _ _ Hvalid).
    unfold deploy, sbind. by rewrite Hmat, Hstop, Hstart. }
  apply startApp_err in Hstart as [[_ ->] | [-> _]]; [|done].
  pose proof (materialize_frame _ _ _ _ _ _ _ Hdir Htmp Hmat) as Hledger.
  apply materialize_same_process in Hmat as Hsame.
  apply stopCurrentApp_ok in Hstop as (Hcur & _ & Hfiles & _ & Hsub & Hnone).
  rewrite Hfiles. repeat split; try done.
  - destruct Hsame as (_ & _ & <- & _). exact Hsub.
  - intros Hone. by apply Hnone, (same_process_single_instance _ _ Hsame).
Qed.

(** C3 (amended).  When stopping the current server raises, the deploy is
    aborted: the handler answers 500 with that error and the start step does
    not run, so the process variables and the bound servers are as before
    the request. *)
Theorem stop_failure_aborts env request w h p e n w1 w2 er :
  valid_headers request h p e n ->
  exec (materialize env h request) w = (w1, Ok tt) ->
  exec (stopCurrentApp env) w1 = (w2, Err er) ->
  exec (handleUpload env request) w = (w1, Ok {| status := 500; body := DeployFail StopError |}) /\
  currentAppServer w1 = currentAppServer w /\
  is_Some (currentAppServer w1) /\
  currentDeploymentHash w1 = currentDeploymentHash w /\
  listening w1 = listening w.
Proof.
  intros Hvalid Hmat Hstop.
  destruct (stopCurrentApp_err _ _ _ _ Hstop) as (-> & -> & _ & Hsome).
  split.
  { rewrite (exec_handleUpload _ _ _ _ _ _ _ Hvalid).
    unfold deploy, sbind. by rewrite Hmat, Hstop. }
  apply materialize_same_process in Hmat as (? & ? & ? & _). auto.
Qed.

(** C4 (amended).  A deploy with valid headers is always answered, with 200
    or 500.  On 200 the new server is bound and current and its record is in
    the state file.  On 500 either the failure is the write of the state
    file, and then the new server is bound, current and serving, or no new
    server was bound: the handle is as before or empty, the bound servers
    are among those bound before, and the state file is untouched unless the
    artifact directory or the temporary archive overlaps with it. *)
Theorem deploy_outcomes env request w h p e n :
  valid_headers request h p e n ->
  exists w' resp,
    exec (handleUpload env request) w = (w', Ok resp) /\
    ((status resp = 200 /\
      body resp = DeployOk h n "部署成功" (duration env) /\
      exists srv, currentAppServer w' = Some srv /\ srv ∈ listening w' /\
        (single_instance w -> listening w' = [srv]) /\
        srv_port srv = bound_port env n /\
        files w' !! STATE_FILE =
          Some (File (JSON_stringify
                        {| hash := h; port := n; entrypoint := e;
                           timestamp := now env |})))
     \/
     (status resp = 500 /\
      body resp = DeployFail (FileWriteError STATE_FILE) /\
      exists srv, currentAppServer w' = Some srv /\ srv ∈ listening w' /\
        (single_instance w -> listening w' = [srv]) /\
        srv_port srv = bound_port env n /\ srv_id srv = next_id w)
     \/
     (status resp = 500 /\
      (exists er, body resp = DeployFail er) /\
      (currentAppServer w' = currentAppServer w \/ currentAppServer w' = None) /\
      (forall s, s ∈ listening w' -> s ∈ listening w) /\
      (unrelated (join DEPLOYMENTS_DIR h) STATE_FILE ->
       ~ STATE_FILE `prefix_of` tempFile_of h ->
       files w' !! STATE_FILE = files w !! STATE_FILE))).
Proof.
  intros Hvalid.
  rewrite (exec_handleUpload _ _ _ _ _ _ _ Hvalid).
  destruct (deploy env h n e request w) as [w' r] eqn:Hrun.
  apply deploy_inv in Hrun
    as [(er & Hmat & ->) | (w1 & Hmat & [(Hstop & -> & ->) | (w2 & Hstop & Hstart)])].
  - (* materialising failed *)
    exists w', (failed er). split; [done|]. do 2 right.
    split; [done|]. split; [by eexists|].
    pose proof (materialize_same_process _ _ _ _ _ _ Hmat) as (Hc & _ & Hl & _).
    split; [by left|]. split; [by rewrite Hl|].
    intros Hdir Htmp. by apply (materialize_frame _ _ _ _ _ _ _ Hdir Htmp Hmat).
  - (* stopping failed *)
    exists w1, (failed StopError). split; [done|]. do 2 right.
    split; [done|]. split; [by eexists|].
    pose proof (materialize_same_process _ _ _ _ _ _ Hmat) as (Hc & _ & Hl & _).
    split; [by left|]. split; [by rewrite Hl|].
    intros Hdir Htmp. by apply (materialize_frame _ _ _ _ _ _ _ Hdir Htmp Hmat).
  - pose proof (materialize_same_process _ _ _ _ _ _ Hmat) as Hsame.
    assert (single_instance w -> single_instance w1) as Hone1
      by apply (same_process_single_instance _ _ Hsame).
    destruct Hsame as (_ & _ & Hl1 & Hid1).
    apply stopCurrentApp_ok in Hstop as (Hcur & _ & Hfiles & Hid2 & Hsub & Hnone).
    destruct r as [[]|er].
    + (* started and persisted *)
      exists w', (deployed env h n). split; [done|]. left.
      split; [done|]. split; [done|].
      apply startApp_ok in Hstart as (srv & Hp & _ & Hc & _ & Hl & Hf).
      exists srv. rewrite Hl. repeat split; try done; [left|].
      intros Hone. by rewrite (Hnone (Hone1 Hone)).
    + exists w', (failed er). split; [done|].
      apply startApp_err in Hstart as [[_ ->] | (-> & srv & Hp & Hid & ->)].
      * (* not started *)
        do 2 right. split; [done|]. split; [by eexists|].
        split; [by right|]. split; [by rewrite <- Hl1|].
        intros Hdir Htmp. rewrite Hfiles.
        by apply (materialize_frame _ _ _ _ _ _ _ Hdir Htmp Hmat).
      * (* started, state file not written *)
        right; left. split; [done|]. split; [done|].
        exists srv. cbn. repeat split; try done; [left | | congruence].
        intros Hone. by rewrite (Hnone (Hone1 Hone)).
Qed.




(** C8 (amended).  The source has no mutual exclusion.  What holds is the
    sequential case: after the recovery routine and any number of requests,
    each handled to completion before the next one starts, the only server
    bound is the one the handle names, so at most one is bound. *)
Theorem serial_deploys_single_instance env0 reqs w :
  currentAppServer w = None ->
  listening w = [] ->
  single_instance (serve_all reqs (exec (recover env0) w).1) /\
  (length (listening (serve_all reqs (exec (recover env0) w).1)) <= 1)%nat.
Proof.
  intros Hcur Hl.
  assert (single_instance (serve_all reqs (exec (recover env0) w).1)) as Hone.
  { apply serve_all_single_instance. by apply recover_single_instance. }
  split; [done|]. unfold single_instance in Hone. rewrite Hone.
  destruct (currentAppServer (serve_all _ _)); simpl; lia.
Qed.


(** C10.  When the recovery routine finds a record whose artifact directory
    exists and its [startApp] succeeds, the state file is rewritten: it then
    holds the serialised record with the loaded hash, port and entry point
    and the time of the recovery as timestamp. *)
Theorem recover_rewrites_ledger env w st w' :
  exec (loadDeploymentState env) w = (w, Ok (Some (Typed st))) ->
  existsSync (files w) (join DEPLOYMENTS_DIR (hash st)) = true ->
  exec (startApp env (hash st) (port st) (entrypoint st)) w = (w', Ok tt) ->
  exec (recover env) w = (w', Ok tt) /\
  files w' !! STATE_FILE =
    Some (File (JSON_stringify
                  {| hash := hash st; port := port st;
                     entrypoint := entrypoint st; timestamp := now env |})).
Proof.
  rewrite exec_loadDeploymentState. intros [= Hrec] Hdir Hstart. split.
  - by rewrite exec_recover, Hrec, Hdir, Hstart.
  - by apply startApp_ok in Hstart as (srv & _ & _ & _ & _ & _ & Hf).
Qed.

End Claims.

(** * The model on concrete runs *)

Module Examples.
Import Sample.
#[local] Existing Instance Sample.runtime.

Ltac run := vm_compute; first [reflexivity | congruence].
Ltac runs :=
  intros; unfold valid_headers;
  repeat (match goal with |- _ /\ _ => split end); run.

(** A version identifier as the client generates them is apart from the
    state file. *)
Lemma v2_apart_from_state_file :
  unrelated (join DEPLOYMENTS_DIR "v2") STATE_FILE /\
  ~ STATE_FILE `prefix_of` tempFile_of "v2".
Proof. apply plain_version_apart; [by repeat split | done]. Qed.



(** C2: with the name of the state file as version identifier, the start
    step fails on the missing entry file and the record of [v1] is gone. *)
Lemma ledger_overwritten_counterexample :
  let w := running_v1 in
  let wm := after (materialize all_ok ".state.json" req_state_name) w in
  let ws := after (stopCurrentApp all_ok) wm in
  let w' := after (handleUpload all_ok req_state_name) w in
  let missing :=
    EntrypointNotFound ["app"; "deployments"; ".state.json"; "index.js"] in
  exec (materialize all_ok ".state.json" req_state_name) w = (wm, Ok tt) /\
  exec (stopCurrentApp all_ok) wm = (ws, Ok tt) /\
  exec (startApp all_ok ".state.json" 3000 "index.js") ws = (w', Err missing) /\
  exec (handleUpload all_ok req_state_name) w = (w', Ok {| status := 500; body := DeployFail missing |}) /\
  files w !! STATE_FILE =
    Some (File "v1|3000|index.js|2025-01-01T00:00:00.000Z") /\
  files w' !! STATE_FILE = Some Dir /\
  files w' !! STATE_FILE <> files w !! STATE_FILE.
Proof. runs. Qed.

Lemma failed_start_witness :
  let w' := after (handleUpload all_ok req_no_entry) running_v1 in
  exec (handleUpload all_ok req_no_entry) running_v1 =
    (w', Ok {| status := 500;
               body := DeployFail (EntrypointNotFound
                         ["app"; "deployments"; "v2"; "index.js"]) |}) /\
  currentAppServer w' = None /\
  (forall s, s ∈ listening w' -> s ∈ listening running_v1) /\
  (single_instance running_v1 -> listening w' = []) /\
  files w' !! STATE_FILE = files running_v1 !! STATE_FILE.
Proof.
  apply (failed_start_leaves_slot_empty all_ok req_no_entry running_v1
           "v2" "3001" "index.js" 3001
           (after (materialize all_ok "v2" req_no_entry) running_v1)
           (after (stopCurrentApp all_ok)
              (after (materialize all_ok "v2" req_no_entry) running_v1))).
  - runs.
  - split; apply (proj1 (bool_decide_eq_false _)); run.
  - apply (proj1 (bool_decide_eq_false _)); run.
  - run.
  - run.
  - run.
  - exact I.
Defined.

(** C3: the running server refuses to stop; the deploy of [v2] is answered
    500 and [v1] stays the current, bound server. *)
Lemma stop_failure_counterexample :
  let env := env_with false true in
  let wm := after (materialize env "v2" req_v2) running_v1 in
  let w' := after (handleUpload env req_v2) running_v1 in
  exec (materialize env "v2" req_v2) running_v1 = (wm, Ok tt) /\
  exec (stopCurrentApp env) wm = (wm, Err StopError) /\
  exec (handleUpload env req_v2) running_v1 =
    (w', Ok {| status := 500; body := DeployFail StopError |}) /\
  currentDeploymentHash w' = Some "v1" /\
  listening w' = listening running_v1 /\
  files w' !! join (join DEPLOYMENTS_DIR "v2") "index.js" = Some (File "code").
Proof. runs. Qed.

Lemma stop_failure_witness :
  let env := env_with false true in
  let wm := after (materialize env "v2" req_v2) running_v1 in
  exec (handleUpload env req_v2) running_v1 = (wm, Ok {| status := 500; body := DeployFail StopError |}) /\
  currentAppServer wm = currentAppServer running_v1 /\
  is_Some (currentAppServer wm) /\
  currentDeploymentHash wm = currentDeploymentHash running_v1 /\
  listening wm = listening running_v1.
Proof.
  apply (stop_failure_aborts (env_with false true) req_v2 running_v1
           "v2" "3001" "index.js" 3001
           (after (materialize (env_with false true) "v2" req_v2) running_v1)
           (after (materialize (env_with false true) "v2" req_v2) running_v1)
           StopError).
  - runs.
  - run.
  - run.
Defined.

(** C4: the state file cannot be written; the deploy of [v2] is answered 500
    while its server is bound on 3001 and is the current one. *)
Lemma serving_but_failed_counterexample :
  let env := env_with true false in
  let w' := after (handleUpload env req_v2) running_v1 in
  let srv := {| srv_id := 1; srv_port := 3001; srv_fetch := 1%nat |} in
  exec (handleUpload env req_v2) running_v1 =
    (w', Ok {| status := 500;
               body := DeployFail (FileWriteError STATE_FILE) |}) /\
  currentAppServer w' = Some srv /\
  listening w' = [srv] /\
  (srv ∉ listening running_v1) /\
  currentDeploymentHash w' = Some "v2".
Proof.
  intros; repeat (match goal with |- _ /\ _ => split end); try run.
  intros Hin. apply list_elem_of_In in Hin. vm_compute in Hin.
  destruct Hin as [Heq | []]. discriminate Heq.
Qed.

Lemma deploy_outcomes_witness :
  exists w' resp,
    exec (handleUpload all_ok req_v2) running_v1 = (w', Ok resp) /\
    ((status resp = 200 /\
      body resp = DeployOk "v2" 3001 "部署成功" (duration all_ok) /\
      exists srv, currentAppServer w' = Some srv /\ srv ∈ listening w' /\
        (single_instance running_v1 -> listening w' = [srv]) /\
        srv_port srv = 3001 /\
        files w' !! STATE_FILE =
          Some (File (JSON_stringify
                        {| hash := "v2"; port := 3001; entrypoint := "index.js";
                           timestamp := now all_ok |})))
     \/
     (status resp = 500 /\
      body resp = DeployFail (FileWriteError STATE_FILE) /\
      exists srv, currentAppServer w' = Some srv /\ srv ∈ listening w' /\
        (single_instance running_v1 -> listening w' = [srv]) /\
        srv_port srv = 3001 /\ srv_id srv = next_id running_v1)
     \/
     (status resp = 500 /\
      (exists er, body resp = DeployFail er) /\
      (currentAppServer w' = currentAppServer running_v1
       \/ currentAppServer w' = None) /\
      (forall s, s ∈ listening w' -> s ∈ listening running_v1) /\
      (unrelated (join DEPLOYMENTS_DIR "v2") STATE_FILE ->
       ~ STATE_FILE `prefix_of` tempFile_of "v2" ->
       files w' !! STATE_FILE = files running_v1 !! STATE_FILE))).
Proof.
  apply (deploy_outcomes all_ok req_v2 running_v1 "v2" "3001" "index.js" 3001).
  runs.
Defined.






Lemma recover_restores_v1 :
  exec (loadDeploymentState all_ok) restarted =
    (restarted,
     Ok (Some (Typed {| hash := "v1"; port := 3000; entrypoint := "index.js";
                        timestamp := "2025-01-01T00:00:00.000Z" |}))) /\
  currentAppServer (after (recover all_ok) restarted) =
    Some {| srv_id := 0; srv_port := 3000; srv_fetch := 1%nat |} /\
  currentDeploymentHash (after (recover all_ok) restarted) = Some "v1".
Proof. runs. Qed.

(** C8: two uploads interleaved at their await points both succeed and leave
    two servers bound, one of which no handle names any more. *)
Lemma concurrent_uploads_counterexample :
  let p := run_schedule race {| world := fresh; tasks := [] |} in
  let a := {| srv_id := 0; srv_port := 3000; srv_fetch := 1%nat |} in
  let b := {| srv_id := 1; srv_port := 3001; srv_fetch := 1%nat |} in
  response_status <$> tasks p = [Some 200; Some 200] /\
  listening (world p) = [b; a] /\
  currentAppServer (world p) = Some b /\
  ~ single_instance (world p).
Proof.
  intros p a b. split; [run|]. split; [run|]. split; [run|].
  unfold single_instance. run.
Qed.

Lemma serial_deploys_witness :
  let w' := serve_all [(all_ok, req_v1); (env_with false true, req_v2);
                       (all_ok, req_v2)]
              (exec (recover all_ok) fresh).1 in
  single_instance w' /\ (length (listening w') <= 1)%nat.
Proof.
  apply (serial_deploys_single_instance all_ok
           [(all_ok, req_v1); (env_with false true, req_v2); (all_ok, req_v2)]
           fresh); reflexivity.
Defined.



(** C10: the recovery of [v1] at a later time. *)
Lemma recover_rewrites_ledger_witness :
  let env := {| write_temp_ok := true; rm_rf_ok := true; mkdir_ok := true;
                tar_ok := true; rm_temp_ok := true; stop_ok := true;
                import_result := import_result all_ok; serve_ok := true;
                assigned_port := 65535;
                now := "2025-02-02T00:00:00.000Z";
                write_state_ok := true; read_state_ok := true;
                duration := "0.10"; uptime := "1" |} in
  let st := {| hash := "v1"; port := 3000; entrypoint := "index.js";
               timestamp := "2025-01-01T00:00:00.000Z" |} in
  let w' := after (recover env) restarted in
  files restarted !! STATE_FILE = Some (File (JSON_stringify st)) /\
  exec (recover env) restarted = (w', Ok tt) /\
  files w' !! STATE_FILE =
    Some (File (JSON_stringify
                  {| hash := "v1"; port := 3000; entrypoint := "index.js";
                     timestamp := "2025-02-02T00:00:00.000Z" |})).
Proof.
  intros env st w'. split; [run|].
  apply (recover_rewrites_ledger env restarted st w').
  - run.
  - run.
  - run.
Defined.

End Examples.

(** * Further properties of the server and of the client *)

(** ** The port, written and read *)

Lemma parse_digits_value s v :
  parse_digits 10 s (Some v) = Some (digits_value s v).
Proof.
  revert v. induction s as [|c s IH]; intros v; [done|]. cbn.
  destruct (radix_digit 10 c); [apply IH | done].
Qed.

Lemma parse_digits_start c s :
  is_decimal c = true ->
  parse_digits 10 (String c s) None = Some (digits_value (String c s) 0).
Proof.
  unfold is_decimal. cbn. destruct (radix_digit 10 c); [|done]. intros _.
  apply parse_digits_value.
Qed.

Lemma radix_digit_digit_char d :
  0 <= d <= 9 -> radix_digit 10 (digit_char d) = Some d.
Proof.
  intros Hd.
  assert (d = 0 \/ d = 1 \/ d = 2 \/ d = 3 \/ d = 4 \/ d = 5 \/ d = 6 \/ d = 7
          \/ d = 8 \/ d = 9) as Hcases by lia.
  repeat (destruct Hcases as [-> | Hcases]; [reflexivity|]). by subst.
Qed.

Lemma decimal_digits_value fuel n acc :
  0 <= n < 2 ^ Z.of_nat fuel ->
  digits_value (decimal_digits fuel n acc) 0 = digits_value acc n.
Proof.
  revert n acc. induction fuel as [|fuel IH]; intros n acc Hn.
  - cbn in *. by replace n with 0 by lia.
  - cbn [decimal_digits].
    assert (0 <= n mod 10 <= 9) as Hd by (pose proof (Z.mod_pos_bound n 10); lia).
    assert (n = 10 * (n / 10) + n mod 10) as Hdiv by (apply Z.div_mod; lia).
    destruct (n / 10 =? 0) eqn:Hq.
    + apply Z.eqb_eq in Hq. cbn [digits_value].
      rewrite radix_digit_digit_char by done. f_equal. lia.
    + rewrite IH.
      * cbn [digits_value]. rewrite radix_digit_digit_char by done. f_equal. lia.
      * rewrite Nat2Z.inj_succ, Z.pow_succ_r in Hn by lia.
        split; [apply Z.div_pos; lia|].
        apply Z.div_lt_upper_bound; lia.
Qed.

Lemma all_decimal_decimal_digits fuel n acc :
  0 <= n -> all_decimal acc = true ->
  all_decimal (decimal_digits fuel n acc) = true.
Proof.
  revert n acc. induction fuel as [|fuel IH]; intros n acc Hn Hacc; [done|].
  cbn [decimal_digits].
  assert (all_decimal (String (digit_char (n mod 10)) acc) = true) as Hacc'.
  { cbn. unfold is_decimal. rewrite radix_digit_digit_char, Hacc; [done|].
    pose proof (Z.mod_pos_bound n 10); lia. }
  destruct (n / 10 =? 0); [done|]. apply IH; [|done]. apply Z.div_pos; lia.
Qed.

Lemma decimal_digits_nonempty fuel n acc :
  decimal_digits (S fuel) n acc <> "".
Proof.
  revert n acc. induction fuel as [|fuel IH]; intros n acc; cbn [decimal_digits].
  - by destruct (n / 10 =? 0).
  - destruct (n / 10 =? 0); [done|]. apply IH.
Qed.

Lemma log2_fuel n : 0 <= n -> 0 <= n < 2 ^ Z.of_nat (S (Z.to_nat (Z.log2 n))).
Proof.
  intros Hn. split; [done|].
  rewrite Nat2Z.inj_succ, Z2Nat.id by apply Z.log2_nonneg.
  destruct (decide (n = 0)) as [->|]; [done|].
  apply Z.log2_spec. lia.
Qed.

(** A decimal digit is neither white space nor a sign. *)
Lemma decimal_not_blank c :
  is_decimal c = true ->
  is_white_space c = false /\ strip_sign (String c "") = (1, String c "").
Proof.
  destruct c as [[] [] [] [] [] [] [] []]; vm_compute; (done || by intros).
Qed.

Lemma parseInt_decimal_string s :
  s <> "" -> all_decimal s = true -> parseInt s = Num (digits_value s 0).
Proof.
  destruct s as [|c s]; [done|]. intros _. cbn [all_decimal].
  intros [Hc Hs]%andb_true_iff. unfold parseInt.
  assert (trim_start (String c s) = String c s) as ->.
  { cbn. by rewrite (proj1 (decimal_not_blank c Hc)). }
  assert (strip_sign (String c s) = (1, String c s)) as ->.
  { pose proof (proj2 (decimal_not_blank c Hc)) as Hsign.
    destruct c as [[] [] [] [] [] [] [] []]; try done. }
  assert (strip_hex_prefix (String c s) = (10, String c s)) as ->.
  { destruct s as [|c2 s]; [by destruct c as [[] [] [] [] [] [] [] []]|].
    cbn [all_decimal] in Hs. apply andb_true_iff in Hs as [Hc2 _].
    destruct c as [[] [] [] [] [] [] [] []]; try done.
    destruct c2 as [[] [] [] [] [] [] [] []]; try done. }
  rewrite parse_digits_start by done. f_equal. lia.
Qed.

Lemma decimal_unsigned s :
  s <> "" -> all_decimal s = true ->
  strip_hex_prefix s = (10, s) /\
  parse_digits 10 s None = Some (digits_value s 0).
Proof.
  destruct s as [|c s]; [done|]. intros _. cbn [all_decimal].
  intros [Hc Hs]%andb_true_iff. split; [|by apply parse_digits_start].
  destruct s as [|c2 s]; [by destruct c as [[] [] [] [] [] [] [] []]|].
  cbn [all_decimal] in Hs. apply andb_true_iff in Hs as [Hc2 _].
  destruct c as [[] [] [] [] [] [] [] []]; try done.
  destruct c2 as [[] [] [] [] [] [] [] []]; try done.
Qed.

Lemma parseInt_rendering n : parseInt (Number_toString n) = Num n.
Proof.
  unfold Number_toString. destruct (n <? 0) eqn:Hneg.
  - apply Z.ltb_lt in Hneg.
    set (D := decimal_digits (S (Z.to_nat (Z.log2 (- n)))) (- n) "").
    assert (D <> "") as Hne by apply decimal_digits_nonempty.
    assert (all_decimal D = true) as Hall
      by (apply all_decimal_decimal_digits; [lia | done]).
    destruct (decimal_unsigned D Hne Hall) as [Hhex Hparse].
    unfold parseInt. cbn [trim_start]. change (is_white_space "-") with false.
    cbn [strip_sign]. rewrite Hhex, Hparse. f_equal.
    unfold D. rewrite decimal_digits_value by (apply log2_fuel; lia).
    cbn. lia.
  - apply Z.ltb_ge in Hneg.
    rewrite parseInt_decimal_string.
    + f_equal. by rewrite decimal_digits_value by (by apply log2_fuel).
    + apply decimal_digits_nonempty.
    + by apply all_decimal_decimal_digits.
Qed.

(** X1.  The port the client renders with [toString] is read back by the
    server's [parseInt] as the same number, for every safe integer. *)
Theorem parseInt_Number_toString n :
  Z.abs n < 2 ^ 53 -> parseInt (Number_toString n) = Num n.
Proof. intros _. apply parseInt_rendering. Qed.

Lemma digits_value_app s c r v :
  all_decimal s = true -> is_decimal c = false ->
  digits_value (s +:+ String c r) v = digits_value s v.
Proof.
  unfold is_decimal. intros Hs Hc. revert v.
  induction s as [|c0 s IH]; intros v.
  - change ("" +:+ String c r) with (String c r). cbn [digits_value].
    by destruct (radix_digit 10 c).
  - change (String c0 s +:+ String c r) with (String c0 (s +:+ String c r)).
    cbn [digits_value]. cbn [all_decimal] in Hs. apply andb_true_iff in Hs as [Hc0 Hs].
    unfold is_decimal in Hc0.
    destruct (radix_digit 10 c0); [by apply IH | done].
Qed.

Lemma all_decimal_app_head s c r :
  s <> "" -> all_decimal s = true ->
  exists c0 s0, s = String c0 s0 /\ is_decimal c0 = true /\
    s +:+ String c r = String c0 (s0 +:+ String c r).
Proof.
  destruct s as [|c0 s0]; [done|]. intros _ [Hc0 _]%andb_true_iff. eauto.
Qed.

(** X2.  [parseInt] reads the leading decimal digits and ignores what
    follows the first other character: a port header such as [3000/tcp] is
    accepted as 3000.  ([0x] and [0X] start a hexadecimal number instead.) *)
Theorem parseInt_ignores_suffix s c r :
  s <> "" -> all_decimal s = true -> is_decimal c = false ->
  ~ (s = "0" /\ (c = "x" \/ c = "X")%char) ->
  parseInt (s +:+ String c r) = parseInt s.
Proof.
  intros Hne Hall Hc Hhex. rewrite (parseInt_decimal_string s) by done.
  destruct s as [|c0 s0]; [done|]. cbn [all_decimal] in Hall.
  apply andb_true_iff in Hall as [Hc0 Hs0].
  change (String c0 s0 +:+ String c r) with (String c0 (s0 +:+ String c r)).
  unfold parseInt.
  assert (trim_start (String c0 (s0 +:+ String c r))
          = String c0 (s0 +:+ String c r)) as ->.
  { cbn. by rewrite (proj1 (decimal_not_blank c0 Hc0)). }
  assert (strip_sign (String c0 (s0 +:+ String c r))
          = (1, String c0 (s0 +:+ String c r))) as ->.
  { pose proof (proj2 (decimal_not_blank c0 Hc0)) as Hsign.
    destruct c0 as [[] [] [] [] [] [] [] []]; try done. }
  assert (strip_hex_prefix (String c0 (s0 +:+ String c r))
          = (10, String c0 (s0 +:+ String c r))) as ->.
  { destruct s0 as [|c2 s0].
    - cbn. destruct c0 as [[] [] [] [] [] [] [] []]; try done.
      destruct c as [[] [] [] [] [] [] [] []]; try done;
        exfalso; apply Hhex; auto.
    - cbn [all_decimal] in Hs0. apply andb_true_iff in Hs0 as [Hc2 _].
      cbn. destruct c0 as [[] [] [] [] [] [] [] []]; try done.
      destruct c2 as [[] [] [] [] [] [] [] []]; try done. }
  rewrite parse_digits_start by done. f_equal.
  change (String c0 (s0 +:+ String c r)) with (String c0 s0 +:+ String c r).
  rewrite digits_value_app; [lia | | done].
  cbn. by rewrite Hc0, Hs0.
Qed.

Section ServerExtras.
Context `{!Runtime}.

Lemma fetch_never_throws env request : never_throws (fetch env request).
Proof.
  unfold fetch. destruct (_ && _); [apply handleUpload_never_throws|].
  destruct (_ && _); [|apply never_throws_ret].
  apply never_throws_abind; [apply never_throws_gets|].
  intros cur. apply never_throws_ret.
Qed.

Lemma andb_bool_decide_false (P Q : Prop) `{!Decision P, !Decision Q} :
  ~ (P /\ Q) -> bool_decide P && bool_decide Q = false.
Proof.
  intros Hpq. apply andb_false_iff.
  destruct (decide P); [right | left]; apply bool_decide_eq_false; tauto.
Qed.

Lemma handleUpload_status env request w w' resp :
  exec (handleUpload env request) w = (w', Ok resp) ->
  status resp = 200 \/ status resp = 400 \/ status resp = 500.
Proof.
  intros Hrun.
  destruct (headers_cases request) as [(h & p & e & n & Hvalid) | Hbad].
  - rewrite (exec_handleUpload _ _ _ _ _ _ _ Hvalid) in Hrun.
    destruct (deploy env h n e request w) as [w0 [[]|er]];
      injection Hrun as <- <-; cbn; auto.
  - destruct (handleUpload_rejected env request w Hbad) as [reason Heq].
    unfold exec in Hrun. rewrite Heq in Hrun. cbn in Hrun.
    injection Hrun as <- <-. cbn. auto.
Qed.

(** X3.  A request that is neither [POST /upload] nor [GET /status] is
    answered 404 [Not Found] at once and changes nothing; and 404 is the
    answer to no other request. *)
Theorem unknown_route env request w :
  (~ (req_pathname request = "/upload" /\ req_method request = "POST") ->
   ~ (req_pathname request = "/status" /\ req_method request = "GET") ->
   fetch env request w =
     (w, Settled (Ok {| status := 404; body := Text "Not Found" |}))) /\
  (forall w' resp,
     exec (fetch env request) w = (w', Ok resp) -> status resp = 404 ->
     ~ (req_pathname request = "/upload" /\ req_method request = "POST") /\
     ~ (req_pathname request = "/status" /\ req_method request = "GET")).
Proof.
  split.
  - intros Hup Hst. unfold fetch.
    rewrite andb_bool_decide_false by done.
    by rewrite andb_bool_decide_false by done.
  - intros w' resp. unfold fetch.
    destruct (bool_decide (req_pathname request = "/upload")
              && bool_decide (req_method request = "POST")) eqn:Hup.
    { intros Hrun%handleUpload_status. lia. }
    destruct (bool_decide (req_pathname request = "/status")
              && bool_decide (req_method request = "GET")) eqn:Hst.
    { rewrite exec_abind, exec_sync. cbn. intros [= _ <-]. done. }
    intros _ _. apply andb_false_iff in Hup, Hst.
    split; intros [H1 H2].
    + destruct Hup as [Hup | Hup]; by apply bool_decide_eq_false in Hup.
    + destruct Hst as [Hst | Hst]; by apply bool_decide_eq_false in Hst.
Qed.

Lemma drain_never_rejects {A} (s : Susp A) w :
  never_rejects s -> exists w' a, drain s w = (w', Ok a).
Proof.
  revert w. induction s as [[a|e] | eff next IH]; intros w Hs; cbn.
  - eauto.
  - done.
  - apply IH, Hs.
Qed.

Lemma exec_fetch_answers env request w :
  exists w' resp, exec (fetch env request) w = (w', Ok resp).
Proof.
  pose proof (fetch_never_throws env request w) as Hs.
  unfold exec. destruct (fetch env request w) as [w0 s].
  by apply drain_never_rejects.
Qed.

(** X4.  The handler of the upload server never rejects, at any await
    point and in any world, and run to completion it answers with a
    response. *)
Theorem fetch_always_answers env request w :
  never_throws (fetch env request) /\
  exists w' resp, exec (fetch env request) w = (w', Ok resp).
Proof. split; [apply fetch_never_throws | apply exec_fetch_answers]. Qed.

(** X5.  When one of the three headers is absent or empty the upload is
    answered 400 with the text for missing information, whatever the port
    header says; when the three are present and the port does not parse, 400
    with the text for an invalid port.  Nothing changes in either case. *)
Theorem rejection_reasons env request w :
  (truthy (headers_get request "X-Deploy-Hash") = false \/
   truthy (headers_get request "X-Deploy-Port") = false \/
   truthy (headers_get request "X-Deploy-Entrypoint") = false ->
   handleUpload env request w =
     (w, Settled (Ok {| status := 400; body := Text "缺少必要的部署信息" |}))) /\
  (forall h p e,
     headers_get request "X-Deploy-Hash" = Some h -> h <> "" ->
     headers_get request "X-Deploy-Port" = Some p -> p <> "" ->
     headers_get request "X-Deploy-Entrypoint" = Some e -> e <> "" ->
     parseInt p = NaN ->
     handleUpload env request w =
       (w, Settled (Ok {| status := 400; body := Text "无效的端口号" |}))).
Proof.
  split.
  - intros Hmiss. unfold handleUpload, try_catch.
    destruct Hmiss as [-> | [-> | ->]]; cbn [negb orb];
      rewrite ?orb_true_r; reflexivity.
  - intros h p e Hh Hh' Hp Hp' He He' Hnan. unfold handleUpload, try_catch.
    rewrite Hh, Hp, He, !truthy_Some by done.
    cbn [negb orb default from_option id]. by rewrite Hnan.
Qed.


(** ** The temporary archive *)

Lemma materialize_rm_temp env h request w w' :
  exec (materialize env h request) w = (w', Ok tt) ->
  files w' !! tempFile_of h = None.
Proof.
  intros Hmat.
  apply materialize_ok in Hmat
    as (bytes & f1 & f3 & bytes' & members & _ & _ & _ & _ & _ & _ & Hrm).
  unfold rm_file in Hrm. destruct (is_file _ _); [|done].
  injection Hrm as <-. apply lookup_delete_eq.
Qed.

Lemma materialize_tar_failed env h request w w' :
  exec (materialize env h request) w = (w', Err (ShellError "tar -xzf")) ->
  exists bytes f1 f3,
    req_body request = Some bytes /\
    write_file (files w) (tempFile_of h) bytes = Some f1 /\
    mkdir_p (if existsSync f1 (join DEPLOYMENTS_DIR h)
             then rm_rf f1 (join DEPLOYMENTS_DIR h) else f1)
      (join DEPLOYMENTS_DIR h) = Some f3 /\
    files w' = f3.
Proof.
  rewrite exec_materialize. unfold materialize_sync. intros Hrun.
  set (tmp := tempFile_of h) in *. set (dp := join DEPLOYMENTS_DIR h) in *.
  apply sbind_inv in Hrun as [(w0 & bytes & Hbody & Hrun) | (? & Hbody & [= <-])].
  2:{ unfold request_arrayBuffer in Hbody. by destruct (req_body request). }
  unfold request_arrayBuffer in Hbody.
  destruct (req_body request) as [b|] eqn:Hb; [|done].
  injection Hbody as <- <-.
  apply sbind_inv in Hrun as [(w1 & [] & Hwrite & Hrun) | (? & Hwrite & [= <-])].
  2:{ by apply fs_op_inv in Hwrite as [(? & _ & _ & ?) | [_ ?]]. }
  apply fs_op_inv in Hwrite as [(f1 & Hwrite & -> & _) | [_ ?]]; [|done].
  apply sbind_inv in Hrun as [(w2 & found & Hfound & Hrun) | (? & ? & _)]; [|done].
  injection Hfound as <- <-. cbn [files set_files] in Hrun.
  apply sbind_inv in Hrun as [(w3 & [] & Hrm & Hrun) | (? & Hrm & [= <-])].
  2:{ destruct (existsSync f1 dp); [|done].
      by apply fs_op_inv in Hrm as [(? & _ & _ & ?) | [_ ?]]. }
  apply sbind_inv in Hrun as [(w4 & [] & Hmk & Hrun) | (? & Hmk & [= <-])].
  2:{ by apply fs_op_inv in Hmk as [(? & _ & _ & ?) | [_ ?]]. }
  apply fs_op_inv in Hmk as [(f3 & Hmk & -> & _) | [_ ?]]; [|done].
  apply sbind_inv in Hrun as [(w5 & [] & Htar & Hrun) | (? & Htar & _)].
  { by apply fs_op_inv in Hrun as [(? & _ & _ & ?) | [_ ?]]. }
  apply fs_op_inv in Htar as [(? & _ & _ & ?) | [-> _]]; [done|].
  exists b, f1, f3. repeat split; try done.
  destruct (existsSync f1 dp).
  - apply fs_op_inv in Hrm as [(f2 & [= <-] & -> & _) | [_ ?]]; done.
  - by injection Hrm as <-.
Qed.

(** X6.  After a successful materialisation the temporary archive is
    gone.  When [tar -xzf] fails it is left behind with the uploaded bytes,
    provided it does not lie in the artifact directory. *)
Theorem temporary_archive_lifecycle env h request w w' :
  (exec (materialize env h request) w = (w', Ok tt) ->
   files w' !! tempFile_of h = None) /\
  (exec (materialize env h request) w = (w', Err (ShellError "tar -xzf")) ->
   ~ join DEPLOYMENTS_DIR h `prefix_of` tempFile_of h ->
   exists bytes,
     req_body request = Some bytes /\
     files w' !! tempFile_of h = Some (File bytes)).
Proof.
  split; [apply materialize_rm_temp|]. intros Hmat Hapart.
  apply materialize_tar_failed in Hmat
    as (bytes & f1 & f3 & Hbody & Hwrite & Hmk & ->).
  exists bytes. split; [done|].
  apply (mkdir_p_keeps_file _ _ _ _ _ Hmk).
  apply write_file_self in Hwrite.
  destruct (existsSync f1 _); [|done]. by rewrite rm_rf_frame.
Qed.


(** ** What a deploy writes *)

Lemma persist_files env h p e w w' r :
  persist env h p e w = (w', r) ->
  same_process w w' /\
  (files w' = files w \/
   write_file (files w) STATE_FILE (JSON_stringify (descriptor env h p e))
     = Some (files w')).
Proof.
  unfold persist, Bun_write. intros Hrun.
  apply fs_op_inv in Hrun as [(f' & Hw & -> & _) | [-> _]].
  - split; [by unfold same_process | by right].
  - split; [by unfold same_process | by left].
Qed.

Lemma startApp_files env h p e w w' r :
  exec (startApp env h p e) w = (w', r) ->
  files w' = files w \/
  write_file (files w) STATE_FILE (JSON_stringify (descriptor env h p e))
    = Some (files w').
Proof.
  intros Hrun.
  apply startApp_inv in Hrun as [(er & _ & _ & ->) | (srv & _ & _ & _ & _ & Hp)];
    [by left|].
  by apply persist_files in Hp as [_ ?].
Qed.

Lemma stopCurrentApp_files env w w' r :
  exec (stopCurrentApp env) w = (w', r) -> files w' = files w.
Proof.
  destruct r as [[]|e]; intros Hrun.
  - by apply stopCurrentApp_ok in Hrun as (_ & _ & ? & _).
  - by apply stopCurrentApp_err in Hrun as (-> & _).
Qed.

Lemma handleUpload_frame env request w w' r q :
  exec (handleUpload env request) w = (w', r) ->
  (forall h, headers_get request "X-Deploy-Hash" = Some h ->
     unrelated (join DEPLOYMENTS_DIR h) q /\ ~ q `prefix_of` tempFile_of h) ->
  ~ q `prefix_of` STATE_FILE ->
  files w' !! q = files w !! q.
Proof.
  intros Hrun Hq Hstate.
  destruct (headers_cases request) as [(h & p & e & n & Hvalid) | Hbad].
  2:{ destruct (handleUpload_rejected env request w Hbad) as [reason Heq].
      unfold exec in Hrun. rewrite Heq in Hrun. cbn in Hrun. by simplify_eq. }
  destruct (Hq h (proj1 Hvalid)) as [Hdir Htmp].
  rewrite (exec_handleUpload _ _ _ _ _ _ _ Hvalid) in Hrun.
  destruct (deploy env h n e request w) as [w0 r0] eqn:Hdep.
  assert (w0 = w') as -> by (by destruct r0; simplify_eq).
  apply deploy_inv in Hdep
    as [(er & Hmat & _) | (w1 & Hmat & [(_ & -> & _) | (w2 & Hstop & Hstart)])].
  - by apply (materialize_frame _ _ _ _ _ _ _ Hdir Htmp Hmat).
  - by apply (materialize_frame _ _ _ _ _ _ _ Hdir Htmp Hmat).
  - rewrite <- (materialize_frame _ _ _ _ _ _ _ Hdir Htmp Hmat).
    rewrite <- (stopCurrentApp_files _ _ _ _ Hstop).
    apply startApp_files in Hstart as [-> | Hw]; [done|].
    by apply (write_file_frame _ _ _ _ _ Hw).
Qed.

(** X7.  An upload for the plain version [h] leaves everything below the
    directory of any other plain version [h'] as it was, whatever the outcome
    of the upload. *)
Theorem deploy_leaves_other_versions env request w w' r h h' :
  headers_get request "X-Deploy-Hash" = Some h ->
  plain_name h -> plain_name h' -> h <> h' -> h' <> ".state.json" ->
  exec (handleUpload env request) w = (w', r) ->
  forall rel,
    files w' !! (join DEPLOYMENTS_DIR h' ++ rel) =
    files w !! (join DEPLOYMENTS_DIR h' ++ rel).
Proof.
  intros Hh Hplain Hplain' Hne Hstate Hrun rel.
  apply (handleUpload_frame _ _ _ _ _ _ Hrun).
  - intros h0. rewrite Hh. intros [= <-].
    rewrite !(join_plain _ _ DEPLOYMENTS_DIR_regular) by done.
    rewrite tempFile_of_plain by apply Hplain.
    split; [split|].
    + rewrite <- (assoc app). intros Hpre%prefix_app_inv.
      by apply prefix_cons_inv_1 in Hpre.
    + rewrite <- (assoc app). intros Hpre%prefix_app_inv.
      by apply prefix_cons_inv_1 in Hpre.
    + unfold DEPLOYMENTS_DIR. rewrite normalize_snoc by (by repeat split).
      rewrite <- !(assoc app). cbn [app].
      destruct (normalize cwd) as [|a l]; cbn [app].
      * by intros Hpre%prefix_cons_inv_1.
      * intros Hpre%prefix_length. rewrite !length_cons, !length_app in Hpre.
        cbn in Hpre. lia.
  - rewrite STATE_FILE_eq, (join_plain _ _ DEPLOYMENTS_DIR_regular) by done.
    rewrite <- (assoc app). intros Hpre%prefix_app_inv.
    by apply prefix_cons_inv_1 in Hpre.
Qed.

(** ** The state file *)

(** X8.  What [saveDeploymentState] wrote, [loadDeploymentState] reads
    back: the version, the port, the entry file and the time of the save, when
    the record survives the codec and the file can be read. *)
Theorem save_then_load env env' h p e w w' :
  JSON_parse (JSON_stringify (descriptor env h p e))
    = Some (Typed (descriptor env h p e)) ->
  read_state_ok env' = true ->
  exec (saveDeploymentState env h p e) w = (w', Ok tt) ->
  exec (loadDeploymentState env') w' =
    (w', Ok (Some (Typed {| hash := h; port := p; entrypoint := e;
                            timestamp := now env |}))).
Proof.
  intros Hcodec Hread. rewrite exec_saveDeploymentState. intros Hsave.
  apply persist_inv in Hsave as [(_ & _ & Hf) | [? _]]; [|done].
  rewrite exec_loadDeploymentState. unfold stored_record, read_file.
  by rewrite Hread, Hf, Hcodec.
Qed.


(** ** Successful deploys *)

Lemma handleUpload_200 env request w h p e n w' resp :
  valid_headers request h p e n ->
  exec (handleUpload env request) w = (w', Ok resp) ->
  status resp = 200 ->
  exists w1 w2,
    exec (materialize env h request) w = (w1, Ok tt) /\
    exec (stopCurrentApp env) w1 = (w2, Ok tt) /\
    exec (startApp env h n e) w2 = (w', Ok tt).
Proof.
  intros Hvalid Hrun Hok.
  rewrite (exec_handleUpload _ _ _ _ _ _ _ Hvalid) in Hrun.
  destruct (deploy env h n e request w) as [w0 [[]|er]] eqn:Hdep.
  2:{ injection Hrun as <- <-. done. }
  injection Hrun as <- _.
  apply deploy_inv in Hdep
    as [(er & _ & ?) | (w1 & Hmat & [(_ & _ & ?) | (w2 & Hstop & Hstart)])];
    [done | done |].
  eauto.
Qed.

Lemma startApp_ok_more env h p e w w' :
  exec (startApp env h p e) w = (w', Ok tt) ->
  exists srv,
    srv_port srv = bound_port env p /\ srv_id srv = next_id w /\
    currentAppServer w' = Some srv /\
    currentDeploymentHash w' = Some h /\
    listening w' = srv :: listening w /\
    next_id w' = S (next_id w) /\
    existsSync (files w) (join (join DEPLOYMENTS_DIR h) e) = true /\
    write_file (files w) STATE_FILE (JSON_stringify (descriptor env h p e))
      = Some (files w').
Proof.
  intros Hrun.
  apply startApp_inv in Hrun
    as [(er & ? & _) | (srv & Hp & Hid & Hentry & _ & Hpersist)]; [done|].
  unfold persist, Bun_write in Hpersist.
  apply fs_op_inv in Hpersist as [(f' & Hw & -> & _) | [_ ?]]; [|done].
  exists srv. cbn. by repeat split.
Qed.

Lemma put_under_keeps_nodes (dp rel : Path) (n : Node) (f : FS) (q : Path) :
  is_Some (f !! q) -> is_Some (put_under dp rel n f !! q).
Proof.
  intros Hq. unfold put_under.
  destruct (decide (dp ++ rel = q)) as [<-|]; [by rewrite lookup_insert_eq|].
  rewrite lookup_insert_ne by done.
  rewrite (lookup_mkdirs (fun x => dp ++ x)). by case_decide.
Qed.

Lemma extract_keeps_nodes (dp : Path) (members : list (Path * Node)) (f : FS)
    (q : Path) :
  is_Some (f !! q) -> is_Some (extract dp members f !! q).
Proof.
  unfold extract. revert f.
  induction members as [|[rel n] ms IH]; intros f Hq; [done|].
  cbn [foldl]. by apply IH, put_under_keeps_nodes.
Qed.

(** After a successful materialisation the artifact directory exists. *)
Lemma materialize_directory_exists env h request w w' :
  exec (materialize env h request) w = (w', Ok tt) ->
  is_Some (files w' !! join DEPLOYMENTS_DIR h).
Proof.
  intros Hmat.
  apply materialize_ok in Hmat
    as (bytes & f1 & f3 & bytes' & members & _ & _ & _ & Hdir & Hread & _ & Hrm).
  rewrite (rm_file_frame _ _ _ _ Hrm).
  - apply extract_keeps_nodes. by rewrite Hdir.
  - intros Heq. unfold read_file in Hread. by rewrite <- Heq, Hdir in Hread.
Qed.

(** X9.  After an upload answered 200, a new process over the same disk
    reads the record of that deploy from the state file, provided the file
    can be read and the record survives the codec.  When moreover the module
    loads and exposes a handler and the port is free, its recovery routine
    ends with that version as the current one and with one server bound, on
    the port [Bun.serve] makes of the recorded one (the recorded one itself
    when it is from 1 to 65535). *)
Theorem restart_recovers env request w h p e (n : Z) w' resp env2 app handler :
  JSON_parse (JSON_stringify (descriptor env h n e))
    = Some (Typed (descriptor env h n e)) ->
  read_state_ok env2 = true ->
  import_result env2 = Some app ->
  (match mod_default app with
   | Some (Some hd) => Some hd
   | Some None => mod_fetch app
   | None => None
   end) = Some handler ->
  serve_ok env2 = true ->
  bound_port env2 n <> UPLOAD_PORT ->
  valid_headers request h p e n ->
  exec (handleUpload env request) w = (w', Ok resp) ->
  status resp = 200 ->
  exec (loadDeploymentState env2) (restart w') =
    (restart w', Ok (Some (Typed {| hash := h; port := n; entrypoint := e;
                                    timestamp := now env |}))) /\
  exists w2 srv,
    exec (recover env2) (restart w') = (w2, Ok tt) /\
    currentAppServer w2 = Some srv /\ listening w2 = [srv] /\
    srv_port srv = bound_port env2 n /\
    (1 <= n <= 65535 -> srv_port srv = n) /\
    currentDeploymentHash w2 = Some h.
Proof.
  intros Hcodec Hread Happ Hsel Hserve Hfree Hvalid Hrun Hok.
  destruct (handleUpload_200 _ _ _ _ _ _ _ _ _ Hvalid Hrun Hok)
    as (w1 & w2 & Hmat & Hstop & Hstart).
  apply materialize_directory_exists in Hmat as Hdir.
  apply stopCurrentApp_files in Hstop as Hfiles.
  apply startApp_ok_more in Hstart
    as (srv & _ & _ & _ & _ & _ & _ & Hentry & Hwrite).
  rewrite Hfiles in Hwrite, Hentry.
  assert (existsSync (files w') (join DEPLOYMENTS_DIR h) = true) as Hdir'.
  { apply bool_decide_eq_true. by apply (write_file_keeps_nodes _ _ _ _ _ Hwrite). }
  assert (existsSync (files w') (join (join DEPLOYMENTS_DIR h) e) = true)
    as Hentry'.
  { apply bool_decide_eq_true. apply bool_decide_eq_true in Hentry.
    by apply (write_file_keeps_nodes _ _ _ _ _ Hwrite). }
  assert (stored_record env2 (restart w')
          = Some (Typed (descriptor env h n e))) as Hrec.
  { unfold stored_record, read_file. cbn [files restart].
    by rewrite Hread, (write_file_self _ _ _ _ Hwrite), Hcodec. }
  split; [by rewrite exec_loadDeploymentState, Hrec|].
  destruct (recover_typed env2 (restart w') (descriptor env h n e) app handler)
    as (w3 & srv' & Hrec' & Hc & Hl & Hp & _ & Hh); try done.
  exists w3, srv'. repeat split; try done.
  intros Hrange. cbn [descriptor port] in Hp.
  by rewrite bound_port_in_range in Hp.
Qed.

(** ** An invariant of sequential runs *)

Lemma handleUpload_versioned env request w w' r :
  exec (handleUpload env request) w = (w', r) -> versioned w -> versioned w'.
Proof.
  destruct (headers_cases request) as [(h & p & e & n & Hvalid) | Hbad].
  2:{ destruct (handleUpload_rejected env request w Hbad) as [reason Heq].
      unfold exec. rewrite Heq. cbn. by intros [= <- _]. }
  rewrite (exec_handleUpload _ _ _ _ _ _ _ Hvalid).
  destruct (deploy env h n e request w) as [w0 r0] eqn:Hdep.
  intros Hw'. assert (w0 = w') as -> by (by destruct r0; simplify_eq).
  clear Hw'. unfold versioned.
  apply deploy_inv in Hdep
    as [(er & Hmat & _) | (w1 & Hmat & [(_ & -> & _) | (w2 & Hstop & Hstart)])].
  - apply materialize_same_process in Hmat as (-> & -> & _). done.
  - apply materialize_same_process in Hmat as (-> & -> & _). done.
  - apply stopCurrentApp_ok in Hstop as (Hcur & _).
    apply startApp_inv in Hstart
      as [(er & _ & _ & ->) | (srv & _ & _ & _ & _ & Hpersist)].
    + intros _. rewrite Hcur. by intros [? ?].
    + apply persist_files in Hpersist as [(_ & -> & _) _]. cbn. eauto.
Qed.

Lemma fetch_versioned env request w w' r :
  exec (fetch env request) w = (w', r) -> versioned w -> versioned w'.
Proof.
  unfold fetch. destruct (_ && _); [apply handleUpload_versioned|].
  destruct (_ && _).
  - rewrite exec_abind, exec_sync. cbn. by intros [= <- _].
  - by intros [= <- _].
Qed.

Lemma recover_versioned env w : versioned w -> versioned (exec (recover env) w).1.
Proof.
  intros Hw.
  destruct (recover_cases env w) as [-> | (st & r & _ & _ & Hstart)]; [done|].
  apply startApp_inv in Hstart
    as [(er & _ & _ & ->) | (srv & _ & _ & _ & _ & Hpersist)]; [done|].
  apply persist_files in Hpersist as [(_ & Hh & _) _].
  unfold versioned. rewrite Hh. cbn. eauto.
Qed.

(** X10.  Through the recovery and any sequence of requests served one
    after the other, whenever a server is current the version identifier is
    set. *)
Theorem running_server_has_version env0 reqs w :
  versioned w ->
  versioned (serve_all reqs (exec (recover env0) w).1).
Proof.
  intros Hw. apply recover_versioned with (env := env0) in Hw.
  revert Hw. generalize (exec (recover env0) w).1. clear w.
  unfold serve_all. induction reqs as [|[env request] reqs IH]; intros w Hw;
    [done|].
  cbn [foldl]. apply IH. cbn.
  destruct (exec (fetch env request) w) as [w' r] eqn:Hrun.
  by apply (fetch_versioned _ _ _ _ _ Hrun).
Qed.

(** X11.  Of two uploads answered 200 one after the other, from a process
    with at most its current server bound, the server of the first is no
    longer bound after the second: the only server is that of the second, on
    the port [Bun.serve] makes of its port header (that port itself when it
    is from 1 to 65535), and the state file describes the second. *)
Theorem successive_deploys env1 req1 env2 req2 w w1 w2 r1 r2
    h1 p1 e1 n1 h2 p2 e2 n2 :
  single_instance w ->
  valid_headers req1 h1 p1 e1 n1 ->
  valid_headers req2 h2 p2 e2 n2 ->
  exec (handleUpload env1 req1) w = (w1, Ok r1) -> status r1 = 200 ->
  exec (handleUpload env2 req2) w1 = (w2, Ok r2) -> status r2 = 200 ->
  exists s1 s2,
    currentAppServer w1 = Some s1 /\ listening w1 = [s1] /\
    currentAppServer w2 = Some s2 /\ listening w2 = [s2] /\
    (s1 ∉ listening w2) /\
    srv_port s2 = bound_port env2 n2 /\
    (1 <= n2 <= 65535 -> srv_port s2 = n2) /\
    currentDeploymentHash w2 = Some h2 /\
    files w2 !! STATE_FILE =
      Some (File (JSON_stringify
                    {| hash := h2; port := n2; entrypoint := e2;
                       timestamp := now env2 |})).
Proof.
  intros Hone Hv1 Hv2 Hrun1 Hok1 Hrun2 Hok2.
  destruct (handleUpload_200 _ _ _ _ _ _ _ _ _ Hv1 Hrun1 Hok1)
    as (wa & wb & Hmat1 & Hstop1 & Hstart1).
  destruct (handleUpload_200 _ _ _ _ _ _ _ _ _ Hv2 Hrun2 Hok2)
    as (wc & wd & Hmat2 & Hstop2 & Hstart2).
  apply materialize_same_process in Hmat1 as Hsame1.
  apply (same_process_single_instance _ _ Hsame1) in Hone.
  apply stopCurrentApp_ok in Hstop1 as (_ & _ & _ & _ & _ & Hnil1).
  specialize (Hnil1 Hone).
  apply startApp_ok_more in Hstart1
    as (s1 & _ & Hid1 & Hc1 & _ & Hl1 & Hnext1 & _ & _).
  rewrite Hnil1 in Hl1.
  assert (single_instance w1) as Hone1
    by (unfold single_instance; by rewrite Hc1, Hl1).
  apply materialize_same_process in Hmat2 as Hsame2.
  apply (same_process_single_instance _ _ Hsame2) in Hone1.
  destruct Hsame2 as (_ & _ & _ & Hnextc).
  apply stopCurrentApp_ok in Hstop2 as (_ & _ & _ & Hnextd & _ & Hnil2).
  specialize (Hnil2 Hone1).
  apply startApp_ok_more in Hstart2
    as (s2 & Hp2 & Hid2 & Hc2 & Hh2 & Hl2 & _ & _ & Hwrite).
  rewrite Hnil2 in Hl2.
  exists s1, s2. repeat split; try done.
  - rewrite Hl2. intros ->%list_elem_of_singleton.
    rewrite Hid2, Hnextd, Hnextc, Hnext1 in Hid1. lia.
  - intros Hrange. by rewrite Hp2, bound_port_in_range.
  - by apply write_file_self in Hwrite.
Qed.

(** ** Startup and shutdown *)

(** X12.  Creating the deployments directory at load time leaves the
    process variables, every file, and every path that is not above the
    directory alone; when it succeeds the directory exists, and when the
    directory exists already nothing happens. *)
Theorem ensureDeploymentsDir_spec env w w' r :
  ensureDeploymentsDir env w = (w', r) ->
  same_process w w' /\
  (forall q c, files w !! q = Some (File c) -> files w' !! q = Some (File c)) /\
  (forall q, ~ q `prefix_of` DEPLOYMENTS_DIR -> files w' !! q = files w !! q) /\
  (r = Ok tt -> is_Some (files w' !! DEPLOYMENTS_DIR)) /\
  (existsSync (files w) DEPLOYMENTS_DIR = true -> w' = w /\ r = Ok tt).
Proof.
  unfold ensureDeploymentsDir, sbind, gets.
  destruct (existsSync (files w) DEPLOYMENTS_DIR) eqn:Hex; cbn [negb].
  - intros [= <- <-]. repeat split; try done.
    intros _. by apply bool_decide_eq_true in Hex.
  - unfold mkdirSync. intros Hrun.
    apply fs_op_inv in Hrun as [(f' & Hmk & -> & ->) | [-> ->]].
    + split; [by unfold same_process|]. cbn [files set_files].
      split; [intros q c; by apply (mkdir_p_keeps_file _ _ _ _ _ Hmk)|].
      split; [intros q; by apply (mkdir_p_frame _ _ _ _ Hmk)|].
      split; [|done]. intros _. rewrite (lookup_mkdir_p _ _ _ _ Hmk).
      rewrite decide_True; [done|]. apply prefixes_self.
      unfold DEPLOYMENTS_DIR. rewrite normalize_snoc by (by repeat split).
      by destruct (normalize cwd).
    + by repeat split.
Qed.

(** X13.  On [SIGINT] or [SIGTERM], when no server is current or the
    current one stops, the handler stops the upload server and exits with
    code 0, with no current server (and nothing bound, when at most the
    current server was).  When the current server does not stop, the
    rejection of the handler is handled by nobody: the process ends with
    exit code 1, the handler having changed nothing and [uploadServer.stop]
    not having run. *)
Theorem signal_handler_spec env p :
  (stop_ok env = true \/ currentAppServer (proc p) = None ->
   exit_code (on_signal env p) = Some 0 /\
   upload_bound (on_signal env p) = false /\
   currentAppServer (proc (on_signal env p)) = None /\
   (single_instance (proc p) -> listening (proc (on_signal env p)) = [])) /\
  (stop_ok env = false -> is_Some (currentAppServer (proc p)) ->
   exit_code (on_signal env p) = Some 1 /\
   proc (on_signal env p) = proc p /\
   upload_bound (on_signal env p) = upload_bound p).
Proof.
  unfold on_signal. split.
  - intros Hok.
    destruct (exec (stopCurrentApp env) (proc p)) as [w' [[]|e]] eqn:Hstop.
    + apply stopCurrentApp_ok in Hstop as (Hc & _ & _ & _ & _ & Hnil). done.
    + apply stopCurrentApp_err in Hstop as (_ & _ & Hfail & Hsome).
      destruct Hok as [Hok | Hnone]; [congruence|].
      rewrite Hnone in Hsome. by destruct Hsome.
  - intros Hfail [srv Hsrv]. rewrite exec_stopCurrentApp, Hsrv.
    unfold sbind, server_stop. by rewrite Hfail.
Qed.

End ServerExtras.

Section Traversal.
Context `{!Runtime}.

(** ** Version identifiers that are not plain *)

Lemma foldl_norm_step_regular (l : Path) :
  Forall regular l -> foldl norm_step [] l = rev l.
Proof.
  intros Hl%normalize_regular. unfold normalize in Hl.
  by rewrite <- (rev_involutive (foldl norm_step [] l)), Hl.
Qed.

Lemma join_parent (base : Path) (seg x : string) :
  Forall regular base -> regular seg -> plain_name x ->
  join (base ++ [seg]) ("../" +:+ x) = base ++ [x].
Proof.
  intros Hbase Hseg [Hx Hns]. unfold join.
  change ("../" +:+ x) with (".." +:+ String "/" x).
  rewrite split_on_slash by done. rewrite split_on_no_slash by done.
  unfold normalize. rewrite foldl_app, foldl_norm_step_regular.
  2:{ apply Forall_app. split; [done | by constructor]. }
  rewrite rev_app_distr. cbn [rev app foldl].
  unfold norm_step at 2. rewrite decide_False by (by intros [?|?]).
  rewrite decide_True by done. cbn [tail].
  rewrite norm_step_regular by done. cbn [rev]. by rewrite rev_involutive.
Qed.

Lemma DEPLOYMENTS_DIR_parent x :
  plain_name x -> join DEPLOYMENTS_DIR ("../" +:+ x) = normalize cwd ++ [x].
Proof.
  intros Hx. unfold DEPLOYMENTS_DIR.
  rewrite normalize_snoc by (by repeat split).
  apply join_parent; [apply normalize_is_regular | by repeat split | done].
Qed.

(** What a successful materialisation leaves in an artifact directory that
    existed before. *)
Lemma materialize_replaces env h request w w' :
  existsSync (files w) (join DEPLOYMENTS_DIR h) = true ->
  exec (materialize env h request) w = (w', Ok tt) ->
  exists bytes members,
    req_body request = Some bytes /\
    untar bytes = Some members /\
    forall rel,
      files w' !! (join DEPLOYMENTS_DIR h ++ rel) =
      extract [] members {[ [] := Dir ]} !! rel.
Proof.
  intros Hexists Hmat.
  apply materialize_ok in Hmat
    as (bytes & f1 & f3 & bytes' & members & Hbody & Hwrite & Hmk & Hdir
        & Hread & Huntar & Hrm).
  set (dp := join DEPLOYMENTS_DIR h) in *. set (tmp := tempFile_of h) in *.
  assert (existsSync f1 dp = true) as Hex1.
  { apply bool_decide_eq_true. apply bool_decide_eq_true in Hexists.
    by apply (write_file_keeps_nodes _ _ _ _ _ Hwrite). }
  rewrite Hex1 in Hmk.
  assert (f3 !! tmp = Some (File bytes')) as Htmp.
  { unfold read_file in Hread. destruct (f3 !! tmp) as [[|c]|]; try done.
    by injection Hread as ->. }
  assert (forall r, f3 !! (dp ++ r) = ({[ [] := Dir ]} : FS) !! r) as Hempty.
  { intros r. destruct r as [|y r].
    - by rewrite app_nil_r, lookup_singleton_eq.
    - rewrite lookup_singleton_ne by done.
      rewrite (lookup_mkdir_p _ _ _ _ Hmk).
      rewrite decide_False.
      + apply rm_rf_under. by apply prefix_app_r.
      + intros Hin%prefixes_prefix%prefix_length.
        rewrite length_app in Hin. cbn in Hin. lia. }
  assert (bytes' = bytes) as ->.
  { rewrite (lookup_mkdir_p _ _ _ _ Hmk) in Htmp.
    case_decide; [done|].
    unfold rm_rf in Htmp. apply map_lookup_filter_Some in Htmp as [Htmp _].
    apply write_file_self in Hwrite. congruence. }
  exists bytes, members. repeat split; [done..|].
  intros rel.
  rewrite (rm_file_frame _ _ _ _ Hrm).
  - by apply extract_shift.
  - intros Heq. specialize (Hempty rel). rewrite Heq, Htmp in Hempty.
    destruct rel; [by rewrite lookup_singleton_eq in Hempty|].
    by rewrite lookup_singleton_ne in Hempty.
Qed.

(** X14.  The version identifier is not checked: for [../x] the artifact
    directory is [x] in the working directory, beside the deployments
    directory, and a successful materialisation replaces what was below it by
    the content of the archive. *)
Theorem version_is_not_confined env request w w' x :
  plain_name x ->
  existsSync (files w) (normalize cwd ++ [x]) = true ->
  exec (materialize env ("../" +:+ x) request) w = (w', Ok tt) ->
  join DEPLOYMENTS_DIR ("../" +:+ x) = normalize cwd ++ [x] /\
  exists bytes members,
    req_body request = Some bytes /\
    untar bytes = Some members /\
    forall rel,
      files w' !! (normalize cwd ++ [x] ++ rel) =
      extract [] members {[ [] := Dir ]} !! rel.
Proof.
  intros Hx Hexists Hmat. pose proof (DEPLOYMENTS_DIR_parent x Hx) as Hpath.
  split; [done|]. rewrite <- Hpath in Hexists.
  destruct (materialize_replaces _ _ _ _ _ Hexists Hmat)
    as (bytes & members & Hbody & Huntar & Hfiles).
  exists bytes, members. repeat split; [done..|].
  intros rel. rewrite (assoc app), <- Hpath. apply Hfiles.
Qed.

End Traversal.

(** ** Shell words and header values *)

Lemma plain_char_facts c :
  shell_plain_char c = true ->
  http_whitespace c = false /\ header_forbidden c = false /\
  negb (bool_decide (c = "/"%char)) = true.
Proof.
  destruct c as [[] [] [] [] [] [] [] []]; vm_compute; (done || by intros).
Qed.

Lemma decimal_plain c : is_decimal c = true -> shell_plain_char c = true.
Proof.
  destruct c as [[] [] [] [] [] [] [] []]; vm_compute; (done || by intros).
Qed.

Lemma shell_plain_app a b :
  shell_plain a = true -> shell_plain b = true -> shell_plain (a +:+ b) = true.
Proof.
  induction a as [|c a IH]; [done|]. cbn [shell_plain].
  intros [Hc Ha]%andb_true_iff Hb.
  change (String c a +:+ b) with (String c (a +:+ b)). cbn [shell_plain].
  by rewrite Hc, IH.
Qed.

Lemma no_slash_plain s : shell_plain s = true -> no_slash s = true.
Proof.
  induction s as [|c s IH]; [done|]. cbn [shell_plain no_slash].
  intros [Hc Hs]%andb_true_iff.
  destruct (plain_char_facts c Hc) as (_ & _ & ->). by rewrite IH.
Qed.

Lemma trim_left_plain s : shell_plain s = true -> trim_left s = s.
Proof.
  destruct s as [|c s]; [done|]. cbn [shell_plain trim_left].
  intros [Hc _]%andb_true_iff. by destruct (plain_char_facts c Hc) as (-> & _).
Qed.

Lemma trim_right_plain s : shell_plain s = true -> trim_right s = s.
Proof.
  induction s as [|c s IH]; [done|]. cbn [shell_plain trim_right].
  intros [Hc Hs]%andb_true_iff. rewrite IH by done.
  destruct s; [|done]. by destruct (plain_char_facts c Hc) as (-> & _).
Qed.

Lemma has_forbidden_plain s : shell_plain s = true -> has_forbidden s = false.
Proof.
  induction s as [|c s IH]; [done|]. cbn [shell_plain has_forbidden].
  intros [Hc Hs]%andb_true_iff.
  destruct (plain_char_facts c Hc) as (_ & -> & _). by rewrite IH.
Qed.

(** A plain word is sent as it is. *)
Lemma header_value_plain s : shell_plain s = true -> header_value s = Some s.
Proof.
  intros Hs. unfold header_value.
  by rewrite trim_left_plain, trim_right_plain, has_forbidden_plain.
Qed.

Lemma all_decimal_plain s : all_decimal s = true -> shell_plain s = true.
Proof.
  induction s as [|c s IH]; [done|]. cbn [all_decimal shell_plain].
  intros [Hc Hs]%andb_true_iff. by rewrite (decimal_plain c Hc), IH.
Qed.

Lemma Number_toString_plain n : shell_plain (Number_toString n) = true.
Proof.
  unfold Number_toString. destruct (n <? 0) eqn:Hneg.
  - apply Z.ltb_lt in Hneg. cbn [shell_plain].
    apply andb_true_iff. split; [done|].
    apply all_decimal_plain, all_decimal_decimal_digits; [lia | done].
  - apply Z.ltb_ge in Hneg.
    by apply all_decimal_plain, all_decimal_decimal_digits.
Qed.

Lemma header_value_inv v h :
  header_value v = Some h -> h = trim_right (trim_left v).
Proof.
  unfold header_value. destruct (has_forbidden _); [done|]. by intros [= <-].
Qed.

Lemma occurs_trim_left c s :
  http_whitespace c = false -> occurs c s = true ->
  occurs c (trim_left s) = true.
Proof.
  intros Hc. induction s as [|c' s IH]; [done|]. cbn [trim_left].
  destruct (http_whitespace c') eqn:Hws; [|done]. cbn [occurs].
  case_bool_decide as Heq; [congruence | done].
Qed.

Lemma occurs_trim_right c s :
  http_whitespace c = false -> occurs c s = true ->
  occurs c (trim_right s) = true.
Proof.
  intros Hc. induction s as [|c' s IH]; [done|]. cbn [trim_right occurs].
  case_bool_decide as Heq.
  - subst c'. intros _. rewrite Hc.
    destruct (trim_right s); cbn [occurs]; by rewrite bool_decide_eq_true_2.
  - cbn [orb]. intros Hs. specialize (IH Hs).
    destruct (trim_right s) as [|c2 t]; [done|].
    cbn [occurs] in *. by rewrite IH, orb_true_r.
Qed.

Lemma no_slash_trim_left s :
  no_slash s = true -> no_slash (trim_left s) = true.
Proof.
  induction s as [|c s IH]; [done|]. cbn [trim_left].
  destruct (http_whitespace c); [|done]. cbn [no_slash].
  by intros [_ Hs]%andb_true_iff; apply IH.
Qed.

Lemma no_slash_trim_right s :
  no_slash s = true -> no_slash (trim_right s) = true.
Proof.
  induction s as [|c s IH]; [done|]. cbn [trim_right no_slash].
  intros [Hc Hs]%andb_true_iff. specialize (IH Hs).
  destruct (trim_right s) as [|c2 t].
  - destruct (http_whitespace c); [done|]. cbn [no_slash]. by rewrite Hc.
  - cbn [no_slash] in *. by rewrite Hc, IH.
Qed.

Section ClientProofs.
Context `{!Runtime, !ClientRuntime}.

Lemma cbind_inv {A B} (m : Cli A) (f : A -> Cli B) c c' r :
  cbind m f c = (c', r) ->
  (exists c0 a, m c = (c0, COk a) /\ f a c0 = (c', r)) \/
  (exists e, m c = (c', CErr e) /\ r = CErr e).
Proof.
  unfold cbind. destruct (m c) as [c0 [a|e]]; [eauto|].
  intros [= <- <-]. eauto.
Qed.

Lemma readDeployConfig_inv cenv c c' r :
  readDeployConfig cenv c = (c', r) ->
  c' = c /\
  (existsSync (local c) (join (cli_cwd cenv) "deploy.json") = false ->
   exists e, r = CErr e).
Proof.
  unfold readDeployConfig.
  destruct (existsSync _ _); cbn [negb].
  - destruct (if read_config_ok cenv then _ else _) as [file|].
    + destruct (parse_config file); by intros [= <- <-].
    + by intros [= <- <-].
  - intros [= <- <-]. eauto.
Qed.

Lemma execCommand_inv outcome effect c c' r :
  execCommand outcome effect c = (c', r) ->
  remote c' = remote c /\
  ((outcome = Closed (Some 0) /\ r = COk tt /\ local c' = effect (local c)) \/
   (outcome <> Closed (Some 0) /\ exists e, r = CErr e)).
Proof.
  unfold execCommand. destruct outcome as [code|].
  - case_bool_decide as Hcode; intros [= <- <-]; (split; [done|]).
    + left. by rewrite Hcode.
    + right. split; [congruence | eauto].
  - intros [= <- <-]. split; [done|]. right. split; [done | eauto].
Qed.

Lemma createTarGz_inv cenv src out c c' r :
  createTarGz cenv src out c = (c', r) ->
  remote c' = remote c /\
  ((tar_outcome cenv = Closed (Some 0) /\
    local c' = tar_effect cenv src out (local c) /\
    r = (if stat_ok cenv && existsSync (local c') out then COk tt
         else CErr (StatFailed out))) \/
   (tar_outcome cenv <> Closed (Some 0) /\ exists e, r = CErr e)).
Proof.
  unfold createTarGz. intros Hrun.
  apply cbind_inv in Hrun as [(c0 & [] & Hcmd & Hstat) | (e & Hcmd & ->)].
  - apply execCommand_inv in Hcmd as [Hrem [(Hout & _ & Hloc) | (_ & ? & ?)]];
      [|done].
    destruct (stat_ok cenv && existsSync (local c0) out) eqn:Hfound;
      injection Hstat as <- <-; (split; [done|]); left;
      by rewrite Hfound.
  - apply execCommand_inv in Hcmd as [Hrem [(_ & ? & _) | (Hout & _)]]; [done|].
    split; [done|]. right. eauto.
Qed.

Lemma uploadToServer_inv cenv file url config c c' r :
  uploadToServer cenv file url config c = (c', r) ->
  local c' = local c /\
  ((remote c' = remote c /\ exists e, r = CErr e) \/
   exists bytes request resp,
     read_file (local c) file = Some bytes /\
     upload_request url (generateHash cenv bytes) config bytes = Some request /\
     reachable cenv = true /\
     exec (fetch (server_env cenv) request) (remote c) = (remote c', Ok resp) /\
     (response_ok resp = false -> exists e, r = CErr e) /\
     (r = COk tt -> response_ok resp = true)).
Proof.
  unfold uploadToServer.
  destruct (if read_archive_ok cenv then _ else _) as [bytes|] eqn:Hread.
  2:{ intros [= <- <-]. split; [done|]. left. eauto. }
  assert (read_file (local c) file = Some bytes) as Hbytes
    by (by destruct (read_archive_ok cenv)).
  destruct (upload_request url (generateHash cenv bytes) config bytes)
    as [request|] eqn:Hreq.
  2:{ intros [= <- <-]. split; [done|]. left. eauto. }
  unfold cbind, http_fetch. destruct (reachable cenv) eqn:Hreach.
  2:{ intros [= <- <-]. split; [done|]. left. eauto. }
  destruct (exec_fetch_answers (server_env cenv) request (remote c))
    as (w' & resp & Hfetch).
  rewrite Hfetch.
  destruct (response_ok resp) eqn:Hok; cbn [negb].
  - destruct (is_json (body resp)); intros [= <- <-]; (split; [done|]);
      right; exists bytes, request, resp; repeat split; try done; congruence.
  - intros [= <- <-]. split; [done|]. right. exists bytes, request, resp.
    repeat split; try done. eauto.
Qed.

Lemma unlinkSync_inv cenv p c c' r :
  unlinkSync cenv p c = (c', r) ->
  remote c' = remote c /\
  (r = COk tt -> local c' !! p = None) /\
  ((exists e, r = CErr e) -> c' = c).
Proof.
  unfold unlinkSync.
  destruct (if unlink_ok cenv then _ else _) as [f|] eqn:Hrm; intros [= <- <-].
  - split; [done|]. split; [|by intros [? ?]]. intros _. cbn.
    destruct (unlink_ok cenv); [|done]. unfold rm_file in Hrm.
    destruct (is_file _ _); [|done]. injection Hrm as <-.
    apply lookup_delete_eq.
  - by repeat split.
Qed.

Lemma tarFile_of_plain cenv : shell_plain_path (tarFile_of cenv) = true.
Proof.
  change (tarFile_of cenv) with (tempFile_of (Number_toString (date_now cenv))).
  rewrite tempFile_of_plain by apply no_slash_plain, Number_toString_plain.
  cbn [shell_plain_path forallb]. rewrite andb_true_r.
  apply andb_true_iff. split; [done|].
  apply shell_plain_app; [done|].
  apply shell_plain_app; [apply Number_toString_plain | done].
Qed.

(** With a build output directory that is a plain word for the shell, [tar]
    writes the archive of that directory. *)
Lemma after_tar_plain cenv config c :
  shell_plain_path (resolve (cli_cwd cenv) (deploy_dist config)) = true ->
  after_tar cenv config c =
  <[tarFile_of cenv := File (archive_of cenv config c)]>
    (build_effect cenv (local c)).
Proof.
  intros Hplain. unfold after_tar, tar_effect.
  by rewrite Hplain, tarFile_of_plain.
Qed.

(** The steps of [main], one by one. *)
Lemma deploy_steps_inv cenv c c' r :
  deploy_steps cenv c = (c', r) ->
  (remote c' = remote c /\ (exists e, r = CErr e) /\
   forall config,
     readDeployConfig cenv c = (c, COk config) ->
     build_outcome cenv = Closed (Some 0) ->
     existsSync (build_effect cenv (local c))
       (resolve (cli_cwd cenv) (deploy_dist config)) = true ->
     tar_outcome cenv = Closed (Some 0) ->
     local c' = after_tar cenv config c) \/
  exists config c3 r3,
    readDeployConfig cenv c = (c, COk config) /\
    build_outcome cenv = Closed (Some 0) /\
    existsSync (build_effect cenv (local c))
      (resolve (cli_cwd cenv) (deploy_dist config)) = true /\
    tar_outcome cenv = Closed (Some 0) /\
    stat_ok cenv = true /\
    uploadToServer cenv (tarFile_of cenv) (serverUrl_of cenv config) config
      {| local := after_tar cenv config c; remote := remote c |} = (c3, r3) /\
    match r3 with
    | COk _ => unlinkSync cenv (tarFile_of cenv) c3 = (c', r)
    | CErr e => c' = c3 /\ r = CErr e
    end.
Proof.
  unfold deploy_steps. intros Hrun.
  apply cbind_inv in Hrun as [(c0 & config & Hcfg & Hrun) | (e & Hcfg & ->)].
  2:{ left. apply readDeployConfig_inv in Hcfg as Hc. destruct Hc as [-> _].
      split; [done|]. split; [eauto|]. intros config Hcfg'. congruence. }
  apply readDeployConfig_inv in Hcfg as Hc. destruct Hc as [-> _].
  apply cbind_inv in Hrun as [(c1 & [] & Hbuild & Hrun) | (e & Hbuild & ->)].
  2:{ left. unfold executeBuild in Hbuild.
      apply execCommand_inv in Hbuild as [Hrem [(_ & ? & _) | (Hout & _)]];
        [done|].
      split; [done|]. split; [eauto|]. intros; congruence. }
  unfold executeBuild in Hbuild.
  apply execCommand_inv in Hbuild as [Hrem1 [(Hout & _ & Hloc1) | (_ & ? & ?)]];
    [|done].
  apply cbind_inv in Hrun as [(c1' & found & [= <- <-] & Hrun) | (e & ? & _)];
    [|done].
  rewrite Hloc1 in Hrun.
  set (distPath := resolve (cli_cwd cenv) (deploy_dist config)) in *.
  destruct (existsSync (build_effect cenv (local c)) distPath) eqn:Hdist;
    cbn [negb] in Hrun.
  2:{ injection Hrun as <- <-. left. split; [done|]. split; [eauto|].
      intros config' Hcfg'. assert (config' = config) as -> by congruence.
      fold distPath. congruence. }
  apply cbind_inv in Hrun as [(c2 & [] & Htar & Hrun) | (e & Htar & ->)].
  2:{ left. apply createTarGz_inv in Htar
        as [Hrem2 [(Htout & Hloc2 & Hstat) | (Htout & _)]].
      - split; [congruence|]. split; [eauto|].
        intros config' Hcfg' _ _ _.
        assert (config' = config) as -> by congruence.
        unfold after_tar. fold distPath. by rewrite Hloc2, Hloc1.
      - split; [congruence|]. split; [eauto|]. intros; congruence. }
  apply createTarGz_inv in Htar as Hinv.
  destruct Hinv as [Hrem2 [(Htout & Hloc2 & Hstat) | (_ & ? & ?)]]; [|done].
  assert (stat_ok cenv = true) as Hstat_ok.
  { destruct (stat_ok cenv); [done|]. by cbn in Hstat. }
  assert (c2 = {| local := after_tar cenv config c; remote := remote c |})
    as ->.
  { destruct c2 as [l2 r2]. cbn in Hloc2, Hrem2. subst l2 r2.
    unfold after_tar. fold distPath. by rewrite Hloc1, Hrem1. }
  right.
  apply cbind_inv in Hrun as [(c3 & [] & Hup & Hrun) | (e & Hup & ->)].
  - by exists config, c3, (COk tt).
  - by exists config, c', (CErr e).
Qed.


(** ** Version identifiers *)

Lemma no_slash_string_map g s :
  (forall c, c <> "/"%char -> g c <> "/"%char) ->
  no_slash s = true -> no_slash (string_map g s) = true.
Proof.
  intros Hg. induction s as [|c s IH]; [done|]. cbn [no_slash string_map].
  intros [Hc Hs]%andb_true_iff. apply negb_true_iff, bool_decide_eq_false in Hc.
  rewrite IH, andb_true_r by done.
  apply negb_true_iff, bool_decide_eq_false. by apply Hg.
Qed.

Lemma no_slash_substring n m s :
  no_slash s = true -> no_slash (substring n m s) = true.
Proof.
  revert n m. induction s as [|c s IH]; intros n m.
  - by destruct n, m.
  - cbn [no_slash]. intros [Hc Hs]%andb_true_iff.
    destruct n as [|n]; [destruct m as [|m]|]; cbn [substring no_slash].
    + done.
    + by rewrite Hc, IH.
    + by apply IH.
Qed.

Lemma occurs_app c a b : occurs c (a +:+ String c b) = true.
Proof.
  induction a as [|c' a IH].
  - change ("" +:+ String c b) with (String c b). cbn [occurs].
    by rewrite bool_decide_eq_true_2.
  - change (String c' a +:+ String c b) with (String c' (a +:+ String c b)).
    cbn [occurs]. by rewrite IH, orb_true_r.
Qed.

Lemma generateHash_occurs cenv content :
  occurs "_" (generateHash cenv content) = true.
Proof. unfold generateHash. apply occurs_app. Qed.

Lemma generateHash_no_slash cenv content :
  no_slash (iso_now cenv) = true -> no_slash (sha256_hex content) = true ->
  no_slash (generateHash cenv content) = true.
Proof.
  intros Hiso Hsha. unfold generateHash.
  apply no_slash_app; [|apply no_slash_app; [done|]].
  - apply no_slash_substring, no_slash_string_map; [|done].
    intros c Hc. case_bool_decide; [done|done].
  - by apply no_slash_substring.
Qed.

Lemma generateHash_plain cenv content :
  no_slash (iso_now cenv) = true -> no_slash (sha256_hex content) = true ->
  plain_name (generateHash cenv content) /\
  generateHash cenv content <> ".state.json".
Proof.
  intros Hiso Hsha. pose proof (generateHash_occurs cenv content) as Hocc.
  repeat split; [..|by apply generateHash_no_slash|];
    intros Heq; by rewrite Heq in Hocc.
Qed.

(** The version identifier as the server receives it. *)
Lemma sent_version_occurs cenv content h :
  header_value (generateHash cenv content) = Some h -> occurs "_" h = true.
Proof.
  intros ->%header_value_inv.
  apply occurs_trim_right; [done|]. apply occurs_trim_left; [done|].
  apply generateHash_occurs.
Qed.

Lemma sent_version_plain cenv content h :
  header_value (generateHash cenv content) = Some h ->
  no_slash (iso_now cenv) = true -> no_slash (sha256_hex content) = true ->
  plain_name h /\ h <> ".state.json".
Proof.
  intros Hh Hiso Hsha. pose proof (sent_version_occurs _ _ _ Hh) as Hocc.
  apply header_value_inv in Hh.
  repeat split; [..| |]; try (intros Heq; by rewrite Heq in Hocc).
  subst h. by apply no_slash_trim_right, no_slash_trim_left,
    generateHash_no_slash.
Qed.

(** X15.  A version identifier made by [generateHash] from a time stamp
    and a digest without [/] is one ordinary path component other than the
    name of the state file, so neither its artifact directory nor its
    temporary archive overlaps with the state file. *)
Theorem generated_version_is_plain cenv content :
  no_slash (iso_now cenv) = true -> no_slash (sha256_hex content) = true ->
  plain_name (generateHash cenv content) /\
  generateHash cenv content <> ".state.json" /\
  unrelated (join DEPLOYMENTS_DIR (generateHash cenv content)) STATE_FILE /\
  ~ STATE_FILE `prefix_of` tempFile_of (generateHash cenv content).
Proof.
  intros Hiso Hsha.
  destruct (generateHash_plain cenv content Hiso Hsha) as [Hplain Hne].
  split; [done|]. split; [done|]. by apply plain_version_apart.
Qed.

(** ** The request of the client *)

Lemma upload_request_inv url hash config bytes request :
  upload_request url hash config bytes = Some request ->
  exists h e,
    header_value hash = Some h /\
    header_value (deploy_entrypoint config) = Some e /\
    req_method request = "POST" /\
    req_pathname request = url_pathname (url +:+ "/upload") /\
    req_body request = Some bytes /\
    headers_get request "X-Deploy-Hash" = Some h /\
    headers_get request "X-Deploy-Port"
      = Some (Number_toString (deploy_port config)) /\
    headers_get request "X-Deploy-Entrypoint" = Some e.
Proof.
  unfold upload_request.
  rewrite (header_value_plain _ (Number_toString_plain (deploy_port config))).
  destruct (header_value hash) as [h|]; [|done].
  destruct (header_value (deploy_entrypoint config)) as [e|]; [|done].
  intros [= <-]. exists h, e. unfold headers_get. cbn.
  repeat split; by simplify_map_eq.
Qed.

Lemma Number_toString_nonempty n : Number_toString n <> "".
Proof.
  unfold Number_toString. destruct (n <? 0); [done|].
  apply decimal_digits_nonempty.
Qed.

Lemma upload_request_valid cenv url config bytes request h e :
  upload_request url (generateHash cenv bytes) config bytes = Some request ->
  header_value (generateHash cenv bytes) = Some h ->
  header_value (deploy_entrypoint config) = Some e ->
  e <> "" ->
  valid_headers request h (Number_toString (deploy_port config)) e
    (deploy_port config).
Proof.
  intros Hreq Hh He Hne.
  apply upload_request_inv in Hreq
    as (h' & e' & Hh' & He' & _ & _ & _ & Hgh & Hgp & Hge).
  assert (h' = h) as -> by congruence. assert (e' = e) as -> by congruence.
  pose proof (sent_version_occurs _ _ _ Hh) as Hocc.
  unfold valid_headers. rewrite Hgh, Hgp, Hge.
  repeat split; try done.
  - intros Heq. by rewrite Heq in Hocc.
  - apply Number_toString_nonempty.
  - apply parseInt_rendering.
Qed.

(** What the server answers to a [POST]. *)
Lemma fetch_post env request w w' resp :
  req_method request = "POST" ->
  exec (fetch env request) w = (w', Ok resp) ->
  (req_pathname request <> "/upload" /\ w' = w /\ status resp = 404) \/
  (req_pathname request = "/upload" /\ rejected_headers request /\
   w' = w /\ status resp = 400) \/
  (req_pathname request = "/upload" /\
   exists h p e n,
     valid_headers request h p e n /\
     exec (handleUpload env request) w = (w', Ok resp) /\
     (status resp = 200 \/ status resp = 500)).
Proof.
  intros Hpost. unfold fetch. rewrite Hpost.
  change (bool_decide ("POST" = "POST")) with true.
  change (bool_decide ("POST" = "GET")) with false.
  rewrite andb_true_r, andb_false_r.
  case_bool_decide as Hpath.
  2:{ intros [= <- <-]. by left. }
  intros Hrun. right.
  destruct (headers_cases request) as [(h & p & e & n & Hvalid) | Hbad].
  - right. split; [done|]. exists h, p, e, n. split; [done|]. split; [done|].
    rewrite (exec_handleUpload _ _ _ _ _ _ _ Hvalid) in Hrun.
    destruct (deploy env h n e request w) as [w0 [[]|er]];
      injection Hrun as <- <-; [by left | by right].
  - left. destruct (handleUpload_rejected env request w Hbad) as [reason Heq].
    unfold exec in Hrun. rewrite Heq in Hrun. cbn in Hrun.
    injection Hrun as <- <-. by repeat split.
Qed.

(** X16.  Take the request the client sends for a configuration: the
    header values are the generated identifier, the decimal rendering of the
    port and the entry file, each without its leading and trailing blanks
    (the request exists when none of them holds a NUL, a line feed or a
    carriage return after that).  When the entry file is not blank and the
    port is a safe integer, the request is never answered 400; when it is
    answered 200 the current version is the identifier as sent and the
    current server listens on the port the runtime bound for the configured
    one, which is the configured one when that is between 1 and 65535. *)
Theorem client_request_accepted cenv url config bytes request env w w' resp :
  upload_request url (generateHash cenv bytes) config bytes = Some request ->
  header_value (deploy_entrypoint config) <> Some "" ->
  Z.abs (deploy_port config) < 2 ^ 53 ->
  exec (fetch env request) w = (w', Ok resp) ->
  status resp <> 400 /\
  (status resp = 200 ->
   currentDeploymentHash w' = header_value (generateHash cenv bytes) /\
   exists srv, currentAppServer w' = Some srv /\
               srv_port srv = bound_port env (deploy_port config) /\
               (1 <= deploy_port config <= 65535 ->
                srv_port srv = deploy_port config)).
Proof.
  intros Hreq He _ Hrun.
  apply upload_request_inv in Hreq as Hinv.
  destruct Hinv as (h & e & Hh & Hentry & Hpost & _).
  assert (e <> "") as Hne by congruence.
  pose proof (upload_request_valid _ _ _ _ _ _ _ Hreq Hh Hentry Hne) as Hvalid.
  apply fetch_post in Hrun as Hcases; [|done].
  destruct Hcases as [(_ & _ & Hst) | [(_ & Hbad & _) | (_ & Hup)]].
  - split; [lia|]. intros; lia.
  - exfalso. destruct Hvalid as (Hgh & Hh' & Hp & Hp' & Hge & He' & Hn).
    destruct Hbad as [Hbad | [Hbad | [Hbad | (p & Hget & Hnan)]]].
    + by rewrite Hgh, truthy_Some in Hbad.
    + by rewrite Hp, truthy_Some in Hbad.
    + by rewrite Hge, truthy_Some in Hbad.
    + rewrite Hp in Hget. injection Hget as <-. by rewrite Hn in Hnan.
  - destruct Hup as (h0 & p0 & e0 & n0 & _ & Hup & Hst).
    split; [lia|]. intros Hok.
    destruct (handleUpload_200 _ _ _ _ _ _ _ _ _ Hvalid Hup Hok)
      as (w1 & w2 & _ & _ & Hstart).
    apply startApp_ok_more in Hstart as (srv & Hport & _ & Hcur & Hhash & _).
    split; [by rewrite Hh|]. exists srv. split; [done|]. split; [done|].
    intros Hrange. by rewrite Hport, bound_port_in_range.
Qed.


(** ** The whole run *)

Lemma main_inv cenv c c' code :
  main cenv c = (c', code) ->
  (code = 0 /\ deploy_steps cenv c = (c', COk tt)) \/
  (code = 1 /\ exists e, deploy_steps cenv c = (c', CErr e)).
Proof.
  unfold main. destruct (deploy_steps cenv c) as [c0 [[]|e]]; intros [= <- <-];
    [left | right]; eauto.
Qed.

Lemma response_ok_status resp :
  response_ok resp = true -> status resp <> 404 /\ status resp <> 400 /\
                             status resp <> 500.
Proof. unfold response_ok. lia. Qed.

(** What a completed upload step has done on the server. *)
Lemma uploadToServer_ok cenv file url config c c' bytes :
  read_file (local c) file = Some bytes ->
  uploadToServer cenv file url config c = (c', COk tt) ->
  local c' = local c /\
  exists request h e w1 w2,
    header_value (generateHash cenv bytes) = Some h /\
    header_value (deploy_entrypoint config) = Some e /\
    req_body request = Some bytes /\
    exec (materialize (server_env cenv) h request) (remote c) = (w1, Ok tt) /\
    exec (stopCurrentApp (server_env cenv)) w1 = (w2, Ok tt) /\
    exec (startApp (server_env cenv) h (deploy_port config) e) w2
      = (remote c', Ok tt).
Proof.
  intros Hbytes Hup.
  apply uploadToServer_inv in Hup as [Hloc [(_ & ? & ?) | Hup]]; [done|].
  split; [done|].
  destruct Hup as (bytes' & request & resp & Hread & Hreq & _ & Hfetch & _ & Hok).
  assert (bytes' = bytes) as -> by congruence.
  specialize (Hok eq_refl).
  apply response_ok_status in Hok as (H404 & H400 & H500).
  apply upload_request_inv in Hreq
    as (h & e & Hh & He & Hpost & _ & Hbody & Hgh & Hgp & Hge).
  apply fetch_post in Hfetch
    as [(_ & _ & ?) | [(_ & _ & _ & ?)
                      | (_ & h' & p' & e' & n' & Hvalid & Hrun & Hst)]];
    [done | done | | done].
  destruct Hst as [Hst | ?]; [|done].
  pose proof Hvalid as (Hh' & _ & Hp' & _ & He' & _ & Hn).
  rewrite Hgh in Hh'. rewrite Hgp in Hp'. rewrite Hge in He'.
  injection Hh' as <-. injection Hp' as <-. injection He' as <-.
  rewrite parseInt_rendering in Hn. injection Hn as <-.
  exists request, h, e.
  destruct (handleUpload_200 _ _ _ _ _ _ _ _ _ Hvalid Hrun Hst)
    as (w1 & w2 & Hmat & Hstop & Hstart).
  by exists w1, w2.
Qed.

(** X17.  When [deploy.json] is missing, the build or [tar] does not exit
    with 0, the build output directory is missing or the server cannot be
    reached, [main] ends with exit code 1 and the server is as before. *)
Theorem main_stops_before_upload cenv c c' code :
  existsSync (local c) (join (cli_cwd cenv) "deploy.json") = false \/
  build_outcome cenv <> Closed (Some 0) \/
  (forall config,
     readDeployConfig cenv c = (c, COk config) ->
     existsSync (build_effect cenv (local c))
       (resolve (cli_cwd cenv) (deploy_dist config)) = false) \/
  tar_outcome cenv <> Closed (Some 0) \/
  reachable cenv = false ->
  main cenv c = (c', code) ->
  code = 1 /\ remote c' = remote c.
Proof.
  intros Hearly Hmain.
  assert (forall r, deploy_steps cenv c = (c', r) ->
            (exists e, r = CErr e) /\ remote c' = remote c) as Hsteps.
  { intros r Hrun. apply deploy_steps_inv in Hrun
      as [(Hrem & Herr & _)
         | (config & c3 & r3 & Hcfg & Hb & Hdist & Htar & _ & Hup & Hend)];
      [done|].
    destruct Hearly as [Hno | [Hbuild | [Hnodist | [Hnotar | Hdown]]]].
    - apply readDeployConfig_inv in Hcfg as [_ Herr].
      by destruct (Herr Hno).
    - done.
    - by rewrite (Hnodist config Hcfg) in Hdist.
    - done.
    - apply uploadToServer_inv in Hup as [_ [(Hrem & e & ->) | Hup]].
      + destruct Hend as [-> ->]. eauto.
      + destruct Hup as (? & ? & ? & _ & _ & ? & _). congruence. }
  apply main_inv in Hmain as [(-> & Hrun) | (-> & e & Hrun)];
    apply Hsteps in Hrun as [[e' He'] Hrem]; done.
Qed.

(** X18.  When [main] ends with exit code 0 for a build output directory
    whose path is a plain word for the shell and a safe-integer port, the
    server's current version is the identifier generated for the archive of
    the build output, as sent (without leading and trailing blanks); its
    current server listens on the port the runtime bound for the configured
    one, which is the configured one when that is between 1 and 65535; the
    state file records the identifier, the configured port and the entry
    file as sent; and the temporary archive of the client is removed. *)
Theorem main_success cenv c c' config :
  readDeployConfig cenv c = (c, COk config) ->
  Z.abs (deploy_port config) < 2 ^ 53 ->
  shell_plain_path (resolve (cli_cwd cenv) (deploy_dist config)) = true ->
  main cenv c = (c', 0) ->
  exists h e srv,
    header_value (version_of cenv config c) = Some h /\
    header_value (deploy_entrypoint config) = Some e /\
    currentDeploymentHash (remote c') = Some h /\
    currentAppServer (remote c') = Some srv /\
    srv ∈ listening (remote c') /\
    srv_port srv = bound_port (server_env cenv) (deploy_port config) /\
    (1 <= deploy_port config <= 65535 -> srv_port srv = deploy_port config) /\
    files (remote c') !! STATE_FILE =
      Some (File (JSON_stringify
                    {| hash := h;
                       port := deploy_port config;
                       entrypoint := e;
                       timestamp := now (server_env cenv) |})) /\
    local c' !! tarFile_of cenv = None.
Proof.
  intros Hcfg _ Hplain Hmain.
  apply main_inv in Hmain as [(_ & Hrun) | (? & _)]; [|done].
  apply deploy_steps_inv in Hrun
    as [(_ & [? ?] & _)
       | (config' & c3 & r3 & Hcfg' & _ & _ & _ & _ & Hup & Hend)]; [done|].
  assert (config' = config) as -> by congruence.
  destruct r3 as [[]|e]; [|by destruct Hend].
  apply unlinkSync_inv in Hend as (Hrem & Hgone & _).
  apply uploadToServer_ok with (bytes := archive_of cenv config c) in Hup.
  2:{ unfold read_file. cbn [local].
      by rewrite after_tar_plain, lookup_insert_eq by done. }
  destruct Hup as (_ & request & h & e & w1 & w2 & Hh & He & _ & _ & _ & Hstart).
  cbn [remote] in Hstart.
  apply startApp_ok in Hstart as (srv & Hport & _ & Hcur & Hhash & Hl & Hstate).
  rewrite Hrem. exists h, e, srv.
  repeat split; try done.
  - rewrite Hl. apply list_elem_of_here.
  - intros Hrange. by rewrite Hport, bound_port_in_range.
  - by apply Hgone.
Qed.

(** X19.  When [main] ends with exit code 1 after [tar] has ended with code
    0, what [tar] left at the path of the temporary archive is still there:
    the archive is removed on the successful path only.  With a build output
    directory whose path is a plain word for the shell, that is the archive
    of the build output. *)
Theorem failed_deploy_leaves_archive cenv c c' config :
  readDeployConfig cenv c = (c, COk config) ->
  build_outcome cenv = Closed (Some 0) ->
  existsSync (build_effect cenv (local c))
    (resolve (cli_cwd cenv) (deploy_dist config)) = true ->
  tar_outcome cenv = Closed (Some 0) ->
  main cenv c = (c', 1) ->
  local c' !! tarFile_of cenv = after_tar cenv config c !! tarFile_of cenv /\
  (shell_plain_path (resolve (cli_cwd cenv) (deploy_dist config)) = true ->
   local c' !! tarFile_of cenv = Some (File (archive_of cenv config c))).
Proof.
  intros Hcfg Hbuild Hdist Htar Hmain.
  assert (local c' = after_tar cenv config c) as Hloc.
  { apply main_inv in Hmain as [(? & _) | (_ & e & Hrun)]; [done|].
    apply deploy_steps_inv in Hrun
      as [(_ & _ & Hleft)
         | (config' & c3 & r3 & Hcfg' & _ & _ & _ & _ & Hup & Hend)].
    { by apply Hleft. }
    assert (config' = config) as -> by congruence.
    apply uploadToServer_inv in Hup as [Hloc _]. cbn [local] in Hloc.
    assert (c' = c3) as ->; [|done].
    destruct r3 as [[]|e3]; [|by destruct Hend].
    apply unlinkSync_inv in Hend as (_ & _ & Hsame). apply Hsame. eauto. }
  rewrite Hloc. split; [done|]. intros Hplain.
  rewrite after_tar_plain by done. apply lookup_insert_eq.
Qed.

(** X20.  When the path of the address [main] posts to is not [/upload],
    the exit code is 1 and the server is as before. *)
Theorem upload_to_wrong_path cenv c c' code config :
  readDeployConfig cenv c = (c, COk config) ->
  url_pathname (serverUrl_of cenv config +:+ "/upload") <> "/upload" ->
  main cenv c = (c', code) ->
  code = 1 /\ remote c' = remote c.
Proof.
  intros Hcfg Hpath Hmain.
  assert (forall r, deploy_steps cenv c = (c', r) ->
            (exists e, r = CErr e) /\ remote c' = remote c) as Hsteps.
  { intros r Hrun. apply deploy_steps_inv in Hrun
      as [(Hrem & Herr & _)
         | (config' & c3 & r3 & Hcfg' & _ & _ & _ & _ & Hup & Hend)];
      [done|].
    assert (config' = config) as -> by congruence.
    apply uploadToServer_inv in Hup as [_ [(Hrem & e & ->) | Hup]].
    { destruct Hend as [-> ->]. eauto. }
    destruct Hup as (bytes & request & resp & _ & Hreq & _ & Hfetch & Hbad & _).
    cbn [remote] in Hfetch.
    apply upload_request_inv in Hreq as (? & ? & _ & _ & Hpost & Hpn & _).
    rewrite <- Hpn in Hpath.
    apply fetch_post in Hfetch
      as [(_ & Hw & Hst) | [(? & _) | (? & _)]]; [|done|done|done].
    destruct Hbad as [e ->]; [unfold response_ok; lia|].
    destruct Hend as [-> ->]. split; [eauto|]. by rewrite Hw. }
  apply main_inv in Hmain as [(-> & Hrun) | (-> & e & Hrun)];
    apply Hsteps in Hrun as [[e' He'] Hrem]; done.
Qed.

End ClientProofs.

Section Delivery.
Context `{!Runtime, !ClientRuntime}.

(** ** From the client's directory to the server's *)

Lemma strip_prefix_Some (dp p rel : Path) :
  strip_prefix dp p = Some rel <-> p = dp ++ rel.
Proof.
  revert p. induction dp as [|x dp IH]; intros p; cbn.
  - split; [by intros [= ->] | by intros ->].
  - destruct p as [|y p]; [done|]. case_decide as Hxy.
    + subst y. rewrite IH. split; [by intros -> | by intros [= ->]].
    + split; [done | intros [= ? _]; done].
Qed.

Lemma subtree_members (dp : Path) (l : list (Path * Node)) (rel : Path)
    (n : Node) :
  (rel, n) ∈ omap (fun kv => (fun rel => (rel, kv.2)) <$> strip_prefix dp kv.1) l
  <-> (dp ++ rel, n) ∈ l.
Proof.
  rewrite list_elem_of_omap. split.
  - intros ([p n'] & Hin & Heq). cbn in Heq.
    destruct (strip_prefix dp p) as [rel'|] eqn:Hstrip; [|done].
    injection Heq as <- <-. apply strip_prefix_Some in Hstrip. by subst p.
  - intros Hin. exists (dp ++ rel, n). split; [done|]. cbn.
    by rewrite (proj2 (strip_prefix_Some dp (dp ++ rel) rel) eq_refl).
Qed.

Lemma lookup_subtree (dp : Path) (f : FS) (rel : Path) :
  subtree dp f !! rel = f !! (dp ++ rel).
Proof.
  unfold subtree. apply option_eq. intros n.
  rewrite <- elem_of_list_to_map, subtree_members, elem_of_map_to_list; [done|].
  pose proof (NoDup_fst_map_to_list f) as Hnd.
  induction (map_to_list f) as [|[p n'] l IH]; [constructor|].
  cbn [fmap list_fmap fst] in Hnd. apply NoDup_cons in Hnd as [Hp Hnd].
  cbn [omap list_omap fst snd].
  destruct (strip_prefix dp p) as [rel'|] eqn:Hstrip; cbn [fmap option_fmap option_map];
    [|by apply IH].
  cbn [fmap list_fmap fst]. apply NoDup_cons. split; [|by apply IH].
  intros Hin. apply Hp.
  apply list_elem_of_fmap in Hin as ([rel0 n0] & Heq & Hin). cbn in Heq. subst rel0.
  apply subtree_members in Hin. apply strip_prefix_Some in Hstrip. subst p.
  apply list_elem_of_fmap. by exists (dp ++ rel', n0).
Qed.

Lemma prefixes_parent_shorter (p q : Path) :
  q ∈ prefixes (parent p) -> q `prefix_of` p /\ q <> p.
Proof.
  intros Hin. destruct p as [|x p]; [by apply elem_of_nil in Hin|].
  apply prefixes_prefix in Hin as Hq. split.
  - etrans; [done | apply parent_prefix].
  - intros ->. apply prefix_length in Hq. unfold parent in Hq.
    rewrite length_take in Hq. cbn [length] in Hq. lia.
Qed.

(** Unpacking members with distinct names: a member is found where it was
    put, unless a later member needs a directory there. *)
Lemma extract_lookup (dp : Path) (members : list (Path * Node)) (f : FS)
    (rel : Path) (n : Node) :
  NoDup members.*1 ->
  (rel, n) ∈ members ->
  (forall rel' n', (rel', n') ∈ members -> rel ∈ prefixes (parent rel') ->
                   n = Dir) ->
  extract dp members f !! (dp ++ rel) = Some n.
Proof.
  unfold extract.
  induction members as [|[rel' n'] ms IH] using rev_ind; intros Hnd Hin Hdir.
  { by apply elem_of_nil in Hin. }
  rewrite foldl_app. cbn [foldl fst snd].
  rewrite fmap_app in Hnd. apply NoDup_app in Hnd as (Hnd & Hfresh & _).
  apply elem_of_app in Hin as [Hin | Hin%list_elem_of_singleton].
  - assert (rel <> rel') as Hne.
    { intros ->. apply (Hfresh rel'); [|cbn; apply list_elem_of_here].
      apply list_elem_of_fmap. by exists (rel', n). }
    unfold put_under at 1.
    rewrite lookup_insert_ne by (intros ?%(inj (app dp)); done).
    rewrite (lookup_mkdirs (fun x => dp ++ x)). case_decide as Hpre.
    + apply list_elem_of_fmap in Hpre as (x & ->%(inj (app dp)) & Hx).
      f_equal. symmetry. apply (Hdir rel' n'); [|done].
      apply elem_of_app. right. apply list_elem_of_here.
    + apply IH; [done | done |]. intros r0 n0 Hin0 Hpre0.
      apply (Hdir r0 n0); [|done]. apply elem_of_app. by left.
  - injection Hin as -> ->. unfold put_under at 1. apply lookup_insert_eq.
Qed.

Lemma extract_tree (dp : Path) (t : FS) (members : list (Path * Node))
    (f : FS) (rel : Path) (n : Node) :
  tree_shaped t -> members ≡ₚ map_to_list t -> t !! rel = Some n ->
  extract dp members f !! (dp ++ rel) = Some n.
Proof.
  intros Htree Hperm Hrel. apply extract_lookup.
  - rewrite Hperm. apply NoDup_fst_map_to_list.
  - rewrite Hperm. by apply elem_of_map_to_list.
  - intros rel' n'. rewrite Hperm. intros Hin%elem_of_map_to_list Hpre.
    apply prefixes_parent_shorter in Hpre as [Hpre Hne].
    destruct (Htree rel n Hrel) as [-> | Hleaf]; [done|].
    by destruct Hne; symmetry; apply (Hleaf rel' n' Hin).
Qed.

(** The bytes unpacked are the bytes uploaded. *)
Lemma materialize_reads_upload env h request w w' :
  exec (materialize env h request) w = (w', Ok tt) ->
  exists bytes f3 members,
    req_body request = Some bytes /\
    untar bytes = Some members /\
    rm_file (extract (join DEPLOYMENTS_DIR h) members f3) (tempFile_of h)
      = Some (files w').
Proof.
  intros Hmat. apply materialize_ok in Hmat
    as (bytes & f1 & f3 & bytes' & members & Hbody & Hwrite & Hmk & _ & Hread
        & Huntar & Hrm).
  exists bytes, f3, members. repeat split; try done.
  assert (bytes' = bytes) as -> ; [|done].
  apply write_file_self in Hwrite. unfold read_file in Hread.
  rewrite (lookup_mkdir_p _ _ _ _ Hmk) in Hread. case_decide; [done|].
  destruct (existsSync f1 _).
  - unfold rm_rf in Hread.
    destruct (filter _ f1 !! tempFile_of h) as [x|] eqn:Hx; [|done].
    apply map_lookup_filter_Some in Hx as [Hx _]. rewrite Hwrite in Hx.
    injection Hx as <-. by injection Hread.
  - rewrite Hwrite in Hread. by injection Hread.
Qed.

(** X21.  When [main] ends with exit code 0, every file and directory of
    the build output is on the server, below the directory of the generated
    version as sent, with the same content; provided the path of the build
    output directory is a plain word for the shell, the configured port is a
    safe integer, the time stamp and the digest hold no [/], the output is a
    tree, and the server's [tar] lists the members of the archive the
    client's [tar] made of it. *)
Theorem main_delivers_dist cenv c c' config members :
  readDeployConfig cenv c = (c, COk config) ->
  Z.abs (deploy_port config) < 2 ^ 53 ->
  shell_plain_path (resolve (cli_cwd cenv) (deploy_dist config)) = true ->
  no_slash (iso_now cenv) = true ->
  no_slash (sha256_hex (archive_of cenv config c)) = true ->
  tree_shaped (dist_tree cenv config c) ->
  untar (archive_of cenv config c) = Some members ->
  members ≡ₚ map_to_list (dist_tree cenv config c) ->
  main cenv c = (c', 0) ->
  exists h,
    header_value (version_of cenv config c) = Some h /\
    forall rel n,
      build_effect cenv (local c)
        !! (resolve (cli_cwd cenv) (deploy_dist config) ++ rel) = Some n ->
      files (remote c') !! (join DEPLOYMENTS_DIR h ++ rel) = Some n.
Proof.
  intros Hcfg _ Hshell Hiso Hsha Htree Huntar Hperm Hmain.
  apply main_inv in Hmain as [(_ & Hrun) | (? & _)]; [|done].
  apply deploy_steps_inv in Hrun
    as [(_ & [? ?] & _)
       | (config' & c3 & r3 & Hcfg' & _ & _ & _ & _ & Hup & Hend)]; [done|].
  assert (config' = config) as -> by congruence.
  destruct r3 as [[]|e]; [|by destruct Hend].
  apply unlinkSync_inv in Hend as (Hrem & _ & _).
  apply uploadToServer_ok with (bytes := archive_of cenv config c) in Hup.
  2:{ unfold read_file. cbn [local].
      by rewrite after_tar_plain, lookup_insert_eq by done. }
  destruct Hup as (_ & request & h & e & w1 & w2 & Hh & He & Hbody & Hmat
                   & Hstop & Hstart).
  cbn [remote] in Hmat. exists h. split; [done|]. intros rel n Hrel.
  rewrite <- lookup_subtree in Hrel. fold (dist_tree cenv config c) in Hrel.
  destruct (sent_version_plain cenv (archive_of cenv config c) h Hh Hiso Hsha)
    as [Hplain Hne].
  apply materialize_reads_upload in Hmat
    as (bytes & f3 & members' & Hbody' & Huntar' & Hrm).
  rewrite Hbody in Hbody'. injection Hbody' as <-.
  assert (members' = members) as -> by congruence.
  apply stopCurrentApp_files in Hstop.
  apply startApp_ok_more in Hstart as (srv & _ & _ & _ & _ & _ & _ & _ & Hwrite).
  rewrite Hrem, (write_file_frame _ _ _ _ _ Hwrite), Hstop.
  - rewrite (rm_file_frame _ _ _ _ Hrm).
    + by apply (extract_tree _ (dist_tree cenv config c)).
    + rewrite (join_plain _ _ DEPLOYMENTS_DIR_regular Hplain).
      rewrite tempFile_of_plain by apply Hplain.
      unfold DEPLOYMENTS_DIR. rewrite normalize_snoc by (by repeat split).
      rewrite <- !(assoc app). cbn [app].
      destruct (normalize cwd) as [|a l]; cbn [app]; [by intros [= ? _]|].
      intros Heq%(f_equal length). rewrite !length_cons, !length_app in Heq.
      cbn in Heq. lia.
  - rewrite STATE_FILE_eq, (join_plain _ _ DEPLOYMENTS_DIR_regular Hplain).
    rewrite <- (assoc app). intros Hpre%prefix_app_inv.
    by apply prefix_cons_inv_1 in Hpre.
Qed.

End Delivery.

(** * The further properties on concrete runs *)

Module ServerRuns.
Import Sample Scenario.
#[local] Existing Instance Sample.runtime.

Ltac run := vm_compute; first [reflexivity | congruence].
Ltac runs :=
  intros; unfold valid_headers;
  repeat (match goal with |- _ /\ _ => split end); run.
Ltac apart := intros [k Hk]; vm_compute in Hk; congruence.
Ltac whole_run := apply surjective_pairing.

(** X3: [DELETE /upload]. *)
Lemma unknown_route_witness :
  fetch all_ok req_delete running_v1 =
    (running_v1, Settled (Ok {| status := 404; body := Text "Not Found" |})).
Proof.
  apply (proj1 (unknown_route all_ok req_delete running_v1));
    intros [_ Hmethod]; vm_compute in Hmethod; congruence.
Defined.

(** X5: no [X-Deploy-Port], then a port that is no number. *)
Lemma rejection_reasons_witness :
  handleUpload all_ok req_no_port running_v1 =
    (running_v1,
     Settled (Ok {| status := 400; body := Text "缺少必要的部署信息" |})) /\
  handleUpload all_ok req_bad_port running_v1 =
    (running_v1, Settled (Ok {| status := 400; body := Text "无效的端口号" |})).
Proof.
  split.
  - apply (proj1 (rejection_reasons all_ok req_no_port running_v1)).
    right; left. run.
  - apply (proj2 (rejection_reasons all_ok req_bad_port running_v1)
             "v1" "http" "index.js"); run.
Defined.

(** X1: the port 3000. *)
Lemma parseInt_Number_toString_witness :
  parseInt (Number_toString 3000) = Num 3000.
Proof. apply (parseInt_Number_toString 3000). run. Defined.

(** X2: [3000/tcp] is read as 3000. *)
Lemma parseInt_ignores_suffix_witness :
  parseInt ("3000" +:+ String "/" "tcp") = parseInt "3000".
Proof.
  apply (parseInt_ignores_suffix "3000" "/" "tcp"); try run.
  intros [Hzero _]. congruence.
Defined.

(** X6: [v1] on a fresh process; then [v2] when [tar -xzf] fails. *)
Lemma temporary_archive_lifecycle_witness :
  files (after (materialize all_ok "v1" req_v1) fresh) !! tempFile_of "v1"
    = None /\
  exists bytes,
    req_body req_v2 = Some bytes /\
    files (after (materialize tar_fails "v2" req_v2) running_v1)
      !! tempFile_of "v2" = Some (File bytes).
Proof.
  split.
  - apply (proj1 (temporary_archive_lifecycle all_ok "v1" req_v1 fresh
                    (after (materialize all_ok "v1" req_v1) fresh))). run.
  - apply (proj2 (temporary_archive_lifecycle tar_fails "v2" req_v2 running_v1
                    (after (materialize tar_fails "v2" req_v2) running_v1)));
      [run | apart].
Defined.

(** X7: deploying [v2] leaves the files of [v1] alone. *)
Lemma deploy_leaves_other_versions_witness :
  headers_get req_v2 "X-Deploy-Hash" = Some "v2" /\
  forall rel,
    files (after (handleUpload all_ok req_v2) running_v1)
      !! (join DEPLOYMENTS_DIR "v1" ++ rel) =
    files running_v1 !! (join DEPLOYMENTS_DIR "v1" ++ rel).
Proof.
  split; [run|].
  apply (deploy_leaves_other_versions all_ok req_v2 running_v1
           (after (handleUpload all_ok req_v2) running_v1)
           (exec (handleUpload all_ok req_v2) running_v1).2 "v2" "v1").
  - run.
  - by repeat split.
  - by repeat split.
  - congruence.
  - congruence.
  - whole_run.
Defined.

(** X14: the upload of [../data] removes [data/db]. *)
Lemma version_is_not_confined_witness :
  files with_data !! ["app"; "data"; "db"] = Some (File "rows") /\
  files (after (materialize all_ok "../data" req_escape) with_data)
    !! ["app"; "data"; "db"] = None /\
  join DEPLOYMENTS_DIR ("../" +:+ "data") = normalize cwd ++ ["data"] /\
  exists bytes members,
    req_body req_escape = Some bytes /\
    untar bytes = Some members /\
    forall rel,
      files (after (materialize all_ok "../data" req_escape) with_data)
        !! (normalize cwd ++ ["data"] ++ rel) =
      extract [] members {[ [] := Dir ]} !! rel.
Proof.
  split; [run|]. split; [run|].
  apply (version_is_not_confined all_ok req_escape with_data
           (after (materialize all_ok "../data" req_escape) with_data) "data").
  - by repeat split.
  - run.
  - run.
Defined.

(** X8: the record of [v1]. *)
Lemma save_then_load_witness :
  exec (loadDeploymentState all_ok)
    (after (saveDeploymentState all_ok "v1" 3000 "index.js") fresh) =
  (after (saveDeploymentState all_ok "v1" 3000 "index.js") fresh,
   Ok (Some (Typed {| hash := "v1"; port := 3000; entrypoint := "index.js";
                      timestamp := now all_ok |}))).
Proof.
  apply (save_then_load all_ok all_ok "v1" 3000 "index.js" fresh); run.
Defined.

(** X9: the process is started again after the deploy of [v1]. *)
Lemma restart_recovers_witness :
  exec (loadDeploymentState all_ok) (restart running_v1) =
    (restart running_v1,
     Ok (Some (Typed {| hash := "v1"; port := 3000; entrypoint := "index.js";
                        timestamp := now all_ok |}))) /\
  exists w2 srv,
    exec (recover all_ok) (restart running_v1) = (w2, Ok tt) /\
    currentAppServer w2 = Some srv /\ listening w2 = [srv] /\
    srv_port srv = bound_port all_ok 3000 /\
    (1 <= 3000 <= 65535 -> srv_port srv = 3000) /\
    currentDeploymentHash w2 = Some "v1".
Proof.
  apply (restart_recovers all_ok req_v1 fresh "v1" "3000" "index.js" 3000
           running_v1 (deployed all_ok "v1" 3000) all_ok
           {| mod_default := Some (Some 1%nat); mod_fetch := None |} 1%nat).
  - run.
  - run.
  - run.
  - run.
  - run.
  - run.
  - runs.
  - run.
  - run.
Defined.

(** X10: two deploys after the recovery on a fresh disk. *)
Lemma running_server_has_version_witness :
  versioned fresh /\
  versioned (serve_all [(all_ok, req_v1); (all_ok, req_v2)]
               (exec (recover all_ok) fresh).1).
Proof.
  assert (versioned fresh) as Hfresh by (by intros [? ?]).
  split; [done|].
  by apply (running_server_has_version all_ok
              [(all_ok, req_v1); (all_ok, req_v2)] fresh).
Defined.

(** X11: [v1], then [v2]. *)
Lemma successive_deploys_witness :
  exists s1 s2,
    currentAppServer running_v1 = Some s1 /\ listening running_v1 = [s1] /\
    currentAppServer (after (handleUpload all_ok req_v2) running_v1) = Some s2 /\
    listening (after (handleUpload all_ok req_v2) running_v1) = [s2] /\
    (s1 ∉ listening (after (handleUpload all_ok req_v2) running_v1)) /\
    srv_port s2 = bound_port all_ok 3001 /\
    (1 <= 3001 <= 65535 -> srv_port s2 = 3001) /\
    currentDeploymentHash (after (handleUpload all_ok req_v2) running_v1)
      = Some "v2" /\
    files (after (handleUpload all_ok req_v2) running_v1) !! STATE_FILE =
      Some (File (JSON_stringify
                    {| hash := "v2"; port := 3001; entrypoint := "index.js";
                       timestamp := now all_ok |})).
Proof.
  apply (successive_deploys all_ok req_v1 all_ok req_v2 fresh running_v1
           (after (handleUpload all_ok req_v2) running_v1)
           (deployed all_ok "v1" 3000) (deployed all_ok "v2" 3001)
           "v1" "3000" "index.js" 3000 "v2" "3001" "index.js" 3001).
  - run.
  - runs.
  - runs.
  - run.
  - run.
  - run.
  - run.
Defined.

(** X12: a disk without the deployments directory. *)
Lemma ensureDeploymentsDir_witness :
  same_process bare (ensureDeploymentsDir all_ok bare).1 /\
  (forall q c, files bare !! q = Some (File c) ->
               files (ensureDeploymentsDir all_ok bare).1 !! q = Some (File c)) /\
  (forall q, ~ q `prefix_of` DEPLOYMENTS_DIR ->
             files (ensureDeploymentsDir all_ok bare).1 !! q = files bare !! q) /\
  ((ensureDeploymentsDir all_ok bare).2 = Ok tt ->
   is_Some (files (ensureDeploymentsDir all_ok bare).1 !! DEPLOYMENTS_DIR)) /\
  (existsSync (files bare) DEPLOYMENTS_DIR = true ->
   (ensureDeploymentsDir all_ok bare).1 = bare /\
   (ensureDeploymentsDir all_ok bare).2 = Ok tt).
Proof.
  apply (ensureDeploymentsDir_spec all_ok bare). whole_run.
Defined.

(** X13: a signal while [v1] runs, when its server stops and when it does
    not. *)
Lemma signal_handler_witness :
  (exit_code (on_signal all_ok serving_v1) = Some 0 /\
   upload_bound (on_signal all_ok serving_v1) = false /\
   currentAppServer (proc (on_signal all_ok serving_v1)) = None /\
   (single_instance (proc serving_v1) ->
    listening (proc (on_signal all_ok serving_v1)) = [])) /\
  (exit_code (on_signal (env_with false true) serving_v1) = Some 1 /\
   proc (on_signal (env_with false true) serving_v1) = proc serving_v1 /\
   upload_bound (on_signal (env_with false true) serving_v1)
     = upload_bound serving_v1).
Proof.
  split.
  - apply (proj1 (signal_handler_spec all_ok serving_v1)). left. run.
  - apply (proj2 (signal_handler_spec (env_with false true) serving_v1));
      [run | eexists; run].
Defined.

End ServerRuns.

Module ClientRuns.
Import Sample Scenario.
#[local] Existing Instance Scenario.server_runtime.
#[local] Existing Instance Scenario.client_runtime.

Ltac run := vm_compute; first [reflexivity | congruence].
Ltac whole_run := apply surjective_pairing.

(** X15: the identifier of the sample archive. *)
Lemma generated_version_witness :
  plain_name (generateHash cenv_ok "./index.js=code;.//") /\
  generateHash cenv_ok "./index.js=code;.//" <> ".state.json" /\
  unrelated (join DEPLOYMENTS_DIR (generateHash cenv_ok "./index.js=code;.//"))
    STATE_FILE /\
  ~ STATE_FILE `prefix_of` tempFile_of (generateHash cenv_ok "./index.js=code;.//").
Proof.
  apply (generated_version_is_plain cenv_ok "./index.js=code;.//"); run.
Defined.

(** X16: the request for the sample project at a fresh server. *)
Lemma client_request_witness :
  let h := generateHash cenv_ok "./index.js=code;.//" in
  let request := {|
    req_method := "POST"; req_pathname := "/upload";
    req_headers := {[ "Content-Type" := "application/gzip";
                      "X-Deploy-Hash" := h;
                      "X-Deploy-Port" := "3000";
                      "X-Deploy-Entrypoint" := "index.js" ]};
    req_body := Some "./index.js=code;.//" |} in
  status (deployed all_ok h 3000) <> 400 /\
  (status (deployed all_ok h 3000) = 200 ->
   currentDeploymentHash (after (fetch all_ok request) fresh)
     = header_value h /\
   exists srv,
     currentAppServer (after (fetch all_ok request) fresh) = Some srv /\
     srv_port srv = bound_port all_ok (deploy_port (demo None)) /\
     (1 <= deploy_port (demo None) <= 65535 ->
      srv_port srv = deploy_port (demo None))).
Proof.
  intros h request.
  apply (client_request_accepted cenv_ok "http://deploy.example" (demo None)
           "./index.js=code;.//" request all_ok fresh); run.
Defined.

(** X17: the build fails. *)
Lemma main_stops_before_upload_witness :
  (main (cenv_with (Closed (Some 1)) id true) laptop).2 = 1 /\
  remote (main (cenv_with (Closed (Some 1)) id true) laptop).1 = remote laptop.
Proof.
  apply (main_stops_before_upload (cenv_with (Closed (Some 1)) id true) laptop).
  - right; left. run.
  - whole_run.
Defined.

(** X18: the sample project is deployed on a fresh server. *)
Lemma main_success_witness :
  let config := demo (Some "http://deploy.example") in
  let c' := (main cenv_ok laptop).1 in
  exists h e srv,
    header_value (version_of cenv_ok config laptop) = Some h /\
    header_value (deploy_entrypoint config) = Some e /\
    currentDeploymentHash (remote c') = Some h /\
    currentAppServer (remote c') = Some srv /\
    srv ∈ listening (remote c') /\
    srv_port srv = bound_port (server_env cenv_ok) (deploy_port config) /\
    (1 <= deploy_port config <= 65535 -> srv_port srv = deploy_port config) /\
    files (remote c') !! STATE_FILE =
      Some (File (JSON_stringify
                    {| hash := h;
                       port := deploy_port config;
                       entrypoint := e;
                       timestamp := now (server_env cenv_ok) |})) /\
    local c' !! tarFile_of cenv_ok = None.
Proof.
  apply (main_success cenv_ok laptop (main cenv_ok laptop).1
           (demo (Some "http://deploy.example"))); run.
Defined.

(** X19: the server cannot be reached. *)
Lemma failed_deploy_leaves_archive_witness :
  let cenv := cenv_with (Closed (Some 0)) builds_dist false in
  let config := demo (Some "http://deploy.example") in
  main cenv laptop = ((main cenv laptop).1, 1) /\
  local (main cenv laptop).1 !! tarFile_of cenv
    = after_tar cenv config laptop !! tarFile_of cenv /\
  (shell_plain_path (resolve (cli_cwd cenv) (deploy_dist config)) = true ->
   local (main cenv laptop).1 !! tarFile_of cenv
     = Some (File (archive_of cenv config laptop))).
Proof.
  split; [run|].
  apply (failed_deploy_leaves_archive
           (cenv_with (Closed (Some 0)) builds_dist false) laptop
           (main (cenv_with (Closed (Some 0)) builds_dist false) laptop).1
           (demo (Some "http://deploy.example"))); run.
Defined.

(** X20: the configured address ends in [/api]. *)
Lemma upload_to_wrong_path_witness :
  (main cenv_ok (project "http://deploy.example/api")).2 = 1 /\
  remote (main cenv_ok (project "http://deploy.example/api")).1
    = remote (project "http://deploy.example/api").
Proof.
  apply (upload_to_wrong_path cenv_ok (project "http://deploy.example/api")
           (main cenv_ok (project "http://deploy.example/api")).1
           (main cenv_ok (project "http://deploy.example/api")).2
           (demo (Some "http://deploy.example/api"))).
  - run.
  - vm_compute. congruence.
  - whole_run.
Defined.

(** X21: [dist/index.js] of the sample project on the server. *)
Lemma main_delivers_dist_witness :
  let config := demo (Some "http://deploy.example") in
  main cenv_ok laptop = ((main cenv_ok laptop).1, 0) /\
  exists h,
    header_value (version_of cenv_ok config laptop) = Some h /\
    forall rel n,
      build_effect cenv_ok (local laptop)
        !! (resolve (cli_cwd cenv_ok) (deploy_dist config) ++ rel) = Some n ->
      files (remote (main cenv_ok laptop).1)
        !! (join DEPLOYMENTS_DIR h ++ rel) = Some n.
Proof.
  split; [run|].
  apply (main_delivers_dist cenv_ok laptop (main cenv_ok laptop).1
           (demo (Some "http://deploy.example"))
           [(["index.js"], File "code"); ([], Dir)]).
  - run.
  - run.
  - run.
  - run.
  - run.
  - apply (bool_decide_eq_true_1 (tree_shaped _)). run.
  - run.
  - run.
  - run.
Defined.

End ClientRuns.
